(** * obsidian-to-org: a shallow embedding of [obsidian_to_org/__main__.py]

    Python [str] values are embedded as [string]; one [ascii] stands for one
    code point, so the embedding covers texts over the Latin-1 range.  The
    library functions the program calls ([str.split], [str.replace],
    [str.splitlines], [re.sub], ...) are embedded first, the program's own
    functions after them, under the names they have in the source. *)

From Stdlib Require Import Ascii String List Bool Arith Lia.
From stdpp Require Import gmap strings.

Local Open Scope char_scope.
Local Open Scope string_scope.
Local Open Scope nat_scope.
Local Open Scope list_scope.
Local Open Scope stdpp_scope.

#[local] Arguments String.append !_ _ / : simpl nomatch.

(** ** Python [str] primitives *)

Module Py.

(** Characters that are not printable in a Rocq literal. *)
Definition LF : ascii := "010".
Definition CR : ascii := "013".
Definition nl : string := String LF "".

Definition chr (a : ascii) : string := String a "".

(** [s[n:]] *)
Fixpoint drop (n : nat) (s : string) : string :=
  match n, s with
  | S k, String _ t => drop k t
  | _, _ => s
  end.

(** [s[:n]] *)
Fixpoint take (n : nat) (s : string) : string :=
  match n, s with
  | S k, String a t => String a (take k t)
  | _, _ => ""
  end.

(** [s[:-1]] *)
Fixpoint drop_last (s : string) : string :=
  match s with
  | "" => ""
  | String a "" => ""
  | String a t => String a (drop_last t)
  end.

(** [s[1:-1]] *)
Definition slice_1_m1 (s : string) : string := drop_last (drop 1 s).

(** [s.startswith(p)] *)
Definition startswith (p s : string) : bool := String.prefix p s.

(** [c in s] for a single character [c] *)
Fixpoint has_char (c : ascii) (s : string) : bool :=
  match s with
  | "" => false
  | String a t => Ascii.eqb a c || has_char c t
  end.

(** [sub in s] *)
Fixpoint contains (sub s : string) : bool :=
  startswith sub s ||
  match s with
  | "" => false
  | String _ t => contains sub t
  end.

(** [sep.join(l)] *)
Definition join (sep : string) (l : list string) : string := String.concat sep l.

(** ["".join(l)] *)
Fixpoint concat (l : list string) : string :=
  match l with
  | [] => ""
  | x :: xs => x +:+ concat xs
  end.

(** Put a character in front of the first chunk of a chunk list. *)
Definition cons_head (a : ascii) (l : list string) : list string :=
  match l with
  | [] => [chr a]
  | x :: xs => String a x :: xs
  end.

(** [s.split(sep)] for a non-empty separator: the text is cut at the leftmost
    occurrence of [sep], then at the leftmost occurrence after it, and so on.
    [skip] counts the characters of a separator still to be passed over. *)
Fixpoint split_go (sep : string) (skip : nat) (s : string) : list string :=
  match s with
  | "" => [""]
  | String a t =>
      match skip with
      | S k => split_go sep k t
      | 0 =>
          if startswith sep s
          then "" :: split_go sep (String.length sep - 1) t
          else cons_head a (split_go sep 0 t)
      end
  end.

Definition split (sep s : string) : list string := split_go sep 0 s.

(** [s.count(sub)]: the number of non-overlapping occurrences. *)
Fixpoint count_go (sub : string) (skip : nat) (s : string) : nat :=
  match s with
  | "" => 0
  | String a t =>
      match skip with
      | S k => count_go sub k t
      | 0 =>
          if startswith sub s
          then S (count_go sub (String.length sub - 1) t)
          else count_go sub 0 t
      end
  end.

Definition count (sub s : string) : nat := count_go sub 0 s.

(** [s.replace(old, new)] for a non-empty [old]. *)
Fixpoint replace_go (old new : string) (skip : nat) (s : string) : string :=
  match s with
  | "" => ""
  | String a t =>
      match skip with
      | S k => replace_go old new k t
      | 0 =>
          if startswith old s
          then new +:+ replace_go old new (String.length old - 1) t
          else String a (replace_go old new 0 t)
      end
  end.

Definition replace (old new s : string) : string := replace_go old new 0 s.

(** [str.isspace] on one code point below 256: TAB, LF, VT, FF, CR,
    FS, GS, RS, US, SPACE, NEL and NBSP. *)
Definition is_space (a : ascii) : bool :=
  let n := nat_of_ascii a in
  ((9 <=? n) && (n <=? 13)) || ((28 <=? n) && (n <=? 32))
  || (n =? 133) || (n =? 160).

Fixpoint lstrip (s : string) : string :=
  match s with
  | "" => ""
  | String a t => if is_space a then lstrip t else s
  end.

(** [rstrip]: a character is kept when it is not a space or when something
    that is kept follows it. *)
Fixpoint rstrip (s : string) : string :=
  match s with
  | "" => ""
  | String a t =>
      match rstrip t with
      | "" => if is_space a then "" else chr a
      | t' => String a t'
      end
  end.

(** [s.strip()] *)
Definition strip (s : string) : string := rstrip (lstrip s).

(** The line boundaries of [str.splitlines] below code point 256, CR LF
    apart: LF, VT, FF, CR, FS, GS, RS and NEL. *)
Definition is_linebreak (a : ascii) : bool :=
  let n := nat_of_ascii a in
  ((10 <=? n) && (n <=? 13)) || ((28 <=? n) && (n <=? 30)) || (n =? 133).

(** [s.splitlines(True)]: the lines with their line ends kept; [cur] is the
    line being read. *)
Fixpoint splitlines_go (cur : string) (s : string) : list string :=
  match s with
  | "" => match cur with "" => [] | _ => [cur] end
  | String a t =>
      if Ascii.eqb a CR then
        match t with
        | String b u =>
            if Ascii.eqb b LF
            then (cur +:+ String CR nl) :: splitlines_go "" u
            else (cur +:+ chr CR) :: splitlines_go "" t
        | "" => [cur +:+ chr CR]
        end
      else if is_linebreak a then (cur +:+ chr a) :: splitlines_go "" t
      else splitlines_go (cur +:+ chr a) t
  end.

Definition splitlines_keepends (s : string) : list string := splitlines_go "" s.

(** What a file opened for reading in text mode hands over: CR LF and a CR
    alone are read as LF. *)
Fixpoint universal_newlines (s : string) : string :=
  match s with
  | "" => ""
  | String a t =>
      if Ascii.eqb a CR then
        match t with
        | String b u =>
            if Ascii.eqb b LF
            then String LF (universal_newlines u)
            else String LF (universal_newlines t)
        | "" => nl
        end
      else String a (universal_newlines t)
  end.

End Py.

(** ** The fragment of Python's [re] the program uses

    A backtracking matcher: [run r s c] lists, in the order in which Python's
    engine would try them, the ways in which [r] matches a prefix of [s],
    each as the text left over and the capture groups set so far.  The first
    element is the match Python reports.  Repetition is restricted to bodies
    that consume at least one character, which holds for every pattern of
    the program. *)

Module Re.

Import Py.

Inductive regex : Type :=
| Eps                                  (* the empty pattern *)
| Lit (l : string)                     (* literal text *)
| Cls (p : ascii -> bool)              (* one character of a class *)
| Cat (r1 r2 : regex)                  (* r1 r2 *)
| Alt (r1 r2 : regex)                  (* r1|r2 *)
| Opt (r : regex)                      (* r? *)
| Star (greedy : bool) (r : regex)     (* r* and r*? *)
| Grp (n : nat) (r : regex).           (* capture group number n *)

(** [r+] *)
Definition Plus (r : regex) : regex := Cat r (Star true r).

(** Capture groups, the most recent assignment first. *)
Definition caps : Type := list (nat * string).

Definition result : Type := (string * caps)%type.

Definition consumed (s s' : string) : string :=
  take (String.length s - String.length s') s.

Definition shorter (s : string) (x : result) : bool :=
  String.length (fst x) <? String.length s.

(** Repetition of [step], greedy or lazy; an iteration has to consume. *)
Fixpoint iter (greedy : bool) (step : string -> caps -> list result)
    (fuel : nat) (s : string) (c : caps) : list result :=
  match fuel with
  | 0 => [(s, c)]
  | S f =>
      let more :=
        flat_map (fun x => if shorter s x then iter greedy step f (fst x) (snd x) else [])
                 (step s c) in
      if greedy then more ++ [(s, c)] else (s, c) :: more
  end.

Fixpoint run (r : regex) (s : string) (c : caps) : list result :=
  match r with
  | Eps => [(s, c)]
  | Lit l => if startswith l s then [(drop (String.length l) s, c)] else []
  | Cls p =>
      match s with
      | String a t => if p a then [(t, c)] else []
      | "" => []
      end
  | Cat r1 r2 => flat_map (fun x => run r2 (fst x) (snd x)) (run r1 s c)
  | Alt r1 r2 => run r1 s c ++ run r2 s c
  | Opt r1 => run r1 s c ++ [(s, c)]
  | Star g r1 => iter g (run r1) (String.length s) s c
  | Grp n r1 => map (fun x => (fst x, (n, consumed s (fst x)) :: snd x)) (run r1 s c)
  end.

(** [m.group(n)]; a group that did not take part gives the empty string in a
    replacement template. *)
Fixpoint group (n : nat) (c : caps) : string :=
  match c with
  | [] => ""
  | (k, v) :: rest => if k =? n then v else group n rest
  end.

(** Replacement templates: literal text and backreferences. *)
Inductive piece : Type :=
| TLit (l : string)
| TRef (n : nat).

Fixpoint expand (tpl : list piece) (c : caps) : string :=
  match tpl with
  | [] => ""
  | TLit l :: rest => l +:+ expand rest c
  | TRef n :: rest => group n c +:+ expand rest c
  end.

(** The match found at the start of [s], as the number of characters it
    covers and its groups; with [advance] only a non-empty match counts. *)
Definition match_here (advance : bool) (r : regex) (s : string) : option (nat * caps) :=
  match (if advance then filter (shorter s) (run r s []) else run r s []) with
  | [] => None
  | x :: _ => Some (String.length s - String.length (fst x), snd x)
  end.

(** The scan shared by [sub] and [findall]: at each position the pattern is
    tried; a match is handed to [emit] and the scan goes on behind it, and a
    position without a match is handed to [keep].  After an empty match the
    same position is tried once more for a non-empty one. *)
Section Scan.
Context {A : Type}.
Variable r : regex.
Variable emit : string -> caps -> A -> A.
Variable keep : ascii -> A -> A.
Variable stop : A.

Fixpoint scan (skip : nat) (s : string) : A :=
  match skip with
  | S k =>
      match s with
      | String _ t => scan k t
      | "" => stop
      end
  | 0 =>
      let next_char :=
        match s with
        | String a t => keep a (scan 0 t)
        | "" => stop
        end in
      let after n :=
        match s with
        | String _ t => scan (n - 1) t
        | "" => stop
        end in
      match match_here false r s with
      | None => next_char
      | Some (S n, c) => emit (take (S n) s) c (after (S n))
      | Some (0, c) =>
          emit "" c
            match match_here true r s with
            | Some (n, c') => emit (take n s) c' (after n)
            | None => next_char
            end
      end
  end.
End Scan.

(** [r.sub(tpl, s)] *)
Definition sub (r : regex) (tpl : list piece) (s : string) : string :=
  scan r (fun g0 c out => expand tpl ((0, g0) :: c) +:+ out) String "" 0 s.

(** [r.findall(s)] for a pattern without groups *)
Definition findall (r : regex) (s : string) : list string :=
  scan r (fun g0 _ out => g0 :: out) (fun _ out => out) [] 0 s.

(** Character classes *)
Definition none_of (cs : string) (a : ascii) : bool := negb (has_char a cs).
(** [.] without DOTALL *)
Definition dot (a : ascii) : bool := negb (Ascii.eqb a LF).
(** [\s] *)
Definition space (a : ascii) : bool := is_space a.

End Re.

(** ** The program *)

Import Py Re.

Definition DQUOTE : ascii := "034".

Definition COMMENT_MARKER : string := "#!#comment:".

(** [\[\[([^|\[\.]*?)\]\]] *)
Definition LINK_RE : regex :=
  Cat (Lit "[[") (Cat (Grp 1 (Star false (Cls (none_of "|[.")))) (Lit "]]")).

(** [\[\[([^\.]*?)\|(.*?)\]\]] *)
Definition LINK_DESCRIPTION_RE : regex :=
  Cat (Lit "[[")
    (Cat (Grp 1 (Star false (Cls (none_of "."))))
       (Cat (Lit "|") (Cat (Grp 2 (Star false (Cls dot))) (Lit "]]")))).

(** The part the image and the PDF pattern share:
    [!?\[\[(?:[^|\[\]\.]*/)?([^/\]]+\.(EXT))\]\]] *)
Definition embed_re (ext : regex) : regex :=
  Cat (Opt (Lit "!"))
    (Cat (Lit "[[")
       (Cat (Opt (Cat (Star true (Cls (none_of "|[]."))) (Lit "/")))
          (Cat (Grp 1 (Cat (Plus (Cls (none_of "/]"))) (Cat (Lit ".") (Grp 2 ext))))
             (Lit "]]")))).

(** [png|jpe?g|svg|gif] *)
Definition image_ext : regex :=
  Alt (Lit "png")
    (Alt (Cat (Lit "jp") (Cat (Opt (Lit "e")) (Lit "g")))
       (Alt (Lit "svg") (Lit "gif"))).

Definition IMAGE_RE : regex := embed_re image_ext.

(** [pdf|PDF] *)
Definition PDF_RE : regex := embed_re (Alt (Lit "pdf") (Lit "PDF")).

(** [[file:X][Y]] with X and Y lazy runs of [.], groups 1 and 2. *)
Definition FILE_LINK_RE : regex :=
  Cat (Lit "[[file:")
    (Cat (Grp 1 (Star false (Cls dot)))
       (Cat (Lit "][") (Cat (Grp 2 (Star false (Cls dot))) (Lit "]]")))).

(** The pattern of [fix_markdown_code_blocks]: three backquotes and [run-],
    then group 1, the rest of the line. *)
Definition RUN_BLOCK_RE : regex := Cat (Lit "```run-") (Grp 1 (Star true (Cls dot))).

(** The pattern of [maybeSplitList]: one or more items, each a character that
    is no space, comma or double quote, or a double-quoted run of escaped
    characters and characters other than the double quote. *)
Definition LIST_ITEM_RE : regex :=
  Plus
    (Alt (Cls (fun a => negb (space a) && none_of ("," +:+ chr DQUOTE) a))
       (Cat (Lit (chr DQUOTE))
          (Cat (Star true (Alt (Cat (Lit "\") (Cls dot)) (Cls (none_of (chr DQUOTE)))))
             (Lit (chr DQUOTE))))).

Definition fix_markdown_code_blocks (markdown_contents : string) : string :=
  let markdown_contents := sub RUN_BLOCK_RE [TLit "```"; TRef 1] markdown_contents in
  let markdown_contents := replace "```sh" "```shell" markdown_contents in
  markdown_contents.

(** The body of a comment chunk: what the [else] branch of the loop of
    [fix_markdown_comments] appends to the output. *)
Definition comment_body (chunk : string) : list string :=
  if contains nl chunk then
    let lines := splitlines_keepends chunk in
    let lines :=
      match lines with
      | l0 :: rest => if String.eqb (strip l0) "" then rest else lines
      | [] => lines
      end in
    map (fun line => COMMENT_MARKER +:+ line) lines
  else ["<!--"; chunk; "-->"].

(** The loop of [fix_markdown_comments] over the chunks. *)
Fixpoint comment_loop (inside_comment : bool) (chunks : list string) : list string :=
  match chunks with
  | [] => []
  | chunk :: rest =>
      if negb inside_comment
      then chunk :: comment_loop true rest
      else comment_body chunk ++ comment_loop false rest
  end.

Definition fix_markdown_comments (markdown_contents : string) : string :=
  let chunks := split "%%" markdown_contents in
  concat (comment_loop false chunks).

Definition restore_comments (org_contents : string) : string :=
  concat (map (replace COMMENT_MARKER "# ") (splitlines_keepends org_contents)).

Definition prepare_markdown_text (markdown_contents : string) : string :=
  let markdown_contents := fix_markdown_comments markdown_contents in
  let markdown_contents := fix_markdown_code_blocks markdown_contents in
  markdown_contents.

Definition fix_links (org_contents : string) : string :=
  let org_contents :=
    sub LINK_RE [TLit "[[file:"; TRef 1; TLit ".org]["; TRef 1; TLit "]]"] org_contents in
  let org_contents :=
    sub LINK_DESCRIPTION_RE
      [TLit "[[file:"; TRef 1; TLit ".org]["; TRef 2; TLit "]]"] org_contents in
  let org_contents := sub IMAGE_RE [TLit "[[org-roam-images:"; TRef 1; TLit "]]"] org_contents in
  let org_contents :=
    sub PDF_RE [TLit "[[org-roam-attachments:"; TRef 1; TLit "]]"] org_contents in
  let org_contents := replace "%20" " " org_contents in
  org_contents.

(** *** [pathlib]: the stem of a POSIX path *)

(** [s.rfind(".")] *)
Fixpoint rfind_dot (s : string) : option nat :=
  match s with
  | "" => None
  | String a t =>
      match rfind_dot t with
      | Some i => Some (S i)
      | None => if Ascii.eqb a "." then Some 0 else None
      end
  end.

(** [PurePosixPath(p).name]: the last component, empty components and [.]
    left out. *)
Definition path_name (p : string) : string :=
  List.last
    (List.filter (fun x => negb (String.eqb x "") && negb (String.eqb x ".")) (split "/" p))
    "".

(** [PurePosixPath(p).stem] *)
Definition stem (p : string) : string :=
  let name := path_name p in
  match rfind_dot name with
  | Some i => if (0 <? i) && (i <? String.length name - 1) then take i name else name
  | None => name
  end.

(** *** Link resolution *)

(** A match object of [FILE_LINK_RE]: groups 0, 1 and 2. *)
Record file_link_match : Type := {
  group0 : string;
  group1 : string;
  group2 : string
}.

(** The inner function of [convert_file_links_to_id_links]; an empty
    identifier is false, as a missing one. *)
Definition replace_with_id (nodes : gmap string string) (mt : file_link_match) : string :=
  let file_name := replace "%20" " " (group1 mt) in
  match nodes !! stem file_name with
  | None => group0 mt
  | Some node_id =>
      if String.eqb node_id "" then group0 mt
      else "[[id:" +:+ node_id +:+ "][" +:+ group2 mt +:+ "]]"
  end.

(** The function defines [replace_with_id] and ends: there is no [return],
    so the call yields Python's [None] for every argument. *)
Definition convert_file_links_to_id_links
    (org_contents : string) (nodes : gmap string string) : option string :=
  let replace_with_id := replace_with_id nodes in
  None.

(** *** Frontmatter *)

(** A frontmatter value: a string or a list of strings. *)
Inductive value : Type :=
| VStr (s : string)
| VList (l : list string).

Definition isinstance_list (v : value) : bool :=
  match v with
  | VList _ => true
  | VStr _ => false
  end.

Definition maybeSplitList (s : string) : value :=
  if (0 <? String.length s) && (startswith "[" s || contains "," s) then
    let s := if startswith "[" s then slice_1_m1 s else s in
    VList (findall LIST_ITEM_RE s)
  else VStr s.

(** The loop of [get_keys] over [lines[1:]]. *)
Fixpoint get_keys_loop (lines : list string) (frontmatter : gmap string value)
    : gmap string value :=
  match lines with
  | [] => frontmatter
  | line :: rest =>
      if String.eqb line ("---" +:+ nl) then frontmatter
      else
        let key := List.hd "" (split ":" line) in
        let val := strip (join ":" (List.tl (split ":" line))) in
        if String.eqb val "" then get_keys_loop rest frontmatter
        else
          let v := if negb (String.eqb key "title") then maybeSplitList val else VStr val in
          let v :=
            if (String.eqb key "tags" || String.eqb key "aliases") && negb (isinstance_list v)
            then VList [val] else v in
          get_keys_loop rest (<[key := v]> frontmatter)
  end.

Definition get_keys (content : string) : gmap string value :=
  let lines := split nl content in
  match lines with
  | [] => ∅
  | first :: rest => if negb (String.eqb first "---") then ∅ else get_keys_loop rest ∅
  end.

(** *** Files and the external converter

    The file system is a map from paths to the text of the file there.  A
    command takes a file system and gives the file system it leaves behind
    with either a value or the exception it raised.  A file that is in the
    map can be read as text and written; a path that is not in the map has
    no file.  Reading is in text mode, writing leaves the text as it is,
    as on a POSIX system. *)

Inductive exn : Type :=
| FileNotFoundError (path : string)
| CalledProcessError (returncode : Z)
| AttributeError
| TypeError.

Inductive outcome (A : Type) : Type :=
| Return (a : A)
| Raise (e : exn).

Arguments Return {A} a.
Arguments Raise {A} e.

Definition io (A : Type) : Type :=
  gmap string string -> gmap string string * outcome A.

Definition ret {A : Type} (a : A) : io A := fun fs => (fs, Return a).

Definition raise {A : Type} (e : exn) : io A := fun fs => (fs, Raise e).

Definition bind {A B : Type} (c : io A) (k : A -> io B) : io B :=
  fun fs =>
    match c fs with
    | (fs', Return a) => k a fs'
    | (fs', Raise e) => (fs', Raise e)
    end.

Notation "'let!' x ':=' c 'in' k" := (bind c (fun x => k))
  (at level 10, x pattern, c at level 100, k at level 200).

(** [path.read_text()]: the file is opened in text mode, so the text comes
    with its line ends read as LF. *)
Definition read_text (path : string) : io string :=
  fun fs =>
    match fs !! path with
    | Some text => (fs, Return (universal_newlines text))
    | None => (fs, Raise (FileNotFoundError path))
    end.

(** [path.write_text(data)]; data that is [None] is refused before the file
    is opened. *)
Definition write_text (path : string) (data : option string) : io unit :=
  fun fs =>
    match data with
    | Some text => (<[path := text]> fs, Return tt)
    | None => (fs, Raise TypeError)
    end.

(** What one run of the external converter does: its exit status and the
    text it leaves in the output file, if it writes one. *)
Record completed_process : Type := {
  returncode : Z;
  output : option string
}.

Section Converter.

(** The external converter, from the Markdown text it is given; [None] when
    the program cannot be started. *)
Variable pandoc : string -> option completed_process.

(** [subprocess.run(["pandoc", ..., "--output", org_file, fp.name], check=True)];
    the temporary file handed to the converter lies outside the tree of notes.
    A program that cannot be started raises before anything is written. *)
Definition subprocess_run_pandoc (markdown_contents org_file : string) : io unit :=
  fun fs =>
    match pandoc markdown_contents with
    | None => (fs, Raise (FileNotFoundError "pandoc"))
    | Some p =>
        let fs' :=
          match output p with
          | Some text => <[org_file := text]> fs
          | None => fs
          end in
        if Z.eqb (returncode p) 0 then (fs', Return tt)
        else (fs', Raise (CalledProcessError (returncode p)))
    end.

Definition convert_markdown_file (md_file org_file : string) : io unit :=
  let! text := read_text md_file in
  let markdown_contents := prepare_markdown_text text in
  let! _ := subprocess_run_pandoc markdown_contents org_file in
  let! org_contents := read_text org_file in
  let org_contents := restore_comments org_contents in
  let org_contents := fix_links org_contents in
  write_text org_file (Some org_contents).

End Converter.

(** *** The header of a note *)

(** [frontmatter[key]] of the [defaultdict]: a missing key reads as [""]. *)
Definition getitem (frontmatter : gmap string value) (key : string) : value :=
  default (VStr "") (frontmatter !! key).

Fixpoint chars (s : string) : list string :=
  match s with
  | "" => []
  | String a t => chr a :: chars t
  end.

(** [sep.join(v)]: over the items of a list, over the characters of a string. *)
Definition join_value (sep : string) (v : value) : string :=
  match v with
  | VStr s => join sep (chars s)
  | VList l => join sep l
  end.

Definition hex_digit (n : nat) : ascii :=
  if n <? 10 then ascii_of_nat (48 + n) else ascii_of_nat (87 + n).

(** [repr] of one character inside quotes [q]. *)
Definition repr_char (q a : ascii) : string :=
  let n := nat_of_ascii a in
  if Ascii.eqb a q || Ascii.eqb a "\" then String "\" (chr a)
  else if n =? 9 then "\t"
  else if n =? 10 then "\n"
  else if n =? 13 then "\r"
  else if (n <? 32) || (n =? 127) || ((127 <? n) && (n <? 161)) || (n =? 173)
  then "\x" +:+ String (hex_digit (n / 16)) (chr (hex_digit (n mod 16)))
  else chr a.

Fixpoint repr_chars (q : ascii) (s : string) : string :=
  match s with
  | "" => ""
  | String a t => repr_char q a +:+ repr_chars q t
  end.

(** [repr(s)] *)
Definition repr_str (s : string) : string :=
  let q := if has_char "'" s && negb (has_char DQUOTE s) then DQUOTE else "'"%char in
  chr q +:+ repr_chars q s +:+ chr q.

(** [str(v)], as an f-string formats it. *)
Definition format_value (v : value) : string :=
  match v with
  | VStr s => s
  | VList l => "[" +:+ join ", " (map repr_str l) +:+ "]"
  end.

(** The title [add_node_id] settles on; [startswith] on a list raises. *)
Definition node_title (basename : string) (frontmatter : gmap string value) : outcome string :=
  match frontmatter !! "title" with
  | Some v =>
      if negb (startswith "@" basename) then
        match v with
        | VStr title =>
            Return (if startswith (chr DQUOTE) title then slice_1_m1 title else title)
        | VList _ => Raise AttributeError
        end
      else Return basename
  | None => Return basename
  end.

(** The texts [add_node_id] writes in front of the contents, in order. *)
Definition node_header (basename node_id title : string) (frontmatter : gmap string value)
    : list string :=
  let tags := join_value ":" (getitem frontmatter "tags") in
  let aliases := join_value " " (getitem frontmatter "aliases") in
  [":PROPERTIES:" +:+ nl; ":ID: " +:+ node_id +:+ nl]
  ++ (if negb (String.eqb aliases "") then [":ROAM_ALIASES: " +:+ aliases +:+ nl] else [])
  ++ (if startswith "@" basename then [":ROAM_REFS: [cite:" +:+ basename +:+ "]" +:+ nl] else [])
  ++ [":END:" +:+ nl; "#+title: " +:+ title +:+ nl]
  ++ match frontmatter !! "date-created" with
     | Some v => ["#+created: [" +:+ format_value v +:+ "]" +:+ nl]
     | None => []
     end
  ++ (if negb (String.eqb tags "") then ["#+filetags: :" +:+ tags +:+ ":" +:+ nl] else [])
  ++ [nl +:+ nl].

Definition add_node_id (org_file node_id : string) (frontmatter : gmap string value) : io unit :=
  let! contents := read_text org_file in
  let basename := stem org_file in
  match node_title basename frontmatter with
  | Raise e => raise e
  | Return title =>
      write_text org_file
        (Some (concat (node_header basename node_id title frontmatter ++ [contents])))
  end.

(** The body of the second loop of [convert_directory] for one org file. *)
Definition convert_directory_link_step (org_path : string) (nodes : gmap string string) : io unit :=
  let! contents := read_text org_path in
  write_text org_path (convert_file_links_to_id_links contents nodes).

(** *** Properties the statements below are written with *)

(** The value at [key], when there is one, is a list. *)
Definition list_at (frontmatter : gmap string value) (key : string) : Prop :=
  match frontmatter !! key with
  | Some (VStr _) => False
  | _ => True
  end.

(** The value at [key], when there is one, is a string. *)
Definition str_at (frontmatter : gmap string value) (key : string) : Prop :=
  match frontmatter !! key with
  | Some (VList _) => False
  | _ => True
  end.

(** The shape of the values the loop of [get_keys] keeps. *)
Definition well_shaped (fm : gmap string value) : Prop :=
  list_at fm "tags" /\ list_at fm "aliases" /\ str_at fm "title".

(** The table of the example of link resolution. *)
Definition note_a_table : gmap string string := {[ "Note A" := "ID1" ]}.

(** The file system once the converter has run for [org_file]. *)
Definition after_pandoc (p : completed_process) (org_file : string)
    (fs : gmap string string) : gmap string string :=
  match output p with
  | Some text => <[org_file := text]> fs
  | None => fs
  end.

(** A converter that always succeeds, one that always fails and one that
    is not installed. *)
Definition pandoc_ok (markdown : string) : option completed_process :=
  Some {| returncode := 0; output := Some markdown |}.

Definition pandoc_failing (markdown : string) : option completed_process :=
  Some {| returncode := 64; output := None |}.

Definition pandoc_missing (markdown : string) : option completed_process := None.

(** A text with the three kinds of line end: CR LF, CR and LF. *)
Definition crlf_text : string :=
  "a" +:+ chr CR +:+ nl +:+ "b" +:+ chr CR +:+ "c" +:+ nl.

(** A paragraph of one line with two code spans and no fenced code block. *)
Definition inline_code_paragraph : string :=
  "Type ```shutdown``` to stop, or ```run-it``` to go on.".

(** A note whose title opens a quote and does not close it. *)
Definition open_quote_note : string :=
  "---" +:+ nl +:+ "title: " +:+ chr DQUOTE +:+ "Foo" +:+ nl +:+ "---" +:+ nl +:+ "text" +:+ nl.

Definition raises {A : Type} (r : gmap string string * outcome A) : Prop :=
  match snd r with
  | Raise _ => True
  | Return _ => False
  end.

(** [all_chars p s]: every character of [s] is in the class [p]. *)
Fixpoint all_chars (p : ascii -> bool) (s : string) : bool :=
  match s with
  | "" => true
  | String a t => p a && all_chars p t
  end.

(** A character that ends no line. *)
Definition in_line (a : ascii) : bool := negb (is_linebreak a).

(** A text that lies within one line. *)
Definition one_line (l : string) : Prop := all_chars in_line l = true.

(** Lines, each with its line feed behind it. *)
Definition unlines (lines : list string) : string :=
  concat (map (fun l => l +:+ nl) lines).

(** The lines of a comment as [fix_markdown_comments] is to hand them to
    the converter: each line behind the marker, and behind them the rest
    that has no line feed, if there is one, behind the marker too. *)
Definition sentinel_lines (lines : list string) (rest : string) : string :=
  concat (map (fun l => COMMENT_MARKER +:+ l +:+ nl) lines)
  +:+ (if String.eqb rest "" then "" else COMMENT_MARKER +:+ rest).

(** The same lines as comments of the org file. *)
Definition comment_lines (lines : list string) (rest : string) : string :=
  concat (map (fun l => "# " +:+ l +:+ nl) lines)
  +:+ (if String.eqb rest "" then "" else "# " +:+ rest).

(** What it is for a pattern to match a text, with the groups before and
    after: the relation the matcher [run] computes.  An iteration of a
    repetition matches a text that is not empty. *)
Inductive sem : regex -> string -> caps -> caps -> Prop :=
| sem_eps (c : caps) : sem Eps "" c c
| sem_lit (l : string) (c : caps) : sem (Lit l) l c c
| sem_cls (p : ascii -> bool) (a : ascii) (c : caps) :
    p a = true -> sem (Cls p) (chr a) c c
| sem_cat (r1 r2 : regex) (a1 a2 : string) (c c1 c2 : caps) :
    sem r1 a1 c c1 -> sem r2 a2 c1 c2 -> sem (Cat r1 r2) (a1 +:+ a2) c c2
| sem_alt_l (r1 r2 : regex) (a : string) (c c' : caps) :
    sem r1 a c c' -> sem (Alt r1 r2) a c c'
| sem_alt_r (r1 r2 : regex) (a : string) (c c' : caps) :
    sem r2 a c c' -> sem (Alt r1 r2) a c c'
| sem_opt_some (r : regex) (a : string) (c c' : caps) :
    sem r a c c' -> sem (Opt r) a c c'
| sem_opt_none (r : regex) (c : caps) : sem (Opt r) "" c c
| sem_star_nil (g : bool) (r : regex) (c : caps) : sem (Star g r) "" c c
| sem_star_cons (g : bool) (r : regex) (a1 a2 : string) (c c1 c2 : caps) :
    a1 <> "" -> sem r a1 c c1 -> sem (Star g r) a2 c1 c2 ->
    sem (Star g r) (a1 +:+ a2) c c2
| sem_grp (n : nat) (r : regex) (a : string) (c c' : caps) :
    sem r a c c' -> sem (Grp n r) a c ((n, a) :: c').

(** The extensions [IMAGE_RE] accepts. *)
Definition image_extensions : list string := ["png"; "jpg"; "jpeg"; "svg"; "gif"].

(** *** Tags in the text *)

(** An ASCII letter, the class A-Za-z. *)
Definition is_letter (a : ascii) : bool :=
  let n := nat_of_ascii a in
  ((65 <=? n) && (n <=? 90)) || ((97 <=? n) && (n <=? 122)).

(** A letter, a digit, a slash, an underscore or a hyphen. *)
Definition is_tag_char (a : ascii) : bool :=
  let n := nat_of_ascii a in
  is_letter a || ((48 <=? n) && (n <=? 57)) || has_char a "/_-".

(** The pattern of [find_tags_in_markdown]: a hash, then group 1, a letter
    and after it any run of letters, digits, slash, underscore and hyphen. *)
Definition TAGS_RE : regex :=
  Cat (Lit "#") (Grp 1 (Cat (Cls is_letter) (Star true (Cls is_tag_char)))).

(** [r.findall(s)] for a pattern with one group: the texts of the group. *)
Definition findall_group (r : regex) (s : string) : list string :=
  scan r (fun _ c out => group 1 c :: out) (fun _ out => out) [] 0 s.

Definition find_tags_in_markdown (contents : string) : list string :=
  findall_group TAGS_RE contents.

(** *** More properties the statements below are written with *)

(** The value the loop of [get_keys] keeps for a key and the stripped text
    behind its colon. *)
Definition frontmatter_value (key val : string) : value :=
  let v := if negb (String.eqb key "title") then maybeSplitList val else VStr val in
  if (String.eqb key "tags" || String.eqb key "aliases") && negb (isinstance_list v)
  then VList [val] else v.

(** The text of a note whose first line is the delimiter, from its further
    lines. *)
Definition note_of_lines (lines : list string) : string := join nl ("---" :: lines).

(** A character of a list item outside quotes, and a character between
    items. *)
Definition item_char (a : ascii) : bool :=
  negb (space a) && none_of ("," +:+ chr DQUOTE) a.

Definition sep_char (a : ascii) : bool := space a || Ascii.eqb a ",".

(** The body of a repetition that takes a character of a class or a text
    opening with a quote, as in the pattern of [maybeSplitList]. *)
Definition class_or_quoted (p : ascii -> bool) (q : ascii) (inner : regex) : regex :=
  Alt (Cls p) (Cat (Lit (chr q)) inner).

(** What follows a run of class characters: the end of the text, or a
    character that is neither in the class nor the quote. *)
Definition run_ends (p : ascii -> bool) (q : ascii) (t : string) : Prop :=
  match t with
  | "" => True
  | String x _ => p x = false /\ Ascii.eqb q x = false
  end.

(** What stands between the quotes of a quoted item: escaped characters and
    characters other than the quote. *)
Definition quoted_inner : regex :=
  Star true (Alt (Cat (Lit "\") (Cls dot)) (Cls (none_of (chr DQUOTE)))).

(** An item of a list value as the statements below take it: a run of
    characters other than white space, comma and double quote, or a text
    in double quotes that holds neither a double quote nor a backslash. *)
Definition list_item (w : string) : Prop :=
  (w <> "" /\ all_chars item_char w = true)
  \/ exists b, w = chr DQUOTE +:+ b +:+ chr DQUOTE
               /\ has_char DQUOTE b = false /\ has_char "\" b = false.

(** An org link with a description. *)
Definition org_link (target description : string) : string :=
  "[[" +:+ target +:+ "][" +:+ description +:+ "]]".

(** The keys [add_node_id] reads. *)
Definition header_keys : list string := ["title"; "tags"; "aliases"; "date-created"].

(** The extensions [PDF_RE] accepts. *)
Definition pdf_extensions : list string := ["pdf"; "PDF"].

(** * Basic facts about strings *)

#[local] Arguments startswith : simpl never.

Section StringFacts.

Lemma append_nil_r (s : string) : s +:+ "" = s.
Proof. induction s as [|a s IH]; simpl; [reflexivity | now rewrite IH]. Qed.

Lemma append_assoc (s1 s2 s3 : string) : (s1 +:+ s2) +:+ s3 = s1 +:+ (s2 +:+ s3).
Proof. induction s1 as [|a s1 IH]; simpl; [reflexivity | now rewrite IH]. Qed.

Lemma length_append (s1 s2 : string) :
  String.length (s1 +:+ s2) = String.length s1 + String.length s2.
Proof. induction s1 as [|a s1 IH]; simpl; [reflexivity | now rewrite IH]. Qed.

Lemma startswith_nil (s : string) : startswith "" s = true.
Proof. destruct s; reflexivity. Qed.

Lemma startswith_cons (a b : ascii) (p s : string) :
  startswith (String a p) (String b s) = Ascii.eqb a b && startswith p s.
Proof.
  unfold startswith; simpl.
  destruct (ascii_dec a b) as [->|Hne]; simpl.
  - now rewrite Ascii.eqb_refl.
  - apply Ascii.eqb_neq in Hne. now rewrite Hne.
Qed.

Lemma startswith_app (p s : string) : startswith p (p +:+ s) = true.
Proof.
  induction p as [|a p IH]; simpl.
  - apply startswith_nil.
  - rewrite startswith_cons, Ascii.eqb_refl. exact IH.
Qed.

Lemma startswith_inv (p s : string) :
  startswith p s = true -> s = p +:+ drop (String.length p) s.
Proof.
  revert s; induction p as [|a p IH]; intros s H.
  - reflexivity.
  - destruct s as [|b s]; [discriminate|].
    rewrite startswith_cons in H. apply andb_prop in H as [Hab Hp].
    apply Ascii.eqb_eq in Hab. subst b. simpl. f_equal. now apply IH.
Qed.

Lemma drop_app_length (p s : string) : drop (String.length p) (p +:+ s) = s.
Proof. induction p as [|a p IH]; simpl; [now destruct s | exact IH]. Qed.

Lemma take_app_length (p s : string) : take (String.length p) (p +:+ s) = p.
Proof. induction p as [|a p IH]; simpl; [now destruct s | now rewrite IH]. Qed.

Lemma drop_0 (s : string) : drop 0 s = s.
Proof. now destruct s. Qed.

Lemma has_char_app (c : ascii) (s1 s2 : string) :
  has_char c (s1 +:+ s2) = has_char c s1 || has_char c s2.
Proof.
  induction s1 as [|a s1 IH]; simpl; [reflexivity|].
  now rewrite IH, orb_assoc.
Qed.

Lemma contains_cons_false (sub : string) (a : ascii) (s : string) :
  contains sub (String a s) = false ->
  startswith sub (String a s) = false /\ contains sub s = false.
Proof. simpl. intros H. now apply orb_false_elim in H. Qed.

Lemma contains_startswith (sub s : string) :
  contains sub s = false -> startswith sub s = false.
Proof. destruct s; simpl; intros H; now apply orb_false_elim in H. Qed.

Lemma drop_last_snoc (s : string) (a : ascii) : drop_last (s +:+ chr a) = s.
Proof.
  induction s as [|b s IH]; [reflexivity|].
  change (String b s +:+ chr a) with (String b (s +:+ chr a)).
  destruct (s +:+ chr a) as [|x y] eqn:E.
  - destruct s; discriminate.
  - change (drop_last (String b (String x y))) with (String b (drop_last (String x y))).
    now rewrite IH.
Qed.

End StringFacts.

(** * Link resolution *)

Section LinkResolution.

(** The inner function does what link resolution is meant to do on one
    link: a target in the table gives an identifier link. *)
Lemma replace_with_id_known :
  replace_with_id note_a_table
    {| group0 := "[[file:Note A.org][Note A]]"; group1 := "Note A.org"; group2 := "Note A" |}
  = "[[id:ID1][Note A]]".
Proof. vm_compute. reflexivity. Qed.

(** A target that is not in the table gives the link back. *)
Lemma replace_with_id_unknown :
  replace_with_id note_a_table
    {| group0 := "[[file:Note B.org][Note B]]"; group1 := "Note B.org"; group2 := "Note B" |}
  = "[[file:Note B.org][Note B]]".
Proof. vm_compute. reflexivity. Qed.

(** C1: [convert_file_links_to_id_links] never applies its inner function:
    for the table with Note A and a link to Note A it gives no text at all
    where the identifier link is expected, and so it does for every text
    and every table. *)
Theorem convert_file_links_to_id_links_gives_none :
  convert_file_links_to_id_links "[[file:Note A.org][Note A]]" note_a_table = None
  /\ forall (org_contents : string) (nodes : gmap string string),
       convert_file_links_to_id_links org_contents nodes = None.
Proof. split; [reflexivity | intros; reflexivity]. Qed.

(** The second pass of [convert_directory] therefore stops at the first
    org file it reads, which it leaves as it was. *)
Lemma convert_directory_link_step_raises
    (org_path contents : string) (nodes fs : gmap string string) :
  fs !! org_path = Some contents ->
  convert_directory_link_step org_path nodes fs = (fs, Raise TypeError).
Proof.
  intros H. unfold convert_directory_link_step, bind, read_text. now rewrite H.
Qed.

End LinkResolution.

(** * Frontmatter *)

Section Frontmatter.

Lemma get_keys_loop_nil (fm : gmap string value) : get_keys_loop [] fm = fm.
Proof. reflexivity. Qed.

Lemma get_keys_loop_cons (line : string) (rest : list string) (fm : gmap string value) :
  get_keys_loop (line :: rest) fm =
  if String.eqb line ("---" +:+ nl) then fm
  else
    let key := List.hd "" (split ":" line) in
    let val := strip (join ":" (List.tl (split ":" line))) in
    if String.eqb val "" then get_keys_loop rest fm
    else
      let v := if negb (String.eqb key "title") then maybeSplitList val else VStr val in
      let v :=
        if (String.eqb key "tags" || String.eqb key "aliases") && negb (isinstance_list v)
        then VList [val] else v in
      get_keys_loop rest (<[key := v]> fm).
Proof. reflexivity. Qed.

Lemma well_shaped_empty : well_shaped ∅.
Proof. unfold well_shaped, list_at, str_at. now rewrite !lookup_empty. Qed.

Lemma list_at_insert (fm : gmap string value) (key k : string) (v : value) :
  list_at fm k -> (key = k -> isinstance_list v = true) -> list_at (<[key := v]> fm) k.
Proof.
  unfold list_at. intros Hfm Hv.
  destruct (decide (key = k)) as [->|Hne].
  - rewrite lookup_insert_eq. destruct v; [now specialize (Hv eq_refl) | exact I].
  - now rewrite lookup_insert_ne.
Qed.

Lemma str_at_insert (fm : gmap string value) (key k : string) (v : value) :
  str_at fm k -> (key = k -> isinstance_list v = false) -> str_at (<[key := v]> fm) k.
Proof.
  unfold str_at. intros Hfm Hv.
  destruct (decide (key = k)) as [->|Hne].
  - rewrite lookup_insert_eq. destruct v; [exact I | now specialize (Hv eq_refl)].
  - now rewrite lookup_insert_ne.
Qed.

Lemma get_keys_loop_well_shaped (lines : list string) (fm : gmap string value) :
  well_shaped fm -> well_shaped (get_keys_loop lines fm).
Proof.
  revert fm. induction lines as [|line rest IH]; intros fm Hfm; [exact Hfm|].
  rewrite get_keys_loop_cons.
  destruct (String.eqb line ("---" +:+ nl)); [exact Hfm|].
  cbv zeta.
  set (key := List.hd "" (split ":" line)).
  set (val := strip (join ":" (List.tl (split ":" line)))).
  destruct (String.eqb val ""); [now apply IH|].
  apply IH. destruct Hfm as (Ht & Ha & Hs).
  repeat split.
  - apply list_at_insert; [exact Ht|]. intros ->. simpl.
    now destruct (maybeSplitList val).
  - apply list_at_insert; [exact Ha|]. intros ->. simpl.
    now destruct (maybeSplitList val).
  - apply str_at_insert; [exact Hs|]. intros ->. reflexivity.
Qed.

(** A text that does not open with the delimiter has no frontmatter. *)
Lemma get_keys_without_delimiter (first : string) (rest : list string) (content : string) :
  split nl content = first :: rest -> first <> "---" -> get_keys content = ∅.
Proof.
  intros Hs Hne. unfold get_keys. rewrite Hs.
  apply String.eqb_neq in Hne. now rewrite Hne.
Qed.

(** No chunk of a text cut at a character holds that character. *)
Lemma split_go_no_sep_char (a : ascii) (s : string) (skip : nat) :
  Forall (fun chunk => has_char a chunk = false) (split_go (chr a) skip s).
Proof.
  unfold chr. revert skip. induction s as [|b s IH]; intros skip.
  - simpl. repeat constructor.
  - simpl. destruct skip as [|k]; [|apply IH].
    rewrite startswith_cons, startswith_nil, andb_true_r.
    destruct (Ascii.eqb a b) eqn:E.
    + constructor; [reflexivity | apply IH].
    + specialize (IH 0). destruct (split_go (String a "") 0 s) as [|x xs]; simpl.
      * repeat constructor. simpl. rewrite Ascii.eqb_sym in E. now rewrite E.
      * inversion IH; subst. constructor; [|assumption].
        simpl. rewrite Ascii.eqb_sym in E. now rewrite E.
Qed.

(** The test that is to end the scan compares a line, which holds no line
    feed, with a text that ends in one: it fails on every line. *)
Lemma get_keys_lines_never_end_scan (content : string) :
  Forall (fun line => String.eqb line ("---" +:+ nl) = false) (split nl content).
Proof.
  eapply Forall_impl; [apply (split_go_no_sep_char LF content 0)|].
  intros line H. apply String.eqb_neq. intros ->. discriminate H.
Qed.

(** C2: a line behind the closing delimiter still gives a key.  In the note
    below, [tags: t1] is the whole frontmatter and [Note: see below] is the
    first line of the body, and the body line is in the mapping. *)
Theorem get_keys_reads_behind_closing_delimiter :
  get_keys ("---" +:+ nl +:+ "tags: t1" +:+ nl +:+ "---" +:+ nl +:+ "Note: see below" +:+ nl)
  = {[ "tags" := VList ["t1"]; "Note" := VStr "see below" ]}.
Proof. vm_compute. reflexivity. Qed.

(** C9: a value that starts with a bracket loses its first and its last
    character before it is cut into items, whatever the last character is;
    without the closing bracket the last item loses its last character. *)
Theorem maybeSplitList_drops_both_ends :
  (forall (body : string) (last : ascii),
      maybeSplitList ("[" +:+ body +:+ chr last) = VList (findall LIST_ITEM_RE body))
  /\ maybeSplitList "[" = VList []
  /\ maybeSplitList "[a, bc]" = VList ["a"; "bc"]
  /\ maybeSplitList "[a, bc" = VList ["a"; "b"]
  /\ maybeSplitList "[a, b" = VList ["a"].
Proof.
  split; [|repeat split; vm_compute; reflexivity].
  intros body last. unfold maybeSplitList.
  change ("[" +:+ body +:+ chr last) with (String "[" (body +:+ chr last)).
  rewrite startswith_cons, startswith_nil.
  cbn [String.length Nat.ltb Nat.leb andb orb Ascii.eqb Bool.eqb].
  unfold slice_1_m1. cbn [drop]. now rewrite drop_last_snoc.
Qed.

End Frontmatter.

(** * The header of a note *)

Section Header.

Variable frontmatter : gmap string value.
Variables basename node_id : string.

Lemma node_title_default :
  frontmatter !! "title" = None -> node_title basename frontmatter = Return basename.
Proof. unfold node_title. now intros ->. Qed.

(** A reference note keeps its base name as title. *)
Lemma node_title_reference :
  startswith "@" basename = true -> node_title basename frontmatter = Return basename.
Proof. unfold node_title. intros ->. now destruct (frontmatter !! "title"). Qed.

Lemma node_title_plain (title : string) :
  startswith "@" basename = false ->
  frontmatter !! "title" = Some (VStr title) ->
  startswith (chr DQUOTE) title = false ->
  node_title basename frontmatter = Return title.
Proof. unfold node_title. now intros -> -> ->. Qed.

(** A title inside one pair of double quotes loses the pair. *)
Lemma node_title_quoted (body : string) :
  startswith "@" basename = false ->
  frontmatter !! "title" = Some (VStr (chr DQUOTE +:+ body +:+ chr DQUOTE)) ->
  node_title basename frontmatter = Return body.
Proof.
  unfold node_title. intros -> ->. cbn [negb].
  change (chr DQUOTE +:+ body +:+ chr DQUOTE) with (String DQUOTE (body +:+ chr DQUOTE)).
  unfold chr at 1. rewrite startswith_cons, startswith_nil.
  cbn [Ascii.eqb Bool.eqb DQUOTE andb]. unfold slice_1_m1. cbn [drop].
  now rewrite drop_last_snoc.
Qed.

(** The title line is always written, the reference line for every
    reference note. *)
Lemma node_header_title (title : string) :
  In ("#+title: " +:+ title +:+ nl) (node_header basename node_id title frontmatter).
Proof. unfold node_header. rewrite !in_app_iff. right. right. right. left. now right; left. Qed.

Lemma node_header_reference (title : string) :
  startswith "@" basename = true ->
  In (":ROAM_REFS: [cite:" +:+ basename +:+ "]" +:+ nl)
     (node_header basename node_id title frontmatter).
Proof.
  intros H. unfold node_header. rewrite H, !in_app_iff.
  right. right. left. now left.
Qed.

End Header.

Lemma add_node_id_writes (org_file node_id contents title : string)
    (frontmatter : gmap string value) (fs : gmap string string) :
  fs !! org_file = Some contents ->
  node_title (stem org_file) frontmatter = Return title ->
  add_node_id org_file node_id frontmatter fs
  = (<[org_file := concat (node_header (stem org_file) node_id title frontmatter
                           ++ [universal_newlines contents])]> fs,
     Return tt).
Proof.
  intros Hfs Ht. unfold add_node_id, bind, read_text. rewrite Hfs. cbv zeta.
  now rewrite Ht.
Qed.

(** C4: for a note that is no reference note and whose title opens a double
    quote without closing it, [add_node_id] writes a title that has lost its
    last letter along with the quote. *)
Theorem add_node_id_cuts_unquoted_end :
  get_keys open_quote_note = {[ "title" := VStr (chr DQUOTE +:+ "Foo") ]}
  /\ node_title "Note" (get_keys open_quote_note) = Return "Fo"
  /\ add_node_id "out/Note.org" "ID" (get_keys open_quote_note) {[ "out/Note.org" := "text" ]}
     = ({[ "out/Note.org" :=
             ":PROPERTIES:" +:+ nl +:+ ":ID: ID" +:+ nl +:+ ":END:" +:+ nl
             +:+ "#+title: Fo" +:+ nl +:+ nl +:+ nl +:+ "text" ]},
        Return tt).
Proof. repeat split; vm_compute; reflexivity. Qed.

(** * The conversion of one note *)

Section Conversion.

Variable pandoc : string -> option completed_process.

Lemma subprocess_run_pandoc_started (markdown_contents org_file : string)
    (p : completed_process) (fs : gmap string string) :
  pandoc markdown_contents = Some p ->
  subprocess_run_pandoc pandoc markdown_contents org_file fs
  = (after_pandoc p org_file fs,
     if Z.eqb (returncode p) 0 then Return tt
     else Raise (CalledProcessError (returncode p))).
Proof.
  intros H. unfold subprocess_run_pandoc, after_pandoc. rewrite H.
  now destruct (Z.eqb (returncode p) 0).
Qed.

Lemma convert_markdown_file_unreadable (md_file org_file : string) (fs : gmap string string) :
  fs !! md_file = None ->
  convert_markdown_file pandoc md_file org_file fs = (fs, Raise (FileNotFoundError md_file)).
Proof. intros H. unfold convert_markdown_file, bind, read_text. now rewrite H. Qed.

(** A converter that cannot be started stops the conversion before any file
    is written. *)
Lemma convert_markdown_file_not_started (md_file org_file text : string)
    (fs : gmap string string) :
  fs !! md_file = Some text ->
  pandoc (prepare_markdown_text (universal_newlines text)) = None ->
  convert_markdown_file pandoc md_file org_file fs = (fs, Raise (FileNotFoundError "pandoc")).
Proof.
  intros H Hp. unfold convert_markdown_file, bind at 1, read_text at 1. rewrite H.
  cbv zeta. unfold bind at 1, subprocess_run_pandoc. now rewrite Hp.
Qed.

Lemma convert_markdown_file_readable (md_file org_file text : string)
    (p : completed_process) (fs : gmap string string) :
  fs !! md_file = Some text ->
  pandoc (prepare_markdown_text (universal_newlines text)) = Some p ->
  let fs' := after_pandoc p org_file fs in
  convert_markdown_file pandoc md_file org_file fs =
  if Z.eqb (returncode p) 0 then
    match fs' !! org_file with
    | Some org_contents =>
        (<[org_file := fix_links (restore_comments (universal_newlines org_contents))]> fs',
         Return tt)
    | None => (fs', Raise (FileNotFoundError org_file))
    end
  else (fs', Raise (CalledProcessError (returncode p))).
Proof.
  intros H Hp fs'. unfold convert_markdown_file, bind at 1, read_text at 1. rewrite H.
  cbv zeta. unfold bind at 1. rewrite (subprocess_run_pandoc_started _ _ p _ Hp). fold fs'.
  destruct (Z.eqb (returncode p) 0); [|reflexivity].
  unfold bind, read_text. now destruct (fs' !! org_file).
Qed.

(** C7, as the code has it: [convert_markdown_file] raises exactly when the
    Markdown file cannot be read, or the converter cannot be started, or it
    exits with a status other than zero, or the org file cannot be read
    once the converter has exited with status zero.  When the converter
    exits with a status other than zero the function raises with the file
    system as the converter left it: comments are not restored, links are
    not fixed and the org file is not written again.  When the converter
    cannot be started, the function raises with the file system as it was.
    The converter is given the prepared text of the note as text mode reads
    it, with CR LF and CR as LF. *)
Theorem convert_markdown_file_raises_iff (md_file org_file : string) (fs : gmap string string) :
  let r := convert_markdown_file pandoc md_file org_file fs in
  let input text := prepare_markdown_text (universal_newlines text) in
  (raises r <->
   fs !! md_file = None
   \/ exists text, fs !! md_file = Some text
        /\ (pandoc (input text) = None
            \/ exists p, pandoc (input text) = Some p
                 /\ (returncode p <> 0%Z \/ after_pandoc p org_file fs !! org_file = None)))
  /\ (forall text p, fs !! md_file = Some text ->
        pandoc (input text) = Some p -> returncode p <> 0%Z ->
        r = (after_pandoc p org_file fs, Raise (CalledProcessError (returncode p))))
  /\ (forall text, fs !! md_file = Some text ->
        pandoc (input text) = None ->
        r = (fs, Raise (FileNotFoundError "pandoc"))).
Proof.
  intros r input. subst r input. cbv beta.
  destruct (fs !! md_file) as [text|] eqn:Hmd.
  - destruct (pandoc (prepare_markdown_text (universal_newlines text))) as [p|] eqn:Hp.
    + rewrite (convert_markdown_file_readable _ _ _ p _ Hmd Hp). cbv zeta.
      set (fs' := after_pandoc p org_file fs).
      split; [|split].
      * destruct (Z.eqb_spec (returncode p) 0) as [Hz|Hnz].
        -- destruct (fs' !! org_file) as [o|] eqn:Ho; unfold raises; simpl.
           ++ split; [intros []|].
              intros [Hn|(t & Ht & [Hnone|(q & Hq & Hor)])]; [discriminate| |].
              ** injection Ht as <-. congruence.
              ** injection Ht as <-. rewrite Hp in Hq. injection Hq as <-.
                 fold fs' in Hor. destruct Hor as [Hrc|Hno]; congruence.
           ++ split; [|intros _; exact I]. intros _. right. exists text.
              split; [reflexivity|]. right. exists p. split; [exact Hp|]. right. exact Ho.
        -- unfold raises; simpl. split; [|intros _; exact I].
           intros _. right. exists text. split; [reflexivity|]. right. exists p.
           split; [exact Hp | now left].
      * intros t q Ht Hq Hrc. injection Ht as <-. rewrite Hp in Hq. injection Hq as <-.
        fold fs'.
        destruct (Z.eqb_spec (returncode p) 0) as [Hz|Hnz]; [contradiction|reflexivity].
      * intros t Ht Hq. injection Ht as <-. congruence.
    + rewrite (convert_markdown_file_not_started _ _ _ _ Hmd Hp).
      split; [|split].
      * unfold raises; simpl. split; [|intros _; exact I].
        intros _. right. exists text. split; [reflexivity|]. now left.
      * intros t q Ht Hq. injection Ht as <-. congruence.
      * reflexivity.
  - rewrite (convert_markdown_file_unreadable _ _ _ Hmd). split; [|split].
    + unfold raises; simpl. split; [intros _; now left | intros _; exact I].
    + intros t q Ht. discriminate.
    + intros t Ht. discriminate.
Qed.

End Conversion.

(** A failing converter stops the conversion of a note that can be read,
    and so does a converter that is not installed. *)
Lemma convert_markdown_file_raises_iff_witness :
  convert_markdown_file pandoc_failing "a.md" "a.org" {[ "a.md" := "text" ]}
  = ({[ "a.md" := "text" ]}, Raise (CalledProcessError 64))
  /\ convert_markdown_file pandoc_missing "a.md" "a.org" {[ "a.md" := "text" ]}
     = ({[ "a.md" := "text" ]}, Raise (FileNotFoundError "pandoc")).
Proof.
  assert (Hread : ({[ "a.md" := "text" ]} : gmap string string) !! "a.md" = Some "text")
    by reflexivity.
  split.
  - pose proof (proj1 (proj2 (convert_markdown_file_raises_iff pandoc_failing "a.md" "a.org"
                                {[ "a.md" := "text" ]}))
                  "text" {| returncode := 64; output := None |}) as H.
    assert (Hp : pandoc_failing (prepare_markdown_text (universal_newlines "text"))
                 = Some {| returncode := 64; output := None |}) by reflexivity.
    assert (Hrc : returncode {| returncode := 64; output := None |} <> 0%Z) by discriminate.
    exact (H Hread Hp Hrc).
  - pose proof (proj2 (proj2 (convert_markdown_file_raises_iff pandoc_missing "a.md" "a.org"
                                {[ "a.md" := "text" ]})) "text") as H.
    exact (H Hread eq_refl).
Defined.

(** C7 as stated fails: for a Markdown file that is not there the function
    raises although the converter, which always exits with status zero here,
    is not even run. *)
Lemma convert_markdown_file_raises_without_converter_failure :
  raises (convert_markdown_file pandoc_ok "missing.md" "out.org" ∅)
  /\ (forall text, exists p, pandoc_ok text = Some p /\ returncode p = 0%Z)
  /\ ~ (exists text p, (∅ : gmap string string) !! "missing.md" = Some text
          /\ pandoc_ok (prepare_markdown_text (universal_newlines text)) = Some p
          /\ returncode p <> 0%Z).
Proof.
  split; [exact I|]. split; [intros text; eexists; split; reflexivity|].
  intros (text & p & H & _). discriminate H.
Qed.

(** * Texts without special syntax *)

Section NoSpecialSyntax.

Lemma concat_app (l1 l2 : list string) : concat (l1 ++ l2) = concat l1 +:+ concat l2.
Proof.
  induction l1 as [|x l1 IH]; [reflexivity|].
  simpl. now rewrite IH, append_assoc.
Qed.

Lemma replace_absent (old new s : string) :
  contains old s = false -> replace old new s = s.
Proof.
  unfold replace. induction s as [|a s IH]; intros H; [reflexivity|].
  apply contains_cons_false in H as [Hp Hc].
  simpl. rewrite Hp. now rewrite IH.
Qed.

Lemma split_absent (sep s : string) :
  contains sep s = false -> split sep s = [s].
Proof.
  unfold split. induction s as [|a s IH]; intros H; [reflexivity|].
  apply contains_cons_false in H as [Hp Hc].
  simpl. rewrite Hp. now rewrite IH.
Qed.

Lemma match_here_none (r : regex) (s : string) :
  run r s [] = [] -> match_here false r s = None.
Proof. unfold match_here. now intros ->. Qed.

Lemma sub_nil_none (r : regex) (tpl : list piece) :
  match_here false r "" = None -> sub r tpl "" = "".
Proof. unfold sub. cbn [scan]. now intros ->. Qed.

Lemma sub_cons_none (r : regex) (tpl : list piece) (a : ascii) (t : string) :
  match_here false r (String a t) = None ->
  sub r tpl (String a t) = String a (sub r tpl t).
Proof. unfold sub. cbn [scan]. now intros ->. Qed.

(** A pattern that finds nothing in texts without [l] leaves them alone. *)
Lemma sub_absent (r : regex) (tpl : list piece) (l : string) :
  (forall u, contains l u = false -> run r u [] = []) ->
  forall s, contains l s = false -> sub r tpl s = s.
Proof.
  intros Hr s. induction s as [|a s IH]; intros H.
  - apply sub_nil_none, match_here_none, Hr, H.
  - rewrite sub_cons_none by apply match_here_none, Hr, H.
    apply contains_cons_false in H as [_ Hc]. now rewrite IH.
Qed.

Lemma run_cat (r1 r2 : regex) (s : string) (c : caps) :
  run (Cat r1 r2) s c = flat_map (fun x => run r2 (fst x) (snd x)) (run r1 s c).
Proof. reflexivity. Qed.

Lemma run_lit_cat_none (l : string) (r : regex) (s : string) (c : caps) :
  startswith l s = false -> run (Cat (Lit l) r) s c = [].
Proof. intros H. rewrite run_cat. cbn [run]. now rewrite H. Qed.

Lemma run_embed_none (ext : regex) (s : string) (c : caps) :
  contains "[[" s = false -> run (embed_re ext) s c = [].
Proof.
  intros H. unfold embed_re. rewrite run_cat.
  change (run (Opt (Lit "!")) s c)
    with ((if startswith "!" s then [(drop 1 s, c)] else []) ++ [(s, c)]).
  rewrite flat_map_app. cbn [flat_map fst snd]. rewrite List.app_nil_r.
  rewrite (run_lit_cat_none "[[" _ s) by now apply contains_startswith.
  rewrite List.app_nil_r.
  destruct (startswith "!" s) eqn:E; [|reflexivity].
  cbn [flat_map fst snd]. rewrite List.app_nil_r.
  apply run_lit_cat_none, contains_startswith.
  destruct s as [|a t]; [discriminate E|].
  now apply contains_cons_false in H as [_ H].
Qed.

Lemma fix_markdown_comments_absent (s : string) :
  contains "%%" s = false -> fix_markdown_comments s = s.
Proof.
  intros H. unfold fix_markdown_comments. rewrite (split_absent _ _ H).
  simpl. apply append_nil_r.
Qed.

Lemma fix_markdown_code_blocks_absent (s : string) :
  contains "```run-" s = false -> contains "```sh" s = false ->
  fix_markdown_code_blocks s = s.
Proof.
  intros Hrun Hsh. unfold fix_markdown_code_blocks, RUN_BLOCK_RE.
  rewrite (sub_absent _ _ "```run-") by
    (try exact Hrun; intros u Hu; apply run_lit_cat_none, contains_startswith, Hu).
  now apply replace_absent.
Qed.

Lemma fix_links_absent (s : string) :
  contains "[[" s = false -> contains "%20" s = false -> fix_links s = s.
Proof.
  intros Hl Hp. unfold fix_links.
  assert (Hlit : forall l r u, contains l u = false -> run (Cat (Lit l) r) u [] = [])
    by (intros l r u Hu; apply run_lit_cat_none, contains_startswith, Hu).
  rewrite (sub_absent LINK_RE _ "[[" (Hlit _ _) s Hl).
  rewrite (sub_absent LINK_DESCRIPTION_RE _ "[[" (Hlit _ _) s Hl).
  rewrite (sub_absent IMAGE_RE _ "[[" (fun u => run_embed_none _ u []) s Hl).
  rewrite (sub_absent PDF_RE _ "[[" (fun u => run_embed_none _ u []) s Hl).
  now apply replace_absent.
Qed.

(** A text with no comment marker, without three backquotes followed by
    [run-] or by [sh], with no double bracket and no [%20] comes back
    unchanged from the normalization before the conversion and from the one
    after it. *)
Theorem normalization_keeps_plain_text (s : string) :
  contains "%%" s = false ->
  contains "```run-" s = false ->
  contains "```sh" s = false ->
  contains "[[" s = false ->
  contains "%20" s = false ->
  prepare_markdown_text s = s /\ fix_links s = s.
Proof.
  intros Hc Hrun Hsh Hl Hp. split.
  - unfold prepare_markdown_text. rewrite fix_markdown_comments_absent by exact Hc.
    now apply fix_markdown_code_blocks_absent.
  - now apply fix_links_absent.
Qed.

End NoSpecialSyntax.

Lemma normalization_keeps_plain_text_witness :
  prepare_markdown_text "This is a paragraph." = "This is a paragraph."
  /\ fix_links "This is a paragraph." = "This is a paragraph.".
Proof.
  apply (normalization_keeps_plain_text "This is a paragraph."); reflexivity.
Defined.

(** C8: a paragraph of one line that holds no comment marker, no double
    bracket, no [%20] and no fenced code block, only code spans inside the
    line, does not come back unchanged from the normalization before the
    conversion: the span that starts with [sh] gets [shell] for the [sh],
    and the span that starts with [run-] loses the [run-]. *)
Theorem prepare_markdown_text_rewrites_code_spans :
  contains "%%" inline_code_paragraph = false
  /\ contains "[[" inline_code_paragraph = false
  /\ contains "%20" inline_code_paragraph = false
  /\ contains nl inline_code_paragraph = false
  /\ startswith "```" inline_code_paragraph = false
  /\ prepare_markdown_text inline_code_paragraph
     = "Type ```shellutdown``` to stop, or ```it``` to go on."
  /\ prepare_markdown_text inline_code_paragraph <> inline_code_paragraph
  /\ fix_links inline_code_paragraph = inline_code_paragraph.
Proof.
  assert (H : prepare_markdown_text inline_code_paragraph
              = "Type ```shellutdown``` to stop, or ```it``` to go on.")
    by (vm_compute; reflexivity).
  repeat split; try (vm_compute; reflexivity); try exact H.
  rewrite H. discriminate.
Qed.

(** * Comments *)

Section Comments.

Lemma startswith_length (p s : string) :
  startswith p s = true -> String.length p <= String.length s.
Proof.
  revert s. induction p as [|x p IH]; intros s H; [simpl; lia|].
  destruct s as [|a s]; [discriminate|].
  rewrite startswith_cons in H. apply andb_prop in H as [_ H].
  simpl. apply IH in H. lia.
Qed.

Lemma startswith_app_r (p s z : string) :
  startswith p s = true -> startswith p (s +:+ z) = true.
Proof.
  revert s. induction p as [|x p IH]; intros s H; [apply startswith_nil|].
  destruct s as [|a s]; [discriminate|].
  rewrite startswith_cons in H. apply andb_prop in H as [Hx H].
  change (String a s +:+ z) with (String a (s +:+ z)).
  rewrite startswith_cons, Hx. now apply IH.
Qed.

(** A character that is not in [p] ends every attempt to read [p]. *)
Lemma startswith_app_char (p s y : string) (a : ascii) :
  has_char a p = false -> startswith p (s +:+ String a y) = startswith p s.
Proof.
  revert s. induction p as [|x p IH]; intros s H.
  - now rewrite !startswith_nil.
  - simpl in H. apply orb_false_elim in H as [Hx Hp].
    destruct s as [|b s].
    + change ("" +:+ String a y) with (String a y). now rewrite startswith_cons, Hx.
    + change (String b s +:+ String a y) with (String b (s +:+ String a y)).
      rewrite !startswith_cons. now rewrite IH.
Qed.

Lemma contains_app_char (x0 : ascii) (p s y : string) (a : ascii) :
  has_char a (String x0 p) = false ->
  contains (String x0 p) (s +:+ String a y)
  = contains (String x0 p) s || contains (String x0 p) y.
Proof.
  intros H. induction s as [|b s IH].
  - change ("" +:+ String a y) with (String a y).
    cbn [contains]. rewrite startswith_cons.
    simpl in H. apply orb_false_elim in H as [-> _]. reflexivity.
  - change (String b s +:+ String a y) with (String b (s +:+ String a y)).
    cbn [contains]. rewrite IH.
    change (String b (s +:+ String a y)) with (String b s +:+ String a y).
    rewrite startswith_app_char by exact H. now rewrite orb_assoc.
Qed.

Lemma has_char_first_absent (x0 : ascii) (p s : string) :
  has_char x0 s = false -> contains (String x0 p) s = false.
Proof.
  induction s as [|b s IH]; intros H; [reflexivity|].
  simpl in H. apply orb_false_elim in H as [Hb Hs].
  cbn [contains]. rewrite startswith_cons, Ascii.eqb_sym, Hb. now apply IH.
Qed.

(** [replace] goes through a character that is not in [old]. *)
Lemma replace_go_app_char (x0 : ascii) (old' new y : string) (a : ascii) :
  has_char a (String x0 old') = false ->
  forall (s : string) (k : nat), k <= String.length s ->
  replace_go (String x0 old') new k (s +:+ String a y)
  = replace_go (String x0 old') new k s +:+ String a (replace_go (String x0 old') new 0 y).
Proof.
  intros H. set (old := String x0 old') in *.
  induction s as [|b s IH]; intros k Hk.
  - simpl in Hk. assert (k = 0) as -> by lia.
    change ("" +:+ String a y) with (String a y). cbn [replace_go].
    replace (startswith old (String a y)) with false; [reflexivity|].
    unfold old. rewrite startswith_cons.
    simpl in H. apply orb_false_elim in H as [-> _]. reflexivity.
  - change (String b s +:+ String a y) with (String b (s +:+ String a y)).
    cbn [replace_go]. destruct k as [|k].
    + change (String b (s +:+ String a y)) with (String b s +:+ String a y).
      rewrite startswith_app_char by exact H.
      destruct (startswith old (String b s)) eqn:E.
      * apply startswith_length in E. simpl in E.
        rewrite IH by (unfold old; simpl; lia). now rewrite append_assoc.
      * now rewrite IH by lia.
    + apply IH. simpl in Hk. lia.
Qed.

Lemma replace_app_char (x0 : ascii) (old' new s y : string) (a : ascii) :
  has_char a (String x0 old') = false ->
  replace (String x0 old') new (s +:+ String a y)
  = replace (String x0 old') new s +:+ String a (replace (String x0 old') new y).
Proof. intros H. unfold replace. apply replace_go_app_char; [exact H | lia]. Qed.

Lemma linebreak_not_in_marker (a : ascii) :
  is_linebreak a = true -> has_char a COMMENT_MARKER = false.
Proof. destruct a as [[] [] [] [] [] [] [] []]; intros H; try discriminate H; reflexivity. Qed.

(** Line by line or on the whole text, the marker is replaced alike. *)
Lemma restore_comments_lines (n : nat) :
  forall (t cur : string), String.length t <= n ->
  concat (map (replace COMMENT_MARKER "# ") (splitlines_go cur t))
  = replace COMMENT_MARKER "# " (cur +:+ t).
Proof.
  assert (Hcr : has_char CR COMMENT_MARKER = false) by reflexivity.
  assert (Hlf : has_char LF COMMENT_MARKER = false) by reflexivity.
  assert (Hend : forall cur : string,
             concat (map (replace COMMENT_MARKER "# ") match cur with "" => [] | _ => [cur] end)
             = replace COMMENT_MARKER "# " (cur +:+ "")).
  { intros cur. rewrite append_nil_r. destruct cur; [reflexivity|].
    cbn [map concat]. now rewrite append_nil_r. }
  unfold COMMENT_MARKER in *.
  induction n as [|n IH]; intros t cur Hn.
  - destruct t; [apply Hend | simpl in Hn; lia].
  - destruct t as [|a t]; [apply Hend|].
    simpl in Hn. cbn [splitlines_go]. unfold chr, nl.
    destruct (Ascii.eqb a CR) eqn:Ecr.
    + apply Ascii.eqb_eq in Ecr. subst a.
      rewrite (replace_app_char _ _ _ cur t CR) by exact Hcr.
      destruct t as [|b u].
      * cbn [map concat].
        rewrite (replace_app_char _ _ _ cur "" CR) by exact Hcr.
        now rewrite append_nil_r.
      * destruct (Ascii.eqb b LF) eqn:Elf.
        -- apply Ascii.eqb_eq in Elf. subst b. simpl in Hn.
           cbn [map concat]. rewrite (IH u "") by lia.
           change ("" +:+ u) with u.
           rewrite (replace_app_char _ _ _ cur (String LF "") CR) by exact Hcr.
           rewrite (replace_app_char _ _ _ "" u LF) by exact Hlf.
           rewrite (replace_app_char _ _ _ "" "" LF) by exact Hlf.
           now rewrite append_assoc.
        -- cbn [map concat]. rewrite (IH (String b u) "") by lia.
           change ("" +:+ String b u) with (String b u).
           rewrite (replace_app_char _ _ _ cur "" CR) by exact Hcr.
           now rewrite append_assoc.
    + destruct (is_linebreak a) eqn:Elb.
      * apply linebreak_not_in_marker in Elb. unfold COMMENT_MARKER in Elb.
        cbn [map concat]. rewrite (IH t "") by lia.
        change ("" +:+ t) with t.
        rewrite (replace_app_char _ _ _ cur t a) by exact Elb.
        rewrite (replace_app_char _ _ _ cur "" a) by exact Elb.
        now rewrite append_assoc.
      * rewrite (IH t (cur +:+ String a "")) by lia. now rewrite append_assoc.
Qed.

Lemma restore_comments_replace (t : string) :
  restore_comments t = replace COMMENT_MARKER "# " t.
Proof.
  unfold restore_comments, splitlines_keepends.
  now rewrite (restore_comments_lines (String.length t) t "").
Qed.

(** What the replaced text starts with, the text started with: the
    replacement brings in a space, which the marker does not hold. *)
Lemma startswith_replace_marker (s p : string) :
  has_char " " p = false ->
  startswith p (replace COMMENT_MARKER "# " s) = true -> startswith p s = true.
Proof.
  unfold replace. revert p. induction s as [|a t IH]; intros p Hp H.
  - exact H.
  - destruct p as [|x p]; [apply startswith_nil|].
    cbn [replace_go] in H.
    destruct (startswith COMMENT_MARKER (String a t)) eqn:E.
    + change ("# " +:+ ?z) with (String "#" (String " " z)) in H.
      rewrite startswith_cons in H. apply andb_prop in H as [Hx H].
      destruct p as [|y p].
      * unfold COMMENT_MARKER in E. rewrite startswith_cons in E.
        apply andb_prop in E as [E _]. apply Ascii.eqb_eq in E, Hx. subst.
        now rewrite startswith_cons, Ascii.eqb_refl, startswith_nil.
      * rewrite startswith_cons in H. apply andb_prop in H as [Hy _].
        apply Ascii.eqb_eq in Hy. subst y.
        simpl in Hp. apply orb_false_elim in Hp as [_ Hp]. discriminate Hp.
    + rewrite startswith_cons in H |- *. apply andb_prop in H as [-> H].
      simpl in Hp. apply orb_false_elim in Hp as [_ Hp]. now apply IH.
Qed.

(** No marker is left where every marker has been replaced. *)
Lemma replace_marker_free (s : string) (k : nat) :
  contains COMMENT_MARKER (replace_go COMMENT_MARKER "# " k s) = false.
Proof.
  revert k. induction s as [|a t IH]; intros k; [reflexivity|].
  cbn [replace_go]. destruct k as [|k]; [|apply IH].
  destruct (startswith COMMENT_MARKER (String a t)) eqn:E.
  - change ("# " +:+ ?z) with (String "#" (String " " z)).
    cbn [contains]. rewrite IH. unfold COMMENT_MARKER at 1 2.
    now rewrite !startswith_cons.
  - cbn [contains]. rewrite IH, orb_false_r.
    destruct (startswith COMMENT_MARKER (String a (replace_go COMMENT_MARKER "# " 0 t))) eqn:F;
      [|reflexivity].
    rewrite <- E. symmetry. apply startswith_replace_marker; [reflexivity|].
    unfold replace. cbn [replace_go]. now rewrite E.
Qed.

Lemma replace_marker_prefix (line : string) :
  replace COMMENT_MARKER "# " (COMMENT_MARKER +:+ line)
  = "# " +:+ replace COMMENT_MARKER "# " line.
Proof.
  unfold replace.
  change (COMMENT_MARKER +:+ line) with (String "#" ("!#comment:" +:+ line)).
  cbn [replace_go].
  change (String "#" ("!#comment:" +:+ line)) with (COMMENT_MARKER +:+ line).
  rewrite startswith_app. reflexivity.
Qed.

(** The first marker in a text is where [split] cuts first. *)
Lemma split_at_first_marker (a b : string) :
  contains "%%" (a +:+ "%") = false ->
  split "%%" (a +:+ "%%" +:+ b) = a :: split "%%" b.
Proof.
  unfold split. induction a as [|x a IH]; intros H.
  - change ("" +:+ "%%" +:+ b) with (String "%" (String "%" b)).
    cbn [split_go]. rewrite !startswith_cons, startswith_nil. reflexivity.
  - change (String x a +:+ "%") with (String x (a +:+ "%")) in H.
    apply contains_cons_false in H as [Hp Hc].
    change (String x a +:+ "%%" +:+ b) with (String x (a +:+ "%%" +:+ b)).
    cbn [split_go].
    replace (startswith "%%" (String x (a +:+ "%%" +:+ b))) with false.
    + now rewrite IH.
    + symmetry. rewrite startswith_cons in Hp |- *.
      destruct (Ascii.eqb "%" x); [|reflexivity]. cbn [andb] in Hp |- *.
      destruct a as [|y a]; [discriminate Hp|].
      change (String y a +:+ "%") with (String y (a +:+ "%")) in Hp.
      change (String y a +:+ "%%" +:+ b) with (String y (a +:+ "%%" +:+ b)).
      rewrite startswith_cons, startswith_nil in Hp |- *. exact Hp.
Qed.

Lemma contains_char (c : ascii) (s : string) : contains (chr c) s = has_char c s.
Proof.
  induction s as [|a s IH]; [reflexivity|].
  cbn [contains has_char]. unfold chr. rewrite startswith_cons, startswith_nil, andb_true_r.
  fold (chr c). now rewrite IH, Ascii.eqb_sym.
Qed.

Lemma in_line_not_cr (a : ascii) : in_line a = true -> Ascii.eqb a CR = false.
Proof.
  intros H. destruct (Ascii.eqb a CR) eqn:E; [|reflexivity].
  apply Ascii.eqb_eq in E. subst a. discriminate H.
Qed.

(** Reading the last line, one without a line end. *)
Lemma splitlines_go_rest (rest : string) :
  one_line rest ->
  forall cur, splitlines_go cur rest
              = if String.eqb (cur +:+ rest) "" then [] else [cur +:+ rest].
Proof.
  unfold one_line. induction rest as [|a t IH]; intros H cur.
  - rewrite append_nil_r. now destruct cur.
  - simpl in H. apply andb_prop in H as [Ha Ht].
    cbn [splitlines_go]. rewrite (in_line_not_cr a Ha).
    unfold in_line in Ha. apply negb_true_iff in Ha. rewrite Ha.
    rewrite (IH Ht), append_assoc. reflexivity.
Qed.

(** Reading a line up to its line feed. *)
Lemma splitlines_go_line (l rest : string) :
  one_line l ->
  forall cur, splitlines_go cur (l +:+ String LF rest)
              = (cur +:+ l +:+ nl) :: splitlines_go "" rest.
Proof.
  unfold one_line. induction l as [|a t IH]; intros H cur.
  - reflexivity.
  - simpl in H. apply andb_prop in H as [Ha Ht].
    change (String a t +:+ String LF rest) with (String a (t +:+ String LF rest)).
    cbn [splitlines_go]. rewrite (in_line_not_cr a Ha).
    unfold in_line in Ha. apply negb_true_iff in Ha. rewrite Ha.
    rewrite (IH Ht), !append_assoc. reflexivity.
Qed.

(** [splitlines] gives back the lines a text was put together from. *)
Lemma splitlines_unlines (lines : list string) (rest : string) :
  Forall one_line lines -> one_line rest ->
  splitlines_keepends (unlines lines +:+ rest)
  = map (fun l => l +:+ nl) lines ++ (if String.eqb rest "" then [] else [rest]).
Proof.
  intros Hl Hr. unfold splitlines_keepends, unlines.
  induction Hl as [|l lines Hline _ IH].
  - cbn [map concat List.app]. change ("" +:+ rest) with rest.
    now rewrite (splitlines_go_rest rest Hr "").
  - cbn [map concat List.app]. rewrite !append_assoc.
    change (nl +:+ concat (map (fun l0 => l0 +:+ nl) lines) +:+ rest)
      with (String LF (concat (map (fun l0 => l0 +:+ nl) lines) +:+ rest)).
    rewrite (splitlines_go_line l _ Hline ""). now rewrite IH.
Qed.

Lemma lstrip_spaces (s : string) : all_chars is_space s = true -> lstrip s = "".
Proof.
  induction s as [|a s IH]; [reflexivity|]. simpl. intros H.
  apply andb_prop in H as [Ha Hs]. now rewrite Ha, IH.
Qed.

Lemma lstrip_other (s : string) :
  all_chars is_space s = false ->
  exists a t, lstrip s = String a t /\ is_space a = false.
Proof.
  induction s as [|a s IH]; [discriminate|]. simpl. intros H.
  destruct (is_space a) eqn:Ha; [now apply IH|]. now exists a, s.
Qed.

(** A text is stripped to nothing exactly when it is white space. *)
Lemma strip_empty (s : string) : String.eqb (strip s) "" = all_chars is_space s.
Proof.
  unfold strip. destruct (all_chars is_space s) eqn:E.
  - now rewrite (lstrip_spaces s E).
  - destruct (lstrip_other s E) as (a & t & -> & Ha).
    cbn [rstrip]. rewrite Ha. now destruct (rstrip t).
Qed.

Lemma all_chars_app_space (l : string) :
  all_chars is_space (l +:+ nl) = all_chars is_space l.
Proof. induction l as [|a l IH]; [reflexivity|]. simpl. now rewrite IH. Qed.

(** The body of a comment that holds a line feed, from its lines: a first
    line of white space only is left out. *)
Lemma comment_body_block (l0 : string) (lines : list string) (rest : string) :
  one_line l0 -> Forall one_line lines -> one_line rest ->
  concat (comment_body (unlines (l0 :: lines) +:+ rest))
  = sentinel_lines (if all_chars is_space l0 then lines else l0 :: lines) rest.
Proof.
  intros H0 Hl Hr. unfold comment_body.
  assert (Hnl : contains nl (unlines (l0 :: lines) +:+ rest) = true).
  { unfold nl. fold (chr LF). rewrite contains_char. unfold unlines. cbn [map concat].
    rewrite !has_char_app. cbn [nl has_char]. rewrite Ascii.eqb_refl.
    now rewrite orb_true_r. }
  rewrite Hnl, (splitlines_unlines (l0 :: lines) rest) by (try constructor; assumption).
  cbn [map List.app]. rewrite strip_empty, all_chars_app_space.
  assert (Hmap : forall ls,
             concat (map (fun line => COMMENT_MARKER +:+ line)
                       (map (fun l => l +:+ nl) ls ++ (if String.eqb rest "" then [] else [rest])))
             = sentinel_lines ls rest).
  { intros ls. unfold sentinel_lines. rewrite map_app, concat_app, map_map. f_equal.
    destruct (String.eqb rest ""); [reflexivity|]. cbn [map concat]. apply append_nil_r. }
  destruct (all_chars is_space l0); [apply Hmap | apply (Hmap (l0 :: lines))].
Qed.

Lemma comment_body_inline (chunk : string) :
  contains nl chunk = false -> concat (comment_body chunk) = "<!--" +:+ chunk +:+ "-->".
Proof.
  intros H. unfold comment_body. rewrite H. cbn [concat].
  now rewrite append_nil_r.
Qed.

Lemma fix_markdown_comments_first (pre c post : string) :
  contains "%%" (pre +:+ "%") = false ->
  contains "%%" (c +:+ "%") = false ->
  fix_markdown_comments (pre +:+ "%%" +:+ c +:+ "%%" +:+ post)
  = pre +:+ concat (comment_body c) +:+ fix_markdown_comments post.
Proof.
  intros Hpre Hc. unfold fix_markdown_comments.
  rewrite (split_at_first_marker pre) by exact Hpre.
  rewrite (split_at_first_marker c) by exact Hc.
  cbn [comment_loop negb concat]. now rewrite concat_app.
Qed.

Lemma replace_marker_lines (lines : list string) (rest : string) :
  replace COMMENT_MARKER "# " (unlines lines +:+ rest)
  = unlines (map (replace COMMENT_MARKER "# ") lines) +:+ replace COMMENT_MARKER "# " rest.
Proof.
  unfold unlines. induction lines as [|l lines IH]; [reflexivity|].
  cbn [map concat]. rewrite !append_assoc.
  change (nl +:+ concat (map (fun l0 => l0 +:+ nl) lines) +:+ rest)
    with (String LF (concat (map (fun l0 => l0 +:+ nl) lines) +:+ rest)).
  unfold COMMENT_MARKER at 1.
  rewrite (replace_app_char "#" "!#comment:" "# " l _ LF) by reflexivity.
  fold COMMENT_MARKER. now rewrite IH.
Qed.

Lemma replace_sentinel_lines (lines : list string) (rest : string) :
  replace COMMENT_MARKER "# " (sentinel_lines lines rest)
  = comment_lines (map (replace COMMENT_MARKER "# ") lines) (replace COMMENT_MARKER "# " rest)
    \/ (rest <> "" /\ replace COMMENT_MARKER "# " rest = "").
Proof.
  unfold sentinel_lines, comment_lines.
  assert (Hrest : replace COMMENT_MARKER "# " (if String.eqb rest "" then "" else COMMENT_MARKER +:+ rest)
                  = if String.eqb rest "" then "" else "# " +:+ replace COMMENT_MARKER "# " rest).
  { destruct (String.eqb rest ""); [reflexivity | apply replace_marker_prefix]. }
  assert (Hl : replace COMMENT_MARKER "# "
                 (concat (map (fun l => COMMENT_MARKER +:+ l +:+ nl) lines)
                  +:+ (if String.eqb rest "" then "" else COMMENT_MARKER +:+ rest))
               = concat (map (fun l => "# " +:+ l +:+ nl) (map (replace COMMENT_MARKER "# ") lines))
                 +:+ (if String.eqb rest "" then "" else "# " +:+ replace COMMENT_MARKER "# " rest)).
  { induction lines as [|l lines IH]; [exact Hrest|].
    cbn [map concat]. rewrite !append_assoc. rewrite replace_marker_prefix.
    change (nl +:+ concat (map (fun l0 => COMMENT_MARKER +:+ l0 +:+ nl) lines)
            +:+ (if String.eqb rest "" then "" else COMMENT_MARKER +:+ rest))
      with (String LF (concat (map (fun l0 => COMMENT_MARKER +:+ l0 +:+ nl) lines)
                       +:+ (if String.eqb rest "" then "" else COMMENT_MARKER +:+ rest))).
    unfold COMMENT_MARKER at 1.
    rewrite (replace_app_char "#" "!#comment:" "# " l _ LF) by reflexivity.
    fold COMMENT_MARKER. now rewrite IH. }
  rewrite Hl.
  destruct (String.eqb rest "") eqn:E.
  - left. apply String.eqb_eq in E. subst rest. reflexivity.
  - destruct (String.eqb (replace COMMENT_MARKER "# " rest) "") eqn:E'.
    + right. apply String.eqb_eq in E'. apply String.eqb_neq in E. now split.
    + left. reflexivity.
Qed.

(** C5: a comment between two markers that holds no line feed comes out
    wrapped in [<!--] and [-->].  A comment of several lines, each ended by
    a line feed and holding no other line end, comes out as these lines,
    each behind the marker [#!#comment:], where a first line of white space
    only is left out and what stands behind the last line feed is a line of
    its own.  [restore_comments] turns the marked lines into lines behind
    [# ], replaces the marker by [# ] in every line of any text, a marker
    at the start included, and the text it gives holds no marker any
    more. *)
Theorem comment_round_trip (pre c post l0 : string) (lines : list string) (rest t : string) :
  contains "%%" (pre +:+ "%") = false ->
  contains "%%" (c +:+ "%") = false ->
  contains nl c = false ->
  contains "%%" ((unlines (l0 :: lines) +:+ rest) +:+ "%") = false ->
  one_line l0 -> Forall one_line lines -> one_line rest ->
  contains COMMENT_MARKER (unlines lines +:+ rest) = false ->
  fix_markdown_comments (pre +:+ "%%" +:+ c +:+ "%%" +:+ post)
  = pre +:+ ("<!--" +:+ c +:+ "-->") +:+ fix_markdown_comments post
  /\ fix_markdown_comments (pre +:+ "%%" +:+ (unlines (l0 :: lines) +:+ rest) +:+ "%%" +:+ post)
     = pre +:+ sentinel_lines (if all_chars is_space l0 then lines else l0 :: lines) rest
       +:+ fix_markdown_comments post
  /\ restore_comments (sentinel_lines lines rest) = comment_lines lines rest
  /\ restore_comments (unlines lines +:+ t)
     = unlines (map (replace COMMENT_MARKER "# ") lines) +:+ replace COMMENT_MARKER "# " t
  /\ restore_comments (COMMENT_MARKER +:+ t) = "# " +:+ restore_comments t
  /\ contains COMMENT_MARKER (restore_comments t) = false.
Proof.
  intros Hpre Hc Hnl Hblock H0 Hl Hr Hfree. repeat split.
  - rewrite fix_markdown_comments_first by assumption.
    now rewrite comment_body_inline.
  - rewrite fix_markdown_comments_first by assumption.
    now rewrite comment_body_block.
  - rewrite restore_comments_replace.
    pose proof (replace_absent COMMENT_MARKER "# " _ Hfree) as Hsame.
    rewrite replace_marker_lines in Hsame.
    assert (Hparts : map (replace COMMENT_MARKER "# ") lines = lines
                     /\ replace COMMENT_MARKER "# " rest = rest).
    { clear - Hfree. revert Hfree. unfold unlines.
      induction lines as [|l lines IH]; intros Hfree.
      - split; [reflexivity | now apply replace_absent].
      - cbn [map concat] in Hfree. rewrite !append_assoc in Hfree.
        change (nl +:+ concat (map (fun l0 => l0 +:+ nl) lines) +:+ rest)
          with (String LF (concat (map (fun l0 => l0 +:+ nl) lines) +:+ rest)) in Hfree.
        unfold COMMENT_MARKER in Hfree at 1.
        rewrite (contains_app_char "#" "!#comment:" l _ LF) in Hfree by reflexivity.
        fold COMMENT_MARKER in Hfree. apply orb_false_elim in Hfree as [Hline Hmore].
        destruct (IH Hmore) as [Hls Hrest]. split; [|exact Hrest].
        cbn [map]. now rewrite Hls, (replace_absent _ _ l Hline). }
    destruct Hparts as [Hls Hrest].
    destruct (replace_sentinel_lines lines rest) as [E|[Hne E]].
    + now rewrite E, Hls, Hrest.
    + rewrite Hrest in E. contradiction.
  - rewrite restore_comments_replace. apply replace_marker_lines.
  - rewrite !restore_comments_replace. apply replace_marker_prefix.
  - rewrite restore_comments_replace. apply replace_marker_free.
Qed.

End Comments.

(** The comment block of the repository's test, and an inline comment. *)
Lemma comment_round_trip_witness :
  fix_markdown_comments "before %%comment%% after" = "before <!--comment--> after"
  /\ fix_markdown_comments
       (nl +:+ "%%" +:+ nl +:+ "multiline" +:+ nl +:+ "comment" +:+ nl +:+ "%%" +:+ nl)
     = nl +:+ "#!#comment:multiline" +:+ nl +:+ "#!#comment:comment" +:+ nl +:+ nl
  /\ restore_comments ("#!#comment:multiline" +:+ nl +:+ "#!#comment:comment" +:+ nl)
     = "# multiline" +:+ nl +:+ "# comment" +:+ nl.
Proof.
  pose proof (comment_round_trip "before " "comment" " after" "" ["multiline"; "comment"] "" ""
                eq_refl eq_refl eq_refl eq_refl eq_refl
                ltac:(repeat constructor) eq_refl eq_refl) as (H1 & _ & H3 & _).
  pose proof (comment_round_trip nl "comment" nl "" ["multiline"; "comment"] "" ""
                eq_refl eq_refl eq_refl eq_refl eq_refl
                ltac:(repeat constructor) eq_refl eq_refl) as (_ & H2 & _).
  split; [exact H1 | split; [exact H2 | exact H3]].
Defined.

(** * An unclosed comment *)

Section UnclosedComment.

Lemma split_go_length (sep s : string) (k : nat) :
  List.length (split_go sep k s) = S (count_go sep k s).
Proof.
  revert k. induction s as [|a s IH]; intros k; [reflexivity|].
  cbn [split_go count_go]. destruct k as [|k]; [|apply IH].
  destruct (startswith sep (String a s)).
  - cbn [List.length]. now rewrite IH.
  - specialize (IH 0). destruct (split_go sep 0 s); [discriminate IH | exact IH].
Qed.

Lemma join_cons (sep x : string) (xs : list string) :
  xs <> [] -> join sep (x :: xs) = x +:+ sep +:+ join sep xs.
Proof. destruct xs; [contradiction | reflexivity]. Qed.

Lemma split_go_not_nil (sep s : string) (k : nat) : split_go sep k s <> [].
Proof.
  intros H. apply (f_equal (@List.length string)) in H.
  rewrite split_go_length in H. discriminate H.
Qed.

(** The chunks, put together again with the separator, are the text. *)
Lemma join_split_go (x0 : ascii) (sep' s : string) (k : nat) :
  join (String x0 sep') (split_go (String x0 sep') k s) = drop k s.
Proof.
  set (sep := String x0 sep'). revert k. induction s as [|a s IH]; intros k.
  - now destruct k.
  - cbn [split_go]. destruct k as [|k]; [|apply IH].
    destruct (startswith sep (String a s)) eqn:E.
    + rewrite join_cons by apply split_go_not_nil. rewrite IH.
      apply startswith_inv in E. rewrite drop_0. change ("" +:+ ?z) with z.
      rewrite E at 1. unfold sep. cbn [String.length drop Nat.sub].
      now rewrite Nat.sub_0_r.
    + specialize (IH 0). rewrite drop_0 in IH.
      destruct (split_go sep 0 s) as [|x xs] eqn:Es; [now apply split_go_not_nil in Es|].
      cbn [cons_head drop]. rewrite <- IH. now destruct xs.
Qed.

Lemma join_split (x0 : ascii) (sep' s : string) :
  join (String x0 sep') (split (String x0 sep') s) = s.
Proof. unfold split. rewrite join_split_go. apply drop_0. Qed.

(** No chunk holds the separator. *)
Lemma split_go_chunks_free (x0 : ascii) (sep' s : string) (k : nat) :
  Forall (fun chunk => contains (String x0 sep') chunk = false)
         (split_go (String x0 sep') k s).
Proof.
  revert k. induction s as [|a s IH]; intros k.
  - repeat constructor.
  - cbn [split_go]. destruct k as [|k]; [|apply IH].
    destruct (startswith (String x0 sep') (String a s)) eqn:E.
    + constructor; [reflexivity | apply IH].
    + pose proof (join_split_go x0 sep' s 0) as Hj. rewrite drop_0 in Hj.
      specialize (IH 0).
      destruct (split_go (String x0 sep') 0 s) as [|x xs] eqn:Es.
      * now apply split_go_not_nil in Es.
      * inversion IH as [|? ? Hx Hxs]; subst. cbn [cons_head].
        constructor; [|exact Hxs].
        cbn [contains]. rewrite Hx, orb_false_r.
        destruct (startswith (String x0 sep') (String a x)) eqn:F; [|reflexivity].
        rewrite <- E. symmetry.
        assert (Hz : exists z, join (String x0 sep') (x :: xs) = x +:+ z).
        { destruct xs; [exists ""; now rewrite append_nil_r | eexists; reflexivity]. }
        destruct Hz as [z ->].
        change (String a (x +:+ z)) with (String a x +:+ z). now apply startswith_app_r.
Qed.

Lemma join_snoc (sep last : string) (init : list string) :
  init <> [] -> join sep (init ++ [last]) = join sep init +:+ sep +:+ last.
Proof.
  induction init as [|x init IH]; [contradiction|]. intros _.
  destruct init as [|y init]; [reflexivity|].
  change ((x :: y :: init) ++ [last]) with (x :: ((y :: init) ++ [last])).
  rewrite join_cons by (cbn; discriminate). rewrite IH by discriminate.
  rewrite (join_cons sep x (y :: init)) by discriminate. now rewrite !append_assoc.
Qed.

(** The loop takes the chunks in turn as text and as comment. *)
Lemma comment_loop_app (l1 l2 : list string) (inside : bool) :
  comment_loop inside (l1 ++ l2)
  = comment_loop inside l1 ++ comment_loop (xorb inside (Nat.odd (List.length l1))) l2.
Proof.
  revert inside. induction l1 as [|x l1 IH]; intros inside.
  - now rewrite xorb_false_r.
  - change ((x :: l1) ++ l2) with (x :: (l1 ++ l2)).
    cbn [comment_loop List.length]. rewrite Nat.odd_succ, <- Nat.negb_odd.
    destruct inside; cbn [negb].
    + rewrite IH, <- List.app_assoc. now destruct (Nat.odd (List.length l1)).
    + rewrite IH. now destruct (Nat.odd (List.length l1)).
Qed.

(** C10: in a text with an odd number of markers, the text behind the last
    marker is taken as a comment.  When it holds no line feed it comes out
    between [<!--] and [-->].  When it is made of lines, each ended by a
    line feed and holding no other line end, these lines come out each
    behind the marker [#!#comment:], a first line of white space only left
    out, and what stands behind the last line feed comes out behind the
    marker as well. *)
Theorem unclosed_comment_takes_the_rest (t : string) :
  Nat.odd (count "%%" t) = true ->
  exists (init : list string) (last : string),
    split "%%" t = init ++ [last]
    /\ t = join "%%" init +:+ "%%" +:+ last
    /\ contains "%%" last = false
    /\ (contains nl last = false ->
        fix_markdown_comments t
        = concat (comment_loop false init) +:+ ("<!--" +:+ last +:+ "-->"))
    /\ (forall (l0 : string) (lines : list string) (rest : string),
          last = unlines (l0 :: lines) +:+ rest ->
          one_line l0 -> Forall one_line lines -> one_line rest ->
          fix_markdown_comments t
          = concat (comment_loop false init)
            +:+ sentinel_lines (if all_chars is_space l0 then lines else l0 :: lines) rest).
Proof.
  intros Hodd.
  pose proof (split_go_length "%%" t 0) as Hlen. fold (split "%%" t) (count "%%" t) in Hlen.
  pose proof (split_go_chunks_free "%" "%" t 0) as Hfree. fold (split "%%" t) in Hfree.
  pose proof (join_split "%" "%" t) as Hjoin.
  destruct (exists_last (split_go_not_nil "%%" t 0)) as (init & last & Es).
  fold (split "%%" t) in Es. rewrite Es in Hlen, Hfree, Hjoin.
  rewrite length_app in Hlen. cbn [List.length] in Hlen.
  assert (Hinit : List.length init = count "%%" t) by lia.
  assert (Hne : init <> []) by (intros ->; rewrite <- Hinit in Hodd; discriminate Hodd).
  assert (Hfix : fix_markdown_comments t
                 = concat (comment_loop false init) +:+ concat (comment_body last)).
  { unfold fix_markdown_comments. rewrite Es, comment_loop_app, Hinit, Hodd.
    cbn [xorb comment_loop negb]. now rewrite List.app_nil_r, concat_app. }
  exists init, last. split; [exact Es|]. split; [|split; [|split]].
  - rewrite <- Hjoin. now apply join_snoc.
  - apply Forall_app in Hfree as [_ Hlast]. now inversion Hlast.
  - intros Hnl. rewrite Hfix. now rewrite comment_body_inline.
  - intros l0 lines rest -> H0 Hl Hr. rewrite Hfix. now rewrite comment_body_block.
Qed.

End UnclosedComment.

(** A comment that is opened and not closed takes the lines behind it. *)
Lemma unclosed_comment_takes_the_rest_witness :
  fix_markdown_comments
    ("text" +:+ nl +:+ "%%" +:+ nl +:+ "rest" +:+ nl +:+ "of the note")
  = "text" +:+ nl +:+ "#!#comment:rest" +:+ nl +:+ "#!#comment:of the note".
Proof.
  destruct (unclosed_comment_takes_the_rest
              ("text" +:+ nl +:+ "%%" +:+ nl +:+ "rest" +:+ nl +:+ "of the note") eq_refl)
    as (init & last & Es & _ & _ & _ & Hlines).
  change (split "%%" ("text" +:+ nl +:+ "%%" +:+ nl +:+ "rest" +:+ nl +:+ "of the note"))
    with (["text" +:+ nl] ++ [nl +:+ "rest" +:+ nl +:+ "of the note"]) in Es.
  apply app_inj_tail in Es as [<- <-].
  exact (Hlines "" ["rest"] "of the note" eq_refl eq_refl
           ltac:(repeat constructor) eq_refl).
Defined.

(** * Single frontmatter lines *)

Section FrontmatterLines.

(** The closing delimiter is read as a line without a value, and the scan
    goes on behind it. *)
Lemma get_keys_loop_skips_delimiter (rest : list string) (fm : gmap string value) :
  get_keys_loop ("---" :: rest) fm = get_keys_loop rest fm.
Proof. reflexivity. Qed.

Lemma split_char_first (c : ascii) (a b : string) :
  has_char c a = false -> split (chr c) (a +:+ String c b) = a :: split (chr c) b.
Proof.
  unfold split, chr. induction a as [|x a IH]; intros H.
  - change ("" +:+ String c b) with (String c b). cbn [split_go].
    now rewrite startswith_cons, Ascii.eqb_refl, startswith_nil.
  - simpl in H. apply orb_false_elim in H as [Hx Ha].
    change (String x a +:+ String c b) with (String x (a +:+ String c b)).
    cbn [split_go]. rewrite startswith_cons, Ascii.eqb_sym, Hx. cbn [andb].
    now rewrite IH.
Qed.

(** The key and the value [get_keys] reads from a line [key:raw]. *)
Lemma get_keys_one_line (key raw : string) :
  has_char ":" key = false -> has_char LF key = false -> has_char LF raw = false ->
  key +:+ ":" +:+ raw <> "---" +:+ nl ->
  strip raw <> "" ->
  get_keys ("---" +:+ nl +:+ key +:+ ":" +:+ raw)
  = <[key :=
        let v := if negb (String.eqb key "title") then maybeSplitList (strip raw)
                 else VStr (strip raw) in
        if (String.eqb key "tags" || String.eqb key "aliases") && negb (isinstance_list v)
        then VList [strip raw] else v]> ∅.
Proof.
  intros Hkey Hkl Hraw Hline Hval. unfold get_keys.
  assert (Hl : has_char LF (key +:+ ":" +:+ raw) = false)
    by (rewrite !has_char_app, Hkl, Hraw; reflexivity).
  change ("---" +:+ nl +:+ key +:+ ":" +:+ raw)
    with ("---" +:+ String LF (key +:+ ":" +:+ raw)).
  rewrite (split_char_first LF "---") by reflexivity.
  rewrite (split_absent (chr LF)) by now apply has_char_first_absent.
  cbn [String.eqb Ascii.eqb Bool.eqb negb]. rewrite get_keys_loop_cons.
  apply String.eqb_neq in Hline, Hval. rewrite Hline.
  change (key +:+ ":" +:+ raw) with (key +:+ String ":" raw).
  pose proof (split_char_first ":" key raw Hkey) as Hs. unfold chr in Hs.
  rewrite Hs. cbn [List.hd List.tl].
  rewrite (join_split ":" "" raw). cbv zeta. rewrite Hval.
  reflexivity.
Qed.

(** A scalar behind [tags:] becomes a list of one item. *)
Lemma get_keys_scalar_tags (raw : string) :
  has_char LF raw = false -> strip raw <> "" ->
  startswith "[" (strip raw) = false -> contains "," (strip raw) = false ->
  get_keys ("---" +:+ nl +:+ "tags:" +:+ raw) = {[ "tags" := VList [strip raw] ]}.
Proof.
  intros Hraw Hval Hb Hc.
  change ("---" +:+ nl +:+ "tags:" +:+ raw) with ("---" +:+ nl +:+ "tags" +:+ ":" +:+ raw).
  rewrite (get_keys_one_line "tags" raw) by (try assumption; try reflexivity; discriminate).
  cbv zeta. cbn [String.eqb Ascii.eqb Bool.eqb negb orb andb].
  unfold maybeSplitList. rewrite Hb, Hc, andb_false_r. cbn [isinstance_list negb].
  apply insert_empty.
Qed.

(** Whatever stands behind [title:] stays one string. *)
Lemma get_keys_title_string (raw : string) :
  has_char LF raw = false -> strip raw <> "" ->
  get_keys ("---" +:+ nl +:+ "title:" +:+ raw) = {[ "title" := VStr (strip raw) ]}.
Proof.
  intros Hraw Hval.
  change ("---" +:+ nl +:+ "title:" +:+ raw) with ("---" +:+ nl +:+ "title" +:+ ":" +:+ raw).
  rewrite (get_keys_one_line "title" raw) by (try assumption; try reflexivity; discriminate).
  cbv zeta. cbn [String.eqb Ascii.eqb Bool.eqb negb orb andb isinstance_list].
  apply insert_empty.
Qed.

End FrontmatterLines.

(** * The matcher and the matching relation *)

Section Matcher.

Lemma append_eq_nil (a b : string) : a +:+ b = "" -> a = "" /\ b = "".
Proof. destruct a; [simpl; intros ->; now split | discriminate]. Qed.

Lemma take_length_app (a u : string) :
  take (String.length (a +:+ u) - String.length u) (a +:+ u) = a.
Proof.
  rewrite length_append.
  replace (String.length a + String.length u - String.length u) with (String.length a) by lia.
  apply take_app_length.
Qed.

Lemma shorter_app (a u : string) (c : caps) :
  shorter (a +:+ u) (u, c) = negb (String.eqb a "").
Proof.
  unfold shorter. cbn [fst]. rewrite length_append.
  destruct a as [|x a]; cbn [String.length String.eqb negb Nat.add].
  - apply Nat.ltb_irrefl.
  - apply Nat.ltb_lt. lia.
Qed.

(** Every way [iter] finds is a way of the repetition. *)
Lemma iter_sound (g : bool) (r : regex) (fuel : nat) :
  (forall s c x, In x (run r s c) -> exists a, s = a +:+ fst x /\ sem r a c (snd x)) ->
  forall s c x, In x (iter g (run r) fuel s c) ->
  exists a, s = a +:+ fst x /\ sem (Star g r) a c (snd x).
Proof.
  intros Hr. induction fuel as [|f IH]; intros s c x Hx.
  - destruct Hx as [<-|[]]. exists "". split; [reflexivity | apply sem_star_nil].
  - cbn [iter] in Hx.
    assert (Hcases : x = (s, c) \/
      In x (flat_map (fun y => if shorter s y then iter g (run r) f (fst y) (snd y) else [])
                     (run r s c))).
    { destruct g.
      - apply in_app_or in Hx as [Hx|[<-|[]]]; [now right | now left].
      - destruct Hx as [<-|Hx]; [now left | now right]. }
    destruct Hcases as [->|Hm].
    + exists "". split; [reflexivity | apply sem_star_nil].
    + apply in_flat_map in Hm as (y & Hy & Hxy).
      destruct (shorter s y) eqn:Hs; [|destruct Hxy].
      apply Hr in Hy as (a1 & -> & H1). apply IH in Hxy as (a2 & Ha2 & H2).
      exists (a1 +:+ a2). split.
      * rewrite append_assoc. now rewrite <- Ha2.
      * apply sem_star_cons with (c1 := snd y); try assumption.
        intros ->. unfold shorter in Hs. cbn [String.append] in Hs.
        now rewrite Nat.ltb_irrefl in Hs.
Qed.

(** Soundness of the matcher: every way [run] finds is a match, and the text
    left over is what lies behind the matched text. *)
Lemma run_sound (r : regex) :
  forall s c x, In x (run r s c) -> exists a, s = a +:+ fst x /\ sem r a c (snd x).
Proof.
  induction r as [|l|p|r1 IH1 r2 IH2|r1 IH1 r2 IH2|r1 IH1|g r1 IH1|n r1 IH1];
    intros s c x Hx; cbn [run] in Hx.
  - destruct Hx as [<-|[]]. exists "". split; [reflexivity | constructor].
  - destruct (startswith l s) eqn:E; [|destruct Hx].
    destruct Hx as [<-|[]]. exists l. split; [now apply startswith_inv | constructor].
  - destruct s as [|a t]; [destruct Hx|].
    destruct (p a) eqn:E; [|destruct Hx].
    destruct Hx as [<-|[]]. exists (chr a). split; [reflexivity | now constructor].
  - apply in_flat_map in Hx as (y & Hy & Hx).
    apply IH1 in Hy as (a1 & -> & H1). apply IH2 in Hx as (a2 & Ha2 & H2).
    exists (a1 +:+ a2). split; [rewrite append_assoc; now rewrite <- Ha2|].
    now apply sem_cat with (c1 := snd y).
  - apply in_app_or in Hx as [Hx|Hx].
    + apply IH1 in Hx as (a & -> & H). exists a. split; [reflexivity | now apply sem_alt_l].
    + apply IH2 in Hx as (a & -> & H). exists a. split; [reflexivity | now apply sem_alt_r].
  - apply in_app_or in Hx as [Hx|[<-|[]]].
    + apply IH1 in Hx as (a & -> & H). exists a. split; [reflexivity | now apply sem_opt_some].
    + exists "". split; [reflexivity | apply sem_opt_none].
  - now apply (iter_sound g r1 (String.length s) IH1).
  - apply in_map_iff in Hx as (y & <- & Hy).
    apply IH1 in Hy as (a & -> & H). exists a. cbn [fst snd]. split; [reflexivity|].
    unfold consumed. rewrite take_length_app. now constructor.
Qed.

Lemma iter_empty (g : bool) (step : string -> caps -> list result) (f : nat) (c : caps) :
  iter g step f "" c = [("", c)].
Proof.
  destruct f as [|f]; [reflexivity|]. cbn [iter].
  replace (flat_map _ (step "" c)) with (@nil result); [now destruct g|].
  symmetry. induction (step "" c) as [|y l IHl]; [reflexivity|].
  cbn [flat_map]. unfold shorter at 1. cbn [String.length Nat.ltb Nat.leb List.app].
  exact IHl.
Qed.

(** With fuel for every character, more fuel changes nothing. *)
Lemma iter_fuel (g : bool) (step : string -> caps -> list result) (f1 : nat) :
  forall f2 s c, String.length s <= f1 -> String.length s <= f2 ->
  iter g step f1 s c = iter g step f2 s c.
Proof.
  induction f1 as [|f1 IH]; intros f2 s c H1 H2.
  - destruct s; [now rewrite !iter_empty | simpl in H1; lia].
  - destruct s as [|a t]; [now rewrite !iter_empty|].
    destruct f2 as [|f2]; [simpl in H2; lia|].
    cbn [iter].
    assert (Hmore :
      flat_map (fun x => if shorter (String a t) x then iter g step f1 (fst x) (snd x) else [])
               (step (String a t) c)
      = flat_map (fun x => if shorter (String a t) x then iter g step f2 (fst x) (snd x) else [])
               (step (String a t) c)).
    { apply flat_map_ext. intros y. unfold shorter. cbn [String.length].
      destruct (String.length (fst y) <? S (String.length t)) eqn:E; [|reflexivity].
      apply Nat.ltb_lt in E. simpl in H1, H2. apply IH; lia. }
    now rewrite Hmore.
Qed.

Lemma iter_self (g : bool) (step : string -> caps -> list result) (f : nat)
    (s : string) (c : caps) :
  In (s, c) (iter g step f s c).
Proof.
  destruct f as [|f]; [now left|]. cbn [iter].
  destruct g; [apply in_or_app; right; now left | now left].
Qed.

(** Completeness of the matcher: every match is among the ways [run] finds. *)
Lemma run_complete (r : regex) (a : string) (c c' : caps) :
  sem r a c c' -> forall u, In (u, c') (run r (a +:+ u) c).
Proof.
  induction 1 as [c|l c|p x c Hp|r1 r2 a1 a2 c c1 c2 _ IH1 _ IH2
                  |r1 r2 a c c' _ IH|r1 r2 a c c' _ IH|r a c c' _ IH|r c
                  |g r c|g r a1 a2 c c1 c2 Hne _ IH1 _ IH2|n r a c c' _ IH];
    intros u; cbn [run].
  - now left.
  - rewrite startswith_app, drop_app_length. now left.
  - change (chr x +:+ u) with (String x u). cbv iota. rewrite Hp. now left.
  - rewrite append_assoc. apply in_flat_map. exists (a2 +:+ u, c1).
    split; [apply IH1 | apply IH2].
  - apply in_or_app. left. apply IH.
  - apply in_or_app. right. apply IH.
  - apply in_or_app. left. apply IH.
  - apply in_or_app. right. now left.
  - apply iter_self.
  - rewrite append_assoc. destruct a1 as [|x a1]; [contradiction|].
    change (String x a1 +:+ a2 +:+ u) with (String x (a1 +:+ a2 +:+ u)).
    cbn [String.length iter].
    assert (Hin : In (u, c2)
      (flat_map (fun y => if shorter (String x (a1 +:+ a2 +:+ u)) y
                          then iter g (run r) (String.length (a1 +:+ a2 +:+ u)) (fst y) (snd y)
                          else [])
                (run r (String x (a1 +:+ a2 +:+ u)) c))).
    { apply in_flat_map. exists (a2 +:+ u, c1). split; [apply (IH1 (a2 +:+ u))|].
      change (String x (a1 +:+ a2 +:+ u)) with (String x a1 +:+ a2 +:+ u).
      rewrite shorter_app. cbn [String.eqb negb fst snd].
      rewrite (iter_fuel g (run r) _ (String.length (a2 +:+ u)));
        [apply IH2 | rewrite !length_append; lia | lia]. }
    destruct g; [apply in_or_app; now left | now right].
  - apply in_map_iff. exists (u, c'). split; [|apply IH].
    cbn [fst snd]. unfold consumed. now rewrite take_length_app.
Qed.

(** When every way to match at the start of a text covers the whole text and
    has the property [Q] for its groups, and there is a way to match, the match
    [match_here] reports is one of them. *)
Lemma match_here_determined (r : regex) (s a : string) (c0 : caps) (Q : caps -> Prop) :
  sem r a [] c0 -> s = a ->
  (forall a' u c', sem r a' [] c' -> s = a' +:+ u -> u = "" /\ Q c') ->
  exists c', match_here false r s = Some (String.length s, c') /\ Q c'.
Proof.
  intros Hsem -> Huniq. unfold match_here.
  pose proof (run_complete r a [] c0 Hsem "") as Hin. rewrite append_nil_r in Hin.
  destruct (run r a []) as [|x l] eqn:E; [destruct Hin|].
  assert (Hx : In x (run r a [])) by (rewrite E; now left).
  apply run_sound in Hx as (a' & Ha' & Hs').
  destruct (Huniq a' (fst x) (snd x) Hs' Ha') as [Hu HQ].
  exists (snd x). rewrite Hu. cbn [String.length]. rewrite Nat.sub_0_r. now split.
Qed.

(** Nothing matches where no text is in the relation. *)
Lemma run_none (r : regex) (s : string) :
  (forall a u c', sem r a [] c' -> s = a +:+ u -> False) -> run r s [] = [].
Proof.
  intros H. destruct (run r s []) as [|x l] eqn:E; [reflexivity|]. exfalso.
  assert (Hx : In x (run r s [])) by (rewrite E; now left).
  apply run_sound in Hx as (a & Ha & Hs). exact (H a (fst x) (snd x) Hs Ha).
Qed.

End Matcher.

(** * Image embeds *)

Section ImageEmbeds.

Lemma append_eq_append (a u w z : string) :
  a +:+ u = w +:+ z ->
  (exists m, w = a +:+ m /\ u = m +:+ z) \/ (exists m, a = w +:+ m /\ z = m +:+ u).
Proof.
  revert w. induction a as [|x a IH]; intros w H.
  - left. exists w. now split.
  - destruct w as [|y w].
    + right. exists (String x a). now split.
    + injection H as -> H. apply IH in H as [(m & -> & ->)|(m & -> & ->)].
      * left. exists m. now split.
      * right. exists m. now split.
Qed.

(** A text is cut at the first occurrence of a character in one way only. *)
Lemma split_first_unique (c : ascii) (x x' y y' : string) :
  has_char c x = false -> has_char c x' = false ->
  x +:+ String c y = x' +:+ String c y' -> x = x' /\ y = y'.
Proof.
  revert x'. induction x as [|a x IH]; intros x' Hx Hx' H.
  - destruct x' as [|a' x']; [injection H as ->; now split|].
    injection H as -> _. simpl in Hx'. now rewrite Ascii.eqb_refl in Hx'.
  - destruct x' as [|a' x'].
    + injection H as -> _. simpl in Hx. now rewrite Ascii.eqb_refl in Hx.
    + injection H as -> H. simpl in Hx, Hx'.
      apply orb_false_elim in Hx as [_ Hx]. apply orb_false_elim in Hx' as [_ Hx'].
      destruct (IH x' Hx Hx' H) as [-> ->]. now split.
Qed.

(** And at the last occurrence in one way only. *)
Lemma split_last_unique (c : ascii) (x x' y y' : string) :
  has_char c y = false -> has_char c y' = false ->
  x +:+ String c y = x' +:+ String c y' -> x = x' /\ y = y'.
Proof.
  intros Hy Hy'. revert x'. induction x as [|a x IH]; intros x' H.
  - destruct x' as [|a' x']; [injection H as ->; now split|].
    injection H as _ ->. rewrite has_char_app in Hy. simpl in Hy.
    rewrite Ascii.eqb_refl, orb_true_r in Hy. discriminate Hy.
  - destruct x' as [|a' x'].
    + injection H as _ <-. rewrite has_char_app in Hy'. simpl in Hy'.
      rewrite Ascii.eqb_refl, orb_true_r in Hy'. discriminate Hy'.
    + injection H as -> H. destruct (IH x' H) as [-> ->]. now split.
Qed.

Lemma all_chars_app (p : ascii -> bool) (a b : string) :
  all_chars p (a +:+ b) = all_chars p a && all_chars p b.
Proof.
  induction a as [|x a IH]; [reflexivity|]. simpl. now rewrite IH, andb_assoc.
Qed.

Lemma all_chars_has_char (p : ascii -> bool) (c : ascii) (s : string) :
  all_chars p s = true -> p c = false -> has_char c s = false.
Proof.
  intros Hs Hc. induction s as [|a s IH]; [reflexivity|].
  simpl in Hs. apply andb_prop in Hs as [Ha Hs]. simpl. rewrite (IH Hs), orb_false_r.
  apply Ascii.eqb_neq. intros ->. congruence.
Qed.

Lemma all_chars_weaken (p q : ascii -> bool) (s : string) :
  (forall a, p a = true -> q a = true) -> all_chars p s = true -> all_chars q s = true.
Proof.
  intros Hpq. induction s as [|a s IH]; [reflexivity|]. simpl. intros H.
  apply andb_prop in H as [Ha Hs]. now rewrite (Hpq a Ha), IH.
Qed.

Lemma has_char_startswith (x0 : ascii) (p s : string) :
  has_char x0 s = false -> startswith (String x0 p) s = false.
Proof.
  destruct s as [|a s]; [reflexivity|]. simpl. intros H.
  apply orb_false_elim in H as [H _]. now rewrite startswith_cons, Ascii.eqb_sym, H.
Qed.

(** ** Matches, taken apart *)

Lemma sem_lit_inv (l a : string) (c c' : caps) : sem (Lit l) a c c' -> a = l /\ c' = c.
Proof. intros H. inversion H; subst. now split. Qed.

Lemma sem_star_cls_inv (g : bool) (p : ascii -> bool) (a : string) (c c' : caps) :
  sem (Star g (Cls p)) a c c' -> all_chars p a = true /\ c' = c.
Proof.
  intros H. remember (Star g (Cls p)) as r eqn:Er.
  induction H as [| | | | | | | | |g' r' a1 a2 c c1 c2 Hne H1 _ H2 IH2|]; try discriminate Er.
  - now split.
  - injection Er as -> ->. destruct (IH2 eq_refl) as [Ha2 ->].
    inversion H1; subst. split; [|reflexivity].
    rewrite all_chars_app, Ha2. simpl. now rewrite H0.
Qed.

Lemma sem_star_cls_intro (g : bool) (p : ascii -> bool) (a : string) (c : caps) :
  all_chars p a = true -> sem (Star g (Cls p)) a c c.
Proof.
  induction a as [|x a IH]; intros H; [apply sem_star_nil|].
  simpl in H. apply andb_prop in H as [Hx Ha].
  change (String x a) with (chr x +:+ a).
  apply sem_star_cons with (c1 := c); [discriminate | now apply sem_cls | now apply IH].
Qed.

Lemma sem_image_ext_inv (a : string) (c c' : caps) :
  sem image_ext a c c' -> In a image_extensions /\ c' = c.
Proof.
  unfold image_ext, image_extensions. intros H.
  repeat match goal with
         | H : sem (Alt _ _) _ _ _ |- _ => inversion H; subst; clear H
         | H : sem (Cat _ _) _ _ _ |- _ => inversion H; subst; clear H
         | H : sem (Opt _) _ _ _ |- _ => inversion H; subst; clear H
         | H : sem (Lit _) _ _ _ |- _ => inversion H; subst; clear H
         end; cbn; auto 10.
Qed.

Lemma sem_image_ext_intro (a : string) (c : caps) :
  In a image_extensions -> sem image_ext a c c.
Proof.
  unfold image_ext, image_extensions. cbn [In].
  intros [<-|[<-|[<-|[<-|[<-|[]]]]]].
  - apply sem_alt_l, sem_lit.
  - apply sem_alt_r, sem_alt_l.
    apply (sem_cat _ _ "jp" "g" c c c); [apply sem_lit|].
    apply (sem_cat _ _ "" "g" c c c); [apply sem_opt_none | apply sem_lit].
  - apply sem_alt_r, sem_alt_l.
    apply (sem_cat _ _ "jp" "eg" c c c); [apply sem_lit|].
    apply (sem_cat _ _ "e" "g" c c c); [apply sem_opt_some, sem_lit | apply sem_lit].
  - apply sem_alt_r, sem_alt_r, sem_alt_l, sem_lit.
  - apply sem_alt_r, sem_alt_r, sem_alt_r, sem_lit.
Qed.

Lemma sem_pdf_ext_inv (a : string) (c c' : caps) :
  sem (Alt (Lit "pdf") (Lit "PDF")) a c c' -> (a = "pdf" \/ a = "PDF") /\ c' = c.
Proof.
  intros H. inversion H as [| | | |? ? ? ? ? H1|? ? ? ? ? H1| | | | |]; subst;
    apply sem_lit_inv in H1 as [-> ->]; auto.
Qed.

Lemma sem_cat_inv (r1 r2 : regex) (a : string) (c c' : caps) :
  sem (Cat r1 r2) a c c' ->
  exists a1 a2 c1, a = a1 +:+ a2 /\ sem r1 a1 c c1 /\ sem r2 a2 c1 c'.
Proof. intros H. inversion H; subst. eauto 6. Qed.

Lemma sem_grp_inv (n : nat) (r : regex) (a : string) (c c' : caps) :
  sem (Grp n r) a c c' -> exists c1, sem r a c c1 /\ c' = (n, a) :: c1.
Proof. intros H. inversion H; subst. eauto. Qed.

Lemma sem_cls_inv (p : ascii -> bool) (a : string) (c c' : caps) :
  sem (Cls p) a c c' -> exists x, a = chr x /\ p x = true /\ c' = c.
Proof. intros H. inversion H; subst. eauto. Qed.

Lemma sem_opt_inv (r : regex) (a : string) (c c' : caps) :
  sem (Opt r) a c c' -> sem r a c c' \/ (a = "" /\ c' = c).
Proof. intros H. inversion H; subst; auto. Qed.

(** A match of an embed pattern: an optional [!], the brackets, an optional
    directory part that ends in a slash, and the file name, which is group 1. *)
Lemma sem_embed_inv (ext : regex) (a : string) (c c' : caps) :
  sem (embed_re ext) a c c' ->
  exists (e dir nm ex : string) (c1 : caps),
    a = e +:+ "[[" +:+ dir +:+ (nm +:+ "." +:+ ex) +:+ "]]"
    /\ (e = "" \/ e = "!")
    /\ (dir = "" \/ exists x, dir = x +:+ "/" /\ all_chars (none_of "|[].") x = true)
    /\ nm <> "" /\ all_chars (none_of "/]") nm = true
    /\ sem ext ex c c1
    /\ c' = (1, nm +:+ "." +:+ ex) :: (2, ex) :: c1.
Proof.
  unfold embed_re, Plus. intros H.
  apply sem_cat_inv in H as (e & a1 & ce & -> & He & H).
  apply sem_cat_inv in H as (b1 & a2 & cb & -> & Hb & H).
  apply sem_lit_inv in Hb as [-> ->].
  apply sem_cat_inv in H as (dir & a3 & cd & -> & Hdir & H).
  apply sem_cat_inv in H as (g1 & b2 & cg & -> & Hg & Hb2).
  apply sem_lit_inv in Hb2 as [-> ->].
  apply sem_grp_inv in Hg as (cg' & Hg & ->).
  apply sem_cat_inv in Hg as (nm & a4 & cn & -> & Hnm & H).
  apply sem_cat_inv in Hnm as (n1 & n2 & cn1 & -> & Hn1 & Hn2).
  apply sem_cls_inv in Hn1 as (x & -> & Hx & ->).
  apply sem_star_cls_inv in Hn2 as [Hn2 ->].
  apply sem_cat_inv in H as (dot & ex & cdot & -> & Hdot & Hex).
  apply sem_lit_inv in Hdot as [-> ->].
  apply sem_grp_inv in Hex as (c1 & Hex & ->).
  assert (He' : (e = "" \/ e = "!") /\ ce = c).
  { apply sem_opt_inv in He as [He|[-> ->]]; [|now split; [left|]].
    apply sem_lit_inv in He as [-> ->]. now split; [right|]. }
  destruct He' as [He' ->].
  assert (Hdir' : (dir = "" \/ exists x, dir = x +:+ "/" /\ all_chars (none_of "|[].") x = true)
                  /\ cd = c).
  { apply sem_opt_inv in Hdir as [Hd|[-> ->]]; [|now split; [left|]].
    apply sem_cat_inv in Hd as (d1 & d2 & cd1 & -> & Hd1 & Hd2).
    apply sem_star_cls_inv in Hd1 as [Hd1 ->]. apply sem_lit_inv in Hd2 as [-> ->].
    split; [right; now exists d1 | reflexivity]. }
  destruct Hdir' as [Hdir' ->].
  exists e, dir, (chr x +:+ n2), ex, c1. repeat split; try assumption.
  - discriminate.
  - cbn [String.append chr all_chars]. now rewrite Hx, Hn2.
Qed.

Lemma sem_embed_intro (ext : regex) (e dir nm ex : string) (c c1 : caps) :
  (e = "" \/ e = "!") ->
  (dir = "" \/ exists x, dir = x +:+ "/" /\ all_chars (none_of "|[].") x = true) ->
  nm <> "" -> all_chars (none_of "/]") nm = true ->
  sem ext ex c c1 ->
  sem (embed_re ext) (e +:+ "[[" +:+ dir +:+ (nm +:+ "." +:+ ex) +:+ "]]") c
      ((1, nm +:+ "." +:+ ex) :: (2, ex) :: c1).
Proof.
  intros He Hdir Hne Hnm Hext. unfold embed_re, Plus.
  apply sem_cat with (c1 := c).
  { destruct He as [->| ->]; [apply sem_opt_none | apply sem_opt_some, sem_lit]. }
  apply sem_cat with (c1 := c); [apply sem_lit|].
  apply sem_cat with (c1 := c).
  { destruct Hdir as [->|(x & -> & Hx)]; [apply sem_opt_none|].
    apply sem_opt_some. apply sem_cat with (c1 := c); [now apply sem_star_cls_intro | apply sem_lit]. }
  apply sem_cat with (c1 := (1, nm +:+ "." +:+ ex) :: (2, ex) :: c1); [|apply sem_lit].
  apply sem_grp. apply sem_cat with (c1 := c).
  - destruct nm as [|x nm]; [contradiction|].
    simpl in Hnm. apply andb_prop in Hnm as [Hx Hnm].
    change (String x nm) with (chr x +:+ nm).
    apply sem_cat with (c1 := c); [now apply sem_cls | now apply sem_star_cls_intro].
  - apply sem_cat with (c1 := c); [apply sem_lit | now apply sem_grp].
Qed.

(** ** Where the link patterns cannot match *)

(** A run of class characters followed by [c] cannot be laid over a text [w]
    that holds a character outside the class and does not hold [c]. *)
Lemma class_run_stops (p : ascii -> bool) (g w u z : string) (c x : ascii) :
  all_chars p g = true -> p x = false ->
  has_char x w = true -> has_char c w = false ->
  g +:+ String c u = w +:+ z -> False.
Proof.
  intros Hg Hx Hxw Hcw H.
  pose proof (all_chars_has_char p x g Hg Hx) as Hxg.
  apply append_eq_append in H as [(m & -> & H)|(m & -> & _)].
  - destruct m as [|y m].
    + rewrite append_nil_r in Hxw. congruence.
    + injection H as <- _. rewrite has_char_app in Hcw. simpl in Hcw.
      rewrite Ascii.eqb_refl, orb_true_r in Hcw. discriminate Hcw.
  - rewrite has_char_app, Hxw in Hxg. discriminate Hxg.
Qed.

Lemma link_re_none (w : string) :
  has_char "." w = true -> has_char "]" w = false ->
  run LINK_RE ("[[" +:+ w +:+ "]]") [] = [].
Proof.
  intros Hdot Hbr. apply run_none. intros a u c' H E. unfold LINK_RE in H.
  apply sem_cat_inv in H as (b & a1 & cb & -> & Hb & H).
  apply sem_lit_inv in Hb as [-> ->].
  apply sem_cat_inv in H as (g & b2 & cg & -> & Hg & Hb2).
  apply sem_lit_inv in Hb2 as [-> ->].
  apply sem_grp_inv in Hg as (cg' & Hg & ->).
  apply sem_star_cls_inv in Hg as [Hg ->].
  rewrite !append_assoc in E. injection E as E.
  symmetry in E. now apply (class_run_stops _ _ _ _ _ _ "." Hg eq_refl Hdot Hbr) in E.
Qed.

Lemma link_description_re_none (w : string) :
  has_char "." w = true -> has_char "|" w = false ->
  run LINK_DESCRIPTION_RE ("[[" +:+ w +:+ "]]") [] = [].
Proof.
  intros Hdot Hbar. apply run_none. intros a u c' H E. unfold LINK_DESCRIPTION_RE in H.
  apply sem_cat_inv in H as (b & a1 & cb & -> & Hb & H).
  apply sem_lit_inv in Hb as [-> ->].
  apply sem_cat_inv in H as (g & a2 & cg & -> & Hg & H).
  apply sem_grp_inv in Hg as (cg' & Hg & ->).
  apply sem_star_cls_inv in Hg as [Hg ->].
  apply sem_cat_inv in H as (b2 & a3 & cb2 & -> & Hb2 & _).
  apply sem_lit_inv in Hb2 as [-> ->].
  rewrite !append_assoc in E. injection E as E.
  symmetry in E. now apply (class_run_stops _ _ _ _ _ _ "." Hg eq_refl Hdot Hbar) in E.
Qed.

Lemma contains_brackets_tail (w : string) :
  has_char "[" w = false -> contains "[[" (String "[" (w +:+ "]]")) = false.
Proof.
  intros H.
  assert (Hw : has_char "[" (w +:+ "]]") = false) by (rewrite has_char_app, H; reflexivity).
  cbn [contains]. rewrite startswith_cons, (has_char_startswith "[" "" _ Hw).
  now rewrite (has_char_first_absent "[" "[" _ Hw).
Qed.

(** A pattern that starts with two brackets and does not match at the
    brackets of [e[[w]]] leaves that text alone. *)
Lemma sub_brackets_none (r : regex) (tpl : list piece) (bang : bool) (w : string) :
  has_char "[" w = false ->
  run (Cat (Lit "[[") r) ("[[" +:+ w +:+ "]]") [] = [] ->
  sub (Cat (Lit "[[") r) tpl ((if bang then "!" else "") +:+ "[[" +:+ w +:+ "]]")
  = (if bang then "!" else "") +:+ "[[" +:+ w +:+ "]]".
Proof.
  intros Hw Hrun.
  assert (Hrest : sub (Cat (Lit "[[") r) tpl ("[[" +:+ w +:+ "]]") = "[[" +:+ w +:+ "]]").
  { change ("[[" +:+ w +:+ "]]") with (String "[" (String "[" (w +:+ "]]"))) in *.
    rewrite sub_cons_none by now apply match_here_none.
    f_equal. apply (sub_absent _ _ "[[").
    - intros u Hu. apply run_lit_cat_none, contains_startswith, Hu.
    - now apply contains_brackets_tail. }
  destruct bang; [|exact Hrest].
  change ("!" +:+ "[[" +:+ w +:+ "]]") with (String "!" ("[[" +:+ w +:+ "]]")).
  rewrite sub_cons_none by (apply match_here_none, run_lit_cat_none; reflexivity).
  now rewrite Hrest.
Qed.

Lemma sub_embed_brackets_none (ext : regex) (tpl : list piece) (w : string) :
  has_char "[" w = false ->
  run (embed_re ext) ("[[" +:+ w +:+ "]]") [] = [] ->
  sub (embed_re ext) tpl ("[[" +:+ w +:+ "]]") = "[[" +:+ w +:+ "]]".
Proof.
  intros Hw Hrun.
  change ("[[" +:+ w +:+ "]]") with (String "[" (String "[" (w +:+ "]]"))) in *.
  rewrite sub_cons_none by now apply match_here_none.
  f_equal. apply (sub_absent _ _ "[[").
  - intros u Hu. now apply run_embed_none.
  - now apply contains_brackets_tail.
Qed.

(** ** Where the image pattern matches *)

Lemma take_all (s : string) : take (String.length s) s = s.
Proof. induction s as [|a s IH]; [reflexivity|]. simpl. now rewrite IH. Qed.

Lemma scan_skip_all {A : Type} (r : regex) (emit : string -> caps -> A -> A)
    (keep : ascii -> A -> A) (stop : A) (t : string) :
  scan r emit keep stop (String.length t) t = scan r emit keep stop 0 "".
Proof. induction t as [|a t IH]; [reflexivity | exact IH]. Qed.

(** A match that covers the whole text is replaced by the template. *)
Lemma sub_whole_match (r : regex) (tpl : list piece) (s : string) (c : caps) :
  s <> "" ->
  match_here false r s = Some (String.length s, c) ->
  run r "" [] = [] ->
  sub r tpl s = expand tpl ((0, s) :: c).
Proof.
  intros Hne Hm Hend. destruct s as [|a t]; [contradiction|].
  unfold sub. cbn [scan]. rewrite Hm. cbn [String.length Nat.sub].
  rewrite Nat.sub_0_r, scan_skip_all. cbn [scan].
  rewrite (match_here_none r "" Hend), append_nil_r.
  change (take (S (String.length t)) (String a t)) with (String a (take (String.length t) t)).
  now rewrite take_all.
Qed.

Lemma in_image_extensions_chars (ext : string) :
  In ext image_extensions ->
  has_char "/" ext = false /\ has_char "]" ext = false /\ has_char "." ext = false
  /\ has_char "[" ext = false /\ has_char "|" ext = false
  /\ all_chars (none_of "/]") ext = true /\ ext <> "pdf" /\ ext <> "PDF".
Proof.
  unfold image_extensions. cbn [In].
  intros [<-|[<-|[<-|[<-|[<-|[]]]]]]; repeat split; try reflexivity; discriminate.
Qed.

Lemma dir_part_chars (dir : string) :
  dir = "" \/ (exists x, dir = x +:+ "/" /\ all_chars (none_of "|[].") x = true) ->
  has_char "]" dir = false /\ has_char "[" dir = false
  /\ has_char "|" dir = false /\ has_char "." dir = false.
Proof.
  intros [->|(x & -> & Hx)]; [repeat split; reflexivity|].
  rewrite !has_char_app.
  rewrite (all_chars_has_char _ "]" x Hx eq_refl), (all_chars_has_char _ "[" x Hx eq_refl),
    (all_chars_has_char _ "|" x Hx eq_refl), (all_chars_has_char _ "." x Hx eq_refl).
  repeat split; reflexivity.
Qed.

Section FileName.

Variables stem ext : string.
Hypothesis stem_not_empty : stem <> "".
Hypothesis stem_chars : all_chars (none_of "/]|") stem = true.
Hypothesis ext_image : In ext image_extensions.

Lemma stem_name_chars : all_chars (none_of "/]") stem = true.
Proof.
  apply (all_chars_weaken (none_of "/]|")); [|exact stem_chars].
  intros a. unfold none_of. cbn [has_char].
  destruct (Ascii.eqb "/" a), (Ascii.eqb "]" a); cbn; congruence.
Qed.

Lemma name_has_no (c : ascii) :
  none_of "/]|" c = false -> has_char c ext = false ->
  c <> "."%char -> has_char c (stem +:+ String "." ext) = false.
Proof.
  intros Hc He Hdot. rewrite has_char_app. cbn [has_char].
  rewrite (all_chars_has_char _ c stem stem_chars Hc), He, orb_false_r. cbn [orb].
  apply Ascii.eqb_neq. congruence.
Qed.

(** The groups of the image pattern on an embed of the file name, with or
    without a directory part in front: the match covers the embed and group 1
    is the file name. *)
Lemma image_re_match (bang : bool) (dirpart : string) :
  dirpart = "" \/ (exists d, dirpart = d +:+ "/" /\ all_chars (none_of "|[].") d = true) ->
  let s := (if bang then "!" else "") +:+ "[[" +:+ dirpart +:+ (stem +:+ "." +:+ ext) +:+ "]]" in
  exists c', match_here false IMAGE_RE s = Some (String.length s, c')
             /\ group 1 c' = stem +:+ "." +:+ ext.
Proof.
  intros Hdp s.
  destruct (in_image_extensions_chars ext ext_image)
    as (Hes & Heb & Hed & Heo & Hep & Hec & _).
  destruct (dir_part_chars dirpart Hdp) as (Hdb & _).
  apply (match_here_determined IMAGE_RE s s
           [(1, stem +:+ "." +:+ ext); (2, ext)]
           (fun c' => group 1 c' = stem +:+ "." +:+ ext)); [|reflexivity|].
  - apply sem_embed_intro; try assumption.
    + destruct bang; [now right | now left].
    + apply stem_name_chars.
    + now apply sem_image_ext_intro.
  - intros a' u c' Hsem E.
    apply sem_embed_inv in Hsem as (e' & dir & nm & ex & c1 & -> & He' & Hdir & _ & Hnm & Hex & ->).
    apply sem_image_ext_inv in Hex as [Hex ->].
    destruct (in_image_extensions_chars ex Hex) as (Hxs & Hxb & _).
    destruct (dir_part_chars dir Hdir) as (Hrb & _).
    unfold s in E. rewrite !append_assoc in E.
    assert (E' : (dirpart +:+ stem +:+ String "." ext) +:+ String "]" "]"
                 = (dir +:+ nm +:+ String "." ex) +:+ String "]" (String "]" u)).
    { rewrite !append_assoc.
      destruct bang, He' as [->| ->]; cbn [String.append] in E |- *;
        try discriminate E; now injection E. }
    clear E. apply split_first_unique in E' as [E Eu].
    + injection Eu as <-. split; [reflexivity|]. cbn [group Nat.eqb].
      cbn [String.append].
      assert (Hl : has_char "/" (stem +:+ String "." ext) = false)
        by (apply name_has_no; [reflexivity | assumption | discriminate]).
      assert (Hr : has_char "/" (nm +:+ String "." ex) = false).
      { rewrite has_char_app. cbn [has_char].
        now rewrite (all_chars_has_char _ "/" nm Hnm eq_refl), Hxs. }
      destruct Hdp as [->|(d & -> & _)], Hdir as [->|(x & -> & _)].
      * now symmetry.
      * cbn [String.append] in E. rewrite E, append_assoc, has_char_app in Hl.
        cbn [String.append has_char Ascii.eqb Bool.eqb] in Hl.
        rewrite orb_true_r in Hl. discriminate Hl.
      * cbn [String.append] in E. rewrite <- E, append_assoc, has_char_app in Hr.
        cbn [String.append has_char Ascii.eqb Bool.eqb] in Hr.
        rewrite orb_true_r in Hr. discriminate Hr.
      * rewrite !append_assoc in E. cbn [String.append] in E.
        apply split_last_unique in E as [_ E]; [now symmetry | assumption | assumption].
    + rewrite !has_char_app. cbn [has_char].
      rewrite Hdb, (all_chars_has_char _ "]" stem stem_chars eq_refl), Heb. reflexivity.
    + rewrite !has_char_app. cbn [has_char].
      rewrite Hrb, (all_chars_has_char _ "]" nm Hnm eq_refl), Hxb. reflexivity.
Qed.

(** The PDF pattern finds nothing in the link to the image. *)
Lemma pdf_re_none :
  run PDF_RE ("[[" +:+ ("org-roam-images:" +:+ stem +:+ "." +:+ ext) +:+ "]]") [] = [].
Proof.
  destruct (in_image_extensions_chars ext ext_image)
    as (Hes & Heb & Hed & Heo & Hep & Hec & Hn1 & Hn2).
  apply run_none. intros a u c' Hsem E. unfold PDF_RE in Hsem.
  apply sem_embed_inv in Hsem as (e' & dir & nm & ex & c1 & -> & He' & Hdir & _ & Hnm & Hex & ->).
  apply sem_pdf_ext_inv in Hex as [Hex ->].
  destruct (dir_part_chars dir Hdir) as (Hrb & _).
  rewrite !append_assoc in E.
  assert (E' : ("org-roam-images:" +:+ stem +:+ String "." ext) +:+ String "]" "]"
               = (dir +:+ nm +:+ String "." ex) +:+ String "]" (String "]" u)).
  { rewrite !append_assoc.
    destruct He' as [->| ->]; cbn [String.append] in E |- *;
      try discriminate E; now injection E. }
  clear E. apply split_first_unique in E' as [E _].
  - rewrite <- !append_assoc in E.
    apply split_last_unique in E as [_ E].
    + subst ex. now destruct Hex.
    + exact Hed.
    + now destruct Hex as [->| ->].
  - rewrite !has_char_app. cbn [has_char].
    rewrite (all_chars_has_char _ "]" stem stem_chars eq_refl), Heb. reflexivity.
  - rewrite !has_char_app. cbn [has_char].
    rewrite Hrb, (all_chars_has_char _ "]" nm Hnm eq_refl).
    now destruct Hex as [->| ->].
Qed.

End FileName.

Lemma replace_skip_prefix (x0 : ascii) (old' new p s : string) :
  has_char x0 p = false ->
  replace (String x0 old') new (p +:+ s) = p +:+ replace (String x0 old') new s.
Proof.
  unfold replace. induction p as [|a p IH]; intros H; [reflexivity|].
  simpl in H. apply orb_false_elim in H as [Ha Hp].
  change (String a p +:+ s) with (String a (p +:+ s)). cbn [replace_go].
  rewrite startswith_cons, Ascii.eqb_sym, Ha. cbn [andb String.append].
  now rewrite IH.
Qed.

End ImageEmbeds.

(** * Further properties of the code *)

(** ** Restoring comments *)

Section RestoringComments.

(** X1: Restoring twice is restoring once. *)
Theorem restore_comments_idempotent (t : string) :
  restore_comments (restore_comments t) = restore_comments t.
Proof.
  rewrite !restore_comments_replace. apply replace_absent, replace_marker_free.
Qed.

(** X2: [restore_comments] works line by line, and the lines do not matter: the
    result is the text with every marker replaced. *)
Theorem restore_comments_whole_text (t : string) :
  restore_comments t = replace COMMENT_MARKER "# " t.
Proof. apply restore_comments_replace. Qed.

End RestoringComments.

(** ** The lines of the frontmatter *)

Section FrontmatterByLines.

Lemma cons_head_app (a : ascii) (l1 l2 : list string) :
  l1 <> [] -> cons_head a (l1 ++ l2) = cons_head a l1 ++ l2.
Proof. destruct l1; [contradiction | reflexivity]. Qed.

(** Cutting at a character cuts the two sides of each occurrence apart. *)
Lemma split_char_app (a : ascii) (x y : string) :
  split (chr a) (x +:+ String a y) = split (chr a) x ++ split (chr a) y.
Proof.
  unfold split, chr. induction x as [|b x IH].
  - change ("" +:+ String a y) with (String a y). cbn [split_go].
    now rewrite startswith_cons, Ascii.eqb_refl, startswith_nil.
  - change (String b x +:+ String a y) with (String b (x +:+ String a y)).
    cbn [split_go]. rewrite !startswith_cons, !startswith_nil, !andb_true_r.
    destruct (Ascii.eqb a b).
    + cbn [String.length Nat.sub]. now rewrite IH.
    + rewrite IH. apply cons_head_app, split_go_not_nil.
Qed.

Lemma split_join_char (a : ascii) (l0 : string) (lines : list string) :
  Forall (fun l => has_char a l = false) (l0 :: lines) ->
  split (chr a) (join (chr a) (l0 :: lines)) = l0 :: lines.
Proof.
  revert l0. induction lines as [|l1 lines IH]; intros l0 H.
  - inversion H; subst. apply split_absent. now apply has_char_first_absent.
  - inversion H as [|? ? H0 Hrest]; subst.
    rewrite join_cons by discriminate.
    change (chr a +:+ join (chr a) (l1 :: lines)) with (String a (join (chr a) (l1 :: lines))).
    rewrite split_char_app, (IH l1 Hrest).
    rewrite (split_absent (chr a) l0) by now apply has_char_first_absent.
    reflexivity.
Qed.

(** [get_keys] on a note given by its lines runs the loop over the lines
    behind the delimiter. *)
Lemma get_keys_note_of_lines (lines : list string) :
  Forall (fun l => has_char LF l = false) lines ->
  get_keys (note_of_lines lines) = get_keys_loop lines ∅.
Proof.
  intros H. unfold get_keys, note_of_lines, nl.
  change (String LF "") with (chr LF).
  rewrite split_join_char by (constructor; [reflexivity | exact H]).
  reflexivity.
Qed.

Lemma get_keys_loop_app (l1 l2 : list string) (fm : gmap string value) :
  Forall (fun l => has_char LF l = false) l1 ->
  get_keys_loop (l1 ++ l2) fm = get_keys_loop l2 (get_keys_loop l1 fm).
Proof.
  revert fm. induction l1 as [|line l1 IH]; intros fm H; [reflexivity|].
  inversion H as [|? ? Hline Hrest]; subst.
  change ((line :: l1) ++ l2) with (line :: (l1 ++ l2)).
  rewrite !get_keys_loop_cons.
  assert (Hne : String.eqb line ("---" +:+ nl) = false).
  { apply String.eqb_neq. intros ->. discriminate Hline. }
  rewrite Hne. cbv zeta.
  destruct (String.eqb (strip (join ":" (List.tl (split ":" line)))) ""); now apply IH.
Qed.

Lemma get_keys_loop_no_colon (line : string) (rest : list string) (fm : gmap string value) :
  has_char ":" line = false -> has_char LF line = false ->
  get_keys_loop (line :: rest) fm = get_keys_loop rest fm.
Proof.
  intros Hc Hl. rewrite get_keys_loop_cons.
  assert (Hne : String.eqb line ("---" +:+ nl) = false).
  { apply String.eqb_neq. intros ->. discriminate Hl. }
  rewrite Hne. cbv zeta.
  rewrite (split_absent ":" line) by now apply has_char_first_absent.
  reflexivity.
Qed.

Lemma get_keys_loop_key_value (key raw : string) (rest : list string) (fm : gmap string value) :
  has_char ":" key = false -> has_char LF key = false -> has_char LF raw = false ->
  get_keys_loop ((key +:+ ":" +:+ raw) :: rest) fm
  = if String.eqb (strip raw) "" then get_keys_loop rest fm
    else get_keys_loop rest (<[key := frontmatter_value key (strip raw)]> fm).
Proof.
  intros Hk Hkl Hr. rewrite get_keys_loop_cons.
  assert (Hne : String.eqb (key +:+ ":" +:+ raw) ("---" +:+ nl) = false).
  { apply String.eqb_neq. intros E. apply (f_equal (has_char LF)) in E.
    rewrite !has_char_app, Hkl, Hr in E. discriminate E. }
  rewrite Hne. change (key +:+ ":" +:+ raw) with (key +:+ String ":" raw).
  pose proof (split_char_first ":" key raw Hk) as Hs. unfold chr in Hs.
  rewrite Hs. cbn [List.hd List.tl]. rewrite (join_split ":" "" raw). reflexivity.
Qed.

(** X3: A line without a colon, wherever it stands behind the opening delimiter,
    gives no key: the mapping is that of the note without the line.  The
    closing delimiter and empty lines are such lines. *)
Theorem get_keys_ignores_line_without_colon (before after : list string) (line : string) :
  Forall (fun l => has_char LF l = false) (before ++ line :: after) ->
  has_char ":" line = false ->
  get_keys (note_of_lines (before ++ line :: after))
  = get_keys (note_of_lines (before ++ after)).
Proof.
  intros H Hc. pose proof H as H'.
  apply Forall_app in H' as [Hb Ha]. inversion Ha as [|? ? Hl Ha']; subst.
  rewrite !get_keys_note_of_lines by (try exact H; apply Forall_app; now split).
  rewrite !get_keys_loop_app by exact Hb.
  now rewrite get_keys_loop_no_colon.
Qed.

(** X4: A line with a key and nothing but spaces behind the colon gives no key. *)
Theorem get_keys_ignores_empty_value (before after : list string) (key raw : string) :
  Forall (fun l => has_char LF l = false) (before ++ (key +:+ ":" +:+ raw) :: after) ->
  has_char ":" key = false ->
  strip raw = "" ->
  get_keys (note_of_lines (before ++ (key +:+ ":" +:+ raw) :: after))
  = get_keys (note_of_lines (before ++ after)).
Proof.
  intros H Hc Hv. pose proof H as H'.
  apply Forall_app in H' as [Hb Ha]. inversion Ha as [|? ? Hl Ha']; subst.
  rewrite !has_char_app in Hl. apply orb_false_elim in Hl as [Hkl Hl].
  cbn [has_char] in Hl. apply orb_false_elim in Hl as [_ Hrl].
  rewrite !get_keys_note_of_lines by (try exact H; apply Forall_app; now split).
  rewrite !get_keys_loop_app by exact Hb.
  rewrite get_keys_loop_key_value by assumption. now rewrite Hv.
Qed.

(** X5: The last line of the note, when it is a key with a value, sets that key,
    over whatever an earlier line gave it, and leaves every other key as the
    lines before it left it. *)
Theorem get_keys_last_line_sets_key (lines : list string) (key raw : string) :
  Forall (fun l => has_char LF l = false) lines ->
  has_char ":" key = false -> has_char LF key = false -> has_char LF raw = false ->
  strip raw <> "" ->
  get_keys (note_of_lines (lines ++ [key +:+ ":" +:+ raw]))
  = <[key := frontmatter_value key (strip raw)]> (get_keys (note_of_lines lines)).
Proof.
  intros H Hk Hkl Hr Hv.
  assert (Hline : has_char LF (key +:+ ":" +:+ raw) = false)
    by (rewrite !has_char_app, Hkl, Hr; reflexivity).
  rewrite (get_keys_note_of_lines lines H).
  rewrite get_keys_note_of_lines by (apply Forall_app; split; [exact H | now constructor]).
  rewrite get_keys_loop_app by exact H.
  rewrite get_keys_loop_key_value by assumption.
  apply String.eqb_neq in Hv. now rewrite Hv.
Qed.

(** X6: A text whose first line is not the delimiter has no frontmatter. *)
Theorem get_keys_without_opening_delimiter (content : string) :
  content <> "---" ->
  startswith ("---" +:+ nl) content = false ->
  get_keys content = ∅.
Proof.
  intros Hne Hs. unfold get_keys.
  pose proof (join_split LF "" content) as Hj. fold nl in Hj.
  destruct (split nl content) as [|first rest]; [reflexivity|].
  destruct (String.eqb first "---") eqn:E; [|reflexivity].
  apply String.eqb_eq in E. subst first. exfalso.
  destruct rest as [|l1 rest].
  - now apply Hne.
  - rewrite join_cons in Hj by discriminate. rewrite <- Hj in Hs.
    rewrite <- append_assoc, startswith_app in Hs. discriminate Hs.
Qed.

End FrontmatterByLines.

(** ** The values of tags, aliases and title *)

Section FrontmatterValues.

Lemma cut_at_first (c : ascii) (l : string) :
  has_char c l = true -> exists k raw, l = k +:+ String c raw /\ has_char c k = false.
Proof.
  induction l as [|a l IH]; intros H; [discriminate H|].
  simpl in H. destruct (Ascii.eqb a c) eqn:E.
  - apply Ascii.eqb_eq in E. subst a. now exists "", l.
  - cbn [orb] in H. destruct (IH H) as (k & raw & -> & Hk).
    exists (String a k), raw. split; [reflexivity|]. simpl. now rewrite E, Hk.
Qed.

(** One line of the frontmatter is passed over or sets the key in front of
    its first colon. *)
Lemma get_keys_loop_line (line : string) (rest : list string) (fm : gmap string value) :
  has_char LF line = false ->
  get_keys_loop (line :: rest) fm = get_keys_loop rest fm
  \/ exists k raw v, line = k +:+ ":" +:+ raw
       /\ get_keys_loop (line :: rest) fm = get_keys_loop rest (<[k := v]> fm).
Proof.
  intros Hl. destruct (has_char ":" line) eqn:Hc.
  - destruct (cut_at_first ":" line Hc) as (k & raw & -> & Hk).
    rewrite has_char_app in Hl. apply orb_false_elim in Hl as [Hkl Hl].
    cbn [has_char] in Hl. apply orb_false_elim in Hl as [_ Hrl].
    change (k +:+ String ":" raw) with (k +:+ ":" +:+ raw).
    rewrite (get_keys_loop_key_value k raw rest fm Hk Hkl Hrl).
    destruct (String.eqb (strip raw) ""); [now left|].
    right. now exists k, raw, (frontmatter_value k (strip raw)).
  - left. now apply get_keys_loop_no_colon.
Qed.

(** Lines that do not start with a key and a colon leave the key alone. *)
Lemma get_keys_loop_other_lines (key : string) (lines : list string) :
  Forall (fun l => has_char LF l = false) lines ->
  Forall (fun l => startswith (key +:+ ":") l = false) lines ->
  forall fm, get_keys_loop lines fm !! key = fm !! key.
Proof.
  induction lines as [|line lines IH]; intros Hl Hs fm; [reflexivity|].
  inversion Hl as [|? ? Hline Hl']; subst. inversion Hs as [|? ? Hstart Hs']; subst.
  destruct (get_keys_loop_line line lines fm Hline) as [->|(k & raw & v & -> & ->)].
  - now apply IH.
  - rewrite (IH Hl' Hs'). apply lookup_insert_ne. intros ->.
    rewrite <- append_assoc, startswith_app in Hstart. discriminate Hstart.
Qed.

(** The value a line gives its key is the value the mapping has for the
    key, when no later line starts with the key and a colon. *)
Lemma get_keys_line_value (before after : list string) (key raw : string) :
  Forall (fun l => has_char LF l = false) (before ++ (key +:+ ":" +:+ raw) :: after) ->
  Forall (fun l => startswith (key +:+ ":") l = false) after ->
  has_char ":" key = false -> strip raw <> "" ->
  get_keys (note_of_lines (before ++ (key +:+ ":" +:+ raw) :: after)) !! key
  = Some (frontmatter_value key (strip raw)).
Proof.
  intros H Hafter Hk Hv. pose proof H as H'.
  apply Forall_app in H' as [Hb Ha]. inversion Ha as [|? ? Hl Ha']; subst.
  rewrite !has_char_app in Hl. apply orb_false_elim in Hl as [Hkl Hl].
  cbn [has_char] in Hl. apply orb_false_elim in Hl as [_ Hrl].
  rewrite get_keys_note_of_lines by exact H.
  rewrite get_keys_loop_app by exact Hb.
  rewrite get_keys_loop_key_value by assumption.
  apply String.eqb_neq in Hv. rewrite Hv.
  rewrite (get_keys_loop_other_lines key after Ha' Hafter). apply lookup_insert_eq.
Qed.

(** C3: in the mapping [get_keys] returns, the values of [tags] and of
    [aliases] are lists whenever present and the value of [title] is a
    string whenever present.  For a line with a key and a value, in a note
    in which no later line starts with that key and a colon: the value of
    [title] is the text behind the colon, stripped, whatever it holds; the
    value of [tags] and of [aliases] is the one-element list of that text
    when the text is a scalar, one that neither starts with a bracket nor
    holds a comma, and it is the list of items when the text is cut into
    items.  [tags: tag1] gives the list of [tag1], [tags: [t1,t2]] the list
    of [t1] and [t2], and a title that starts with a bracket or holds a
    comma stays one string. *)
Theorem get_keys_tags_aliases_lists_title_string :
  (forall content : string,
      list_at (get_keys content) "tags"
      /\ list_at (get_keys content) "aliases"
      /\ str_at (get_keys content) "title")
  /\ (forall (before after : list string) (key raw : string),
        Forall (fun l => has_char LF l = false) (before ++ (key +:+ ":" +:+ raw) :: after) ->
        Forall (fun l => startswith (key +:+ ":") l = false) after ->
        strip raw <> "" ->
        let value := get_keys (note_of_lines (before ++ (key +:+ ":" +:+ raw) :: after)) !! key in
        (key = "title" -> value = Some (VStr (strip raw)))
        /\ (key = "tags" \/ key = "aliases" ->
            startswith "[" (strip raw) = false -> contains "," (strip raw) = false ->
            value = Some (VList [strip raw]))
        /\ (key = "tags" \/ key = "aliases" ->
            forall items, maybeSplitList (strip raw) = VList items ->
            value = Some (VList items)))
  /\ get_keys ("---" +:+ nl +:+ "tags: tag1" +:+ nl +:+ "---" +:+ nl)
     = {[ "tags" := VList ["tag1"] ]}
  /\ get_keys ("---" +:+ nl +:+ "tags: [t1,t2]" +:+ nl +:+ "---" +:+ nl)
     = {[ "tags" := VList ["t1"; "t2"] ]}
  /\ get_keys ("---" +:+ nl +:+ "aliases: foo" +:+ nl +:+ "title: [a, b], c" +:+ nl +:+ "---" +:+ nl)
     = {[ "aliases" := VList ["foo"]; "title" := VStr "[a, b], c" ]}.
Proof.
  split; [|split; [|repeat split; vm_compute; reflexivity]].
  - intros content. unfold get_keys.
    destruct (split nl content) as [|first rest]; [apply well_shaped_empty|].
    destruct (negb (String.eqb first "---")); [apply well_shaped_empty|].
    apply get_keys_loop_well_shaped, well_shaped_empty.
  - intros before after key raw H Hafter Hv value.
    assert (Hk : key = "title" \/ key = "tags" \/ key = "aliases" -> has_char ":" key = false)
      by (intros [->|[->| ->]]; reflexivity).
    assert (Hval : key = "title" \/ key = "tags" \/ key = "aliases" ->
                   value = Some (frontmatter_value key (strip raw))).
    { intros Hkey. subst value. apply get_keys_line_value; auto. }
    split; [|split].
    + intros ->. rewrite Hval by now left. reflexivity.
    + intros Hkey Hb Hc. rewrite Hval by now right.
      unfold frontmatter_value, maybeSplitList. rewrite Hb, Hc, andb_false_r.
      destruct Hkey as [->| ->]; reflexivity.
    + intros Hkey items Hi. rewrite Hval by now right.
      unfold frontmatter_value. destruct Hkey as [->| ->]; cbn; now rewrite Hi.
Qed.

End FrontmatterValues.

(** A scalar with a space in it stays one tag, also with further lines
    behind it. *)
Lemma get_keys_tags_aliases_lists_title_string_witness :
  get_keys (note_of_lines ["title: T"; "tags: foo bar"; "date: today"; "---"; "text"]) !! "tags"
  = Some (VList ["foo bar"]).
Proof.
  destruct get_keys_tags_aliases_lists_title_string as (_ & H & _).
  destruct (H ["title: T"] ["date: today"; "---"; "text"] "tags" " foo bar") as (_ & Hs & _).
  - repeat constructor.
  - repeat constructor.
  - discriminate.
  - apply Hs; [now left | reflexivity | reflexivity].
Defined.

Lemma get_keys_ignores_line_without_colon_witness :
  get_keys (note_of_lines (["title: A"] ++ "---" :: ["# Heading"]))
  = get_keys (note_of_lines (["title: A"] ++ ["# Heading"])).
Proof.
  apply (get_keys_ignores_line_without_colon ["title: A"] ["# Heading"] "---").
  - repeat constructor.
  - reflexivity.
Defined.

Lemma get_keys_ignores_empty_value_witness :
  get_keys (note_of_lines (["title: A"] ++ ("tags" +:+ ":" +:+ "  ") :: []))
  = get_keys (note_of_lines (["title: A"] ++ [])).
Proof.
  apply (get_keys_ignores_empty_value ["title: A"] [] "tags" "  ").
  - repeat constructor.
  - reflexivity.
  - reflexivity.
Defined.

Lemma get_keys_last_line_sets_key_witness :
  get_keys (note_of_lines (["tags: a"] ++ ["tags" +:+ ":" +:+ " b, c"]))
  = <[ "tags" := frontmatter_value "tags" (strip " b, c") ]>
      (get_keys (note_of_lines ["tags: a"])).
Proof.
  apply (get_keys_last_line_sets_key ["tags: a"] "tags" " b, c").
  - repeat constructor.
  - reflexivity.
  - reflexivity.
  - reflexivity.
  - discriminate.
Defined.

Lemma get_keys_without_opening_delimiter_witness :
  get_keys "# Title" = ∅.
Proof.
  apply (get_keys_without_opening_delimiter "# Title").
  - discriminate.
  - reflexivity.
Defined.

(** ** The header, once more *)

Section HeaderOfNotes.

Lemma get_keys_well_shaped (content : string) : well_shaped (get_keys content).
Proof.
  unfold get_keys.
  destruct (split nl content) as [|first rest]; [apply well_shaped_empty|].
  destruct (negb (String.eqb first "---")); [apply well_shaped_empty|].
  apply get_keys_loop_well_shaped, well_shaped_empty.
Qed.

(** X7: With the frontmatter [get_keys] reads from any text, no step of
    [add_node_id] that works on the frontmatter raises: for an org file
    that is there a title is always found, and what is written is the
    header in front of the contents as text mode reads them, with CR LF
    and CR as LF.  An org file that is not there makes the reading raise,
    and nothing is written. *)
Theorem add_node_id_after_get_keys (content org_file node_id : string)
    (fs : gmap string string) :
  match fs !! org_file with
  | None =>
      add_node_id org_file node_id (get_keys content) fs
      = (fs, Raise (FileNotFoundError org_file))
  | Some contents =>
      exists title,
        node_title (stem org_file) (get_keys content) = Return title
        /\ add_node_id org_file node_id (get_keys content) fs
           = (<[org_file :=
                  concat (node_header (stem org_file) node_id title (get_keys content))
                  +:+ universal_newlines contents]> fs,
              Return tt)
  end.
Proof.
  destruct (fs !! org_file) as [contents|] eqn:E.
  - assert (Ht : exists title, node_title (stem org_file) (get_keys content) = Return title).
    { destruct (get_keys_well_shaped content) as (_ & _ & Hs).
      unfold node_title, str_at in *.
      destruct (get_keys content !! "title") as [[t|l]|]; [| destruct Hs |]; eauto.
      destruct (negb (startswith "@" (stem org_file))); eauto. }
    destruct Ht as [title Ht]. exists title. split; [exact Ht|].
    rewrite (add_node_id_writes _ _ contents title _ _ E Ht).
    rewrite concat_app. cbn [concat]. now rewrite append_nil_r.
  - unfold add_node_id, bind, read_text. now rewrite E.
Qed.

(** X8: Keys other than the four the header is made of never change what
    [add_node_id] does. *)
Theorem add_node_id_reads_four_keys (org_file node_id key : string) (v : value)
    (frontmatter : gmap string value) (fs : gmap string string) :
  ~ In key header_keys ->
  add_node_id org_file node_id (<[key := v]> frontmatter) fs
  = add_node_id org_file node_id frontmatter fs.
Proof.
  intros Hk. unfold header_keys in Hk. cbn [In] in Hk.
  assert (Hl : forall k, In k header_keys -> (<[key := v]> frontmatter) !! k = frontmatter !! k).
  { intros k Hin. apply lookup_insert_ne. intros ->. now apply Hk. }
  assert (Ht := Hl "title" ltac:(cbn; auto)).
  assert (Hg := Hl "tags" ltac:(cbn; auto)).
  assert (Ha := Hl "aliases" ltac:(cbn; auto)).
  assert (Hd := Hl "date-created" ltac:(cbn; auto)).
  unfold add_node_id, node_title, node_header, getitem.
  now rewrite Ht, Hg, Ha, Hd.
Qed.

(** X9: A note without frontmatter gets the identifier, for a reference note
    the reference, and its base name as title, in front of its contents as
    text mode reads them, with CR LF and CR as LF. *)
Theorem add_node_id_without_frontmatter (org_file node_id contents : string)
    (fs : gmap string string) :
  fs !! org_file = Some contents ->
  add_node_id org_file node_id ∅ fs
  = (<[org_file :=
         ":PROPERTIES:" +:+ nl +:+ ":ID: " +:+ node_id +:+ nl
         +:+ (if startswith "@" (stem org_file)
              then ":ROAM_REFS: [cite:" +:+ stem org_file +:+ "]" +:+ nl else "")
         +:+ ":END:" +:+ nl +:+ "#+title: " +:+ stem org_file +:+ nl
         +:+ nl +:+ nl +:+ universal_newlines contents]> fs,
     Return tt).
Proof.
  intros E.
  rewrite (add_node_id_writes _ _ contents (stem org_file) _ _ E)
    by (unfold node_title; now rewrite lookup_empty).
  unfold node_header, getitem. rewrite !lookup_empty.
  cbn [default join_value chars join String.concat String.eqb negb List.app concat].
  do 2 f_equal.
  destruct (startswith "@" (stem org_file));
    cbn [List.app concat]; rewrite ?append_assoc; cbn [String.append];
    rewrite ?append_assoc, ?append_nil_r; reflexivity.
Qed.

End HeaderOfNotes.

Lemma add_node_id_reads_four_keys_witness :
  add_node_id "Note.org" "ID" (<[ "author" := VStr "me" ]> ∅) {[ "Note.org" := "text" ]}
  = add_node_id "Note.org" "ID" ∅ {[ "Note.org" := "text" ]}.
Proof.
  apply (add_node_id_reads_four_keys "Note.org" "ID" "author" (VStr "me") ∅).
  cbn. intros [H|[H|[H|[H|[]]]]]; discriminate H.
Defined.

Lemma add_node_id_without_frontmatter_witness :
  add_node_id "Note.org" "ID" ∅ {[ "Note.org" := crlf_text ]}
  = (<[ "Note.org" :=
          ":PROPERTIES:" +:+ nl +:+ ":ID: " +:+ "ID" +:+ nl
          +:+ (if startswith "@" (stem "Note.org")
               then ":ROAM_REFS: [cite:" +:+ stem "Note.org" +:+ "]" +:+ nl else "")
          +:+ ":END:" +:+ nl +:+ "#+title: " +:+ stem "Note.org" +:+ nl
          +:+ nl +:+ nl +:+ ("a" +:+ nl +:+ "b" +:+ nl +:+ "c" +:+ nl) ]>
       {[ "Note.org" := crlf_text ]},
     Return tt).
Proof.
  exact (add_node_id_without_frontmatter "Note.org" "ID" crlf_text
           {[ "Note.org" := crlf_text ]} eq_refl).
Defined.

(** ** A conversion that succeeds *)

Section ConversionSucceeds.

Variable pandoc : string -> option completed_process.

(** X10: When the Markdown file can be read and the converter, given the
    prepared text of the note as text mode reads it, exits with status zero
    after writing its output, the org file holds that output, read in text
    mode, with the comments restored and the links fixed; no other file has
    changed. *)
Theorem convert_markdown_file_success (md_file org_file text org_text : string)
    (fs : gmap string string) :
  fs !! md_file = Some text ->
  pandoc (prepare_markdown_text (universal_newlines text))
  = Some {| returncode := 0; output := Some org_text |} ->
  convert_markdown_file pandoc md_file org_file fs
  = (<[org_file := fix_links (restore_comments (universal_newlines org_text))]> fs,
     Return tt).
Proof.
  intros Hmd Hp. rewrite (convert_markdown_file_readable pandoc _ _ _ _ _ Hmd Hp). cbv zeta.
  unfold after_pandoc. cbn [returncode output Z.eqb].
  rewrite lookup_insert_eq. now rewrite insert_insert_eq.
Qed.

End ConversionSucceeds.

Lemma convert_markdown_file_success_witness :
  convert_markdown_file pandoc_ok "a.md" "a.org" {[ "a.md" := crlf_text ]}
  = (<[ "a.org" := fix_links (restore_comments ("a" +:+ nl +:+ "b" +:+ nl +:+ "c" +:+ nl)) ]>
       {[ "a.md" := crlf_text ]},
     Return tt).
Proof.
  exact (convert_markdown_file_success pandoc_ok "a.md" "a.org" crlf_text
           ("a" +:+ nl +:+ "b" +:+ nl +:+ "c" +:+ nl) {[ "a.md" := crlf_text ]}
           eq_refl eq_refl).
Defined.

(** ** Resolving a file link *)

Section ResolvingLinks.

Lemma rfind_dot_absent (s : string) : has_char "." s = false -> rfind_dot s = None.
Proof.
  induction s as [|a s IH]; intros H; [reflexivity|].
  simpl in H. apply orb_false_elim in H as [Ha Hs].
  cbn [rfind_dot]. now rewrite (IH Hs), Ha.
Qed.

Lemma rfind_dot_last (n ext : string) :
  has_char "." ext = false -> rfind_dot (n +:+ String "." ext) = Some (String.length n).
Proof.
  intros H. induction n as [|a n IH].
  - change ("" +:+ String "." ext) with (String "." ext). cbn [rfind_dot].
    now rewrite (rfind_dot_absent ext H).
  - change (String a n +:+ String "." ext) with (String a (n +:+ String "." ext)).
    cbn [rfind_dot]. now rewrite IH.
Qed.

Lemma path_name_last (dir file : string) :
  has_char "/" file = false -> file <> "" -> file <> "." ->
  (dir = "" \/ exists d, dir = d +:+ "/") ->
  path_name (dir +:+ file) = file.
Proof.
  intros Hs He Hd Hdir. unfold path_name.
  assert (Hf : split "/" file = [file])
    by (apply split_absent, has_char_first_absent, Hs).
  assert (Hk : negb (String.eqb file "") && negb (String.eqb file ".") = true).
  { apply String.eqb_neq in He, Hd. now rewrite He, Hd. }
  destruct Hdir as [->|[d ->]].
  - change ("" +:+ file) with file. rewrite Hf. cbn [List.filter]. now rewrite Hk.
  - rewrite append_assoc. change ("/" +:+ file) with (String "/" file).
    pose proof (split_char_app "/" d file) as Hsp. unfold chr in Hsp. rewrite Hsp, Hf.
    rewrite List.filter_app. cbn [List.filter]. rewrite Hk. apply List.last_last.
Qed.

(** The stem of a path whose last component is a name followed by an
    extension without a dot is that name. *)
Lemma stem_of_file (dir name ext : string) :
  name <> "" -> ext <> "" -> has_char "/" name = false ->
  has_char "/" ext = false -> has_char "." ext = false ->
  (dir = "" \/ exists d, dir = d +:+ "/") ->
  stem (dir +:+ name +:+ String "." ext) = name.
Proof.
  intros Hn He Hs Hse Hde Hdir. unfold stem.
  rewrite path_name_last; [| | | |exact Hdir].
  - rewrite (rfind_dot_last name ext Hde), length_append.
    destruct name as [|a n]; [contradiction|]. destruct ext as [|b e]; [contradiction|].
    replace ((0 <? String.length (String a n))
             && (String.length (String a n)
                 <? String.length (String a n) + String.length (String "." (String b e)) - 1))
      with true.
    + apply take_app_length.
    + symmetry. apply andb_true_intro. split; apply Nat.ltb_lt; simpl; lia.
  - rewrite has_char_app, Hs. simpl. now rewrite Hse.
  - destruct name; [contradiction | discriminate].
  - destruct name as [|a [|b n]]; [contradiction| |discriminate].
    destruct ext; [contradiction | discriminate].
Qed.

(** X11: A link to an org file, in the current or in another directory and with
    [%20] for spaces, is looked up under the decoded name of the file without
    directory and extension: a known note with an identifier gives the link
    to the identifier with the description kept, anything else the link as
    it was. *)
Theorem replace_with_id_looks_up_decoded_stem (nodes : gmap string string)
    (whole target description dir name : string) :
  replace "%20" " " target = dir +:+ name ->
  (dir = "" \/ exists d, dir = d +:+ "/") ->
  name <> "" -> has_char "/" name = false ->
  replace_with_id nodes
    {| group0 := whole; group1 := target +:+ ".org"; group2 := description |}
  = match nodes !! name with
    | Some node_id =>
        if String.eqb node_id "" then whole
        else "[[id:" +:+ node_id +:+ "][" +:+ description +:+ "]]"
    | None => whole
    end.
Proof.
  intros Ht Hdir Hn Hs. unfold replace_with_id. cbn [group0 group1 group2].
  change (target +:+ ".org") with (target +:+ String "." "org").
  rewrite (replace_app_char "%" "20" " " target "org" ".") by reflexivity.
  rewrite Ht. change (replace "%20" " " "org") with "org".
  rewrite append_assoc.
  rewrite (stem_of_file dir name "org" Hn) by (trivial; discriminate).
  reflexivity.
Qed.

End ResolvingLinks.

Lemma replace_with_id_looks_up_decoded_stem_witness :
  replace_with_id note_a_table
    {| group0 := "[[file:notes/Note%20A.org][A]]";
       group1 := "notes/Note%20A" +:+ ".org"; group2 := "A" |}
  = "[[id:ID1][A]]".
Proof.
  pose proof (replace_with_id_looks_up_decoded_stem note_a_table
                "[[file:notes/Note%20A.org][A]]" "notes/Note%20A" "A" "notes/" "Note A") as H.
  apply H; [reflexivity | right; now exists "notes" | discriminate | reflexivity].
Defined.

(** ** The items of a list value *)

Section ListItems.

Lemma sem_alt_inv (r1 r2 : regex) (a : string) (c c' : caps) :
  sem (Alt r1 r2) a c c' -> sem r1 a c c' \/ sem r2 a c c'.
Proof. intros H. inversion H; subst; auto. Qed.

(** A match is settled by the text once every way of matching a prefix
    covers the same prefix and sets the same groups. *)
Lemma match_here_prefix_determined (r : regex) (a t : string) (c0 : caps) :
  sem r a [] c0 ->
  (forall a' u c', sem r a' [] c' -> a +:+ t = a' +:+ u -> a' = a /\ c' = c0) ->
  match_here false r (a +:+ t) = Some (String.length a, c0).
Proof.
  intros Hsem Huniq. unfold match_here.
  pose proof (run_complete r a [] c0 Hsem t) as Hin.
  destruct (run r (a +:+ t) []) as [|x l] eqn:E; [destruct Hin|].
  assert (Hx : In x (run r (a +:+ t) [])) by (rewrite E; now left).
  apply run_sound in Hx as (a' & Ha & Hs).
  destruct (Huniq a' (fst x) (snd x) Hs Ha) as [Ea Ec]. subst a'. rewrite Ec.
  f_equal. f_equal. apply (f_equal String.length) in Ha.
  rewrite !length_append in Ha. rewrite length_append. lia.
Qed.

(** One round of a repetition whose body is a character of a class or a
    text opening with a quote. *)
Section OneClassOrQuoted.

Variable p : ascii -> bool.
Variable q : ascii.
Variable inner : regex.

Lemma run_body_class (a : ascii) (t : string) (c : caps) :
  p a = true -> Ascii.eqb q a = false -> run (class_or_quoted p q inner) (String a t) c = [(t, c)].
Proof.
  intros Hp Hq. unfold class_or_quoted. cbn [run]. rewrite Hp. unfold chr.
  now rewrite startswith_cons, Hq.
Qed.

Lemma run_body_other (a : ascii) (t : string) (c : caps) :
  p a = false -> Ascii.eqb q a = false -> run (class_or_quoted p q inner) (String a t) c = [].
Proof.
  intros Hp Hq. unfold class_or_quoted. cbn [run]. rewrite Hp. unfold chr.
  now rewrite startswith_cons, Hq.
Qed.

Lemma run_body_nil (c : caps) : run (class_or_quoted p q inner) "" c = [].
Proof. reflexivity. Qed.

(** A greedy repetition takes the whole run first. *)
Lemma iter_greedy_run (w : string) :
  all_chars p w = true -> has_char q w = false ->
  forall fuel t c, run_ends p q t -> String.length (w +:+ t) <= fuel ->
  exists rest, iter true (run (class_or_quoted p q inner)) fuel (w +:+ t) c = (t, c) :: rest.
Proof.
  induction w as [|a w IH]; intros Hw Hq fuel t c Ht Hf.
  - change ("" +:+ t) with t in *. destruct t as [|x t].
    + rewrite iter_empty. now exists [].
    + destruct fuel as [|f]; [simpl in Hf; lia|]. destruct Ht as [Hp Hx].
      cbn [iter]. rewrite (run_body_other x t c Hp Hx). now exists [].
  - simpl in Hw. apply andb_prop in Hw as [Ha Hw].
    simpl in Hq. apply orb_false_elim in Hq as [Hqa Hq].
    rewrite Ascii.eqb_sym in Hqa.
    change (String a w +:+ t) with (String a (w +:+ t)) in *.
    destruct fuel as [|f]; [simpl in Hf; lia|].
    cbn [iter]. rewrite (run_body_class a (w +:+ t) c Ha Hqa).
    cbn [flat_map fst snd]. unfold shorter at 1. cbn [fst String.length].
    replace (String.length (w +:+ t) <? S (String.length (w +:+ t))) with true
      by (symmetry; apply Nat.ltb_lt; lia).
    destruct (IH Hw Hq f t c Ht) as [rest Hr]; [simpl in Hf; lia|].
    rewrite Hr. rewrite List.app_nil_r. now exists (rest ++ [(String a (w +:+ t), c)]).
Qed.

(** One or more rounds at the start of a run cover the run. *)
Lemma match_here_run (w t : string) :
  w <> "" -> all_chars p w = true -> has_char q w = false -> run_ends p q t ->
  match_here false (Plus (class_or_quoted p q inner)) (w +:+ t) = Some (String.length w, []).
Proof.
  intros Hne Hw Hq Ht. destruct w as [|a w]; [contradiction|].
  simpl in Hw. apply andb_prop in Hw as [Ha Hw].
  simpl in Hq. apply orb_false_elim in Hq as [Hqa Hq]. rewrite Ascii.eqb_sym in Hqa.
  change (String a w +:+ t) with (String a (w +:+ t)).
  unfold match_here, Plus. rewrite run_cat.
  rewrite (run_body_class a (w +:+ t) [] Ha Hqa). cbn [flat_map fst snd run].
  destruct (iter_greedy_run w Hw Hq (String.length (w +:+ t)) t [] Ht) as [rest Hr]; [lia|].
  rewrite Hr. cbn [List.app fst snd]. f_equal. f_equal.
  cbn [String.length]. rewrite length_append. lia.
Qed.

Lemma match_here_run_ends (t : string) :
  run_ends p q t -> match_here false (Plus (class_or_quoted p q inner)) t = None.
Proof.
  intros Ht. apply match_here_none. unfold Plus. rewrite run_cat.
  destruct t as [|x t]; [reflexivity|]. destruct Ht as [Hp Hx].
  now rewrite (run_body_other x t [] Hp Hx).
Qed.

(** At the end of a run no further round fits. *)
Lemma star_at_run_end (g : bool) (a : string) (c c' : caps) :
  sem (Star g (class_or_quoted p q inner)) a c c' ->
  forall u, run_ends p q (a +:+ u) -> a = "" /\ c' = c.
Proof.
  intros H. remember (Star g (class_or_quoted p q inner)) as r eqn:Er.
  destruct H as [| | | | | | | |g' r' c|g' r' a1 a2 c c1 c2 Hne H1 H2|]; try discriminate Er.
  - now split.
  - injection Er as -> ->. intros u Hu. exfalso.
    unfold class_or_quoted in H1. apply sem_alt_inv in H1 as [H1|H1].
    + apply sem_cls_inv in H1 as (x & -> & Hx & _).
      rewrite !append_assoc in Hu. cbn [chr String.append run_ends] in Hu.
      destruct Hu as [Hp _]. congruence.
    + apply sem_cat_inv in H1 as (l1 & l2 & c3 & -> & Hl & _).
      apply sem_lit_inv in Hl as [-> _].
      rewrite !append_assoc in Hu. cbn [chr String.append run_ends] in Hu.
      destruct Hu as [_ Hq]. now rewrite Ascii.eqb_refl in Hq.
Qed.

End OneClassOrQuoted.

Lemma scan_skip_prefix {A : Type} (r : regex) (emit : string -> caps -> A -> A)
    (keep : ascii -> A -> A) (stop : A) (w t : string) :
  scan r emit keep stop (String.length w) (w +:+ t) = scan r emit keep stop 0 t.
Proof. induction w as [|a w IH]; [reflexivity | exact IH]. Qed.

Lemma sep_char_ends (x : ascii) :
  sep_char x = true -> item_char x = false /\ Ascii.eqb DQUOTE x = false.
Proof.
  unfold sep_char, item_char, none_of. intros H.
  destruct (space x) eqn:Es.
  - split; [reflexivity|]. destruct (Ascii.eqb DQUOTE x) eqn:E; [|reflexivity].
    apply Ascii.eqb_eq in E. subst x. discriminate Es.
  - cbn [orb] in H. apply Ascii.eqb_eq in H. subst x. split; reflexivity.
Qed.

Lemma item_char_no_quote (w : string) :
  all_chars item_char w = true -> has_char DQUOTE w = false.
Proof. intros H. apply (all_chars_has_char item_char DQUOTE w H). reflexivity. Qed.

(** What stands behind an item: nothing, or a separator. *)
Lemma sep_run_ends (t : string) :
  (t = "" \/ exists x t', t = String x t' /\ sep_char x = true) ->
  run_ends item_char DQUOTE t.
Proof.
  intros [->|(x & t' & -> & Hx)]; [exact I|]. now apply sep_char_ends.
Qed.

Lemma LIST_ITEM_RE_eq :
  LIST_ITEM_RE
  = Plus (class_or_quoted item_char DQUOTE (Cat quoted_inner (Lit (chr DQUOTE)))).
Proof. reflexivity. Qed.

(** A match at the start of the text is the first item found. *)
Lemma findall_matched (r : regex) (w t : string) (c : caps) :
  w <> "" -> match_here false r (w +:+ t) = Some (String.length w, c) ->
  findall r (w +:+ t) = w :: findall r t.
Proof.
  intros Hne Hm. unfold findall.
  destruct w as [|a w]; [contradiction|].
  change (String a w +:+ t) with (String a (w +:+ t)) in *.
  cbn [scan]. rewrite Hm. cbn [String.length]. f_equal.
  - cbn [take]. f_equal. apply take_app_length.
  - replace (S (String.length w) - 1) with (String.length w) by lia.
    apply scan_skip_prefix.
Qed.

Lemma quoted_inner_intro (b : string) (c : caps) :
  has_char DQUOTE b = false -> sem quoted_inner b c c.
Proof.
  unfold quoted_inner. induction b as [|x b IH]; intros H; [apply sem_star_nil|].
  simpl in H. apply orb_false_elim in H as [Hx Hb].
  change (String x b) with (chr x +:+ b).
  apply sem_star_cons with (c1 := c); [discriminate | | now apply IH].
  apply sem_alt_r, sem_cls. unfold none_of, chr. cbn [has_char].
  rewrite Ascii.eqb_sym, Hx. reflexivity.
Qed.

(** Inside the quotes of a text without inner quote or backslash, the
    repetition ends at the closing quote. *)
Lemma quoted_inner_stops (i : string) (c c' : caps) :
  sem quoted_inner i c c' ->
  forall b y z, i +:+ String DQUOTE y = b +:+ String DQUOTE z ->
  has_char DQUOTE b = false -> has_char "\" b = false ->
  i = b /\ y = z /\ c' = c.
Proof.
  unfold quoted_inner. intros H.
  remember (Star true (Alt (Cat (Lit "\") (Cls dot)) (Cls (none_of (chr DQUOTE))))) as r eqn:Er.
  induction H as [| | | | | | | |g' r' c|g' r' a1 a2 c c1 c2 Hne H1 _ H2 IH2|];
    try discriminate Er; intros b y z E Hq Hb.
  - change ("" +:+ String DQUOTE y) with (String DQUOTE y) in E.
    destruct b as [|x b].
    + injection E as ->. now repeat split.
    + injection E as <- _. simpl in Hq. discriminate Hq.
  - injection Er as -> ->. specialize (IH2 eq_refl).
    apply sem_alt_inv in H1 as [H1|H1].
    + exfalso. apply sem_cat_inv in H1 as (l1 & l2 & c3 & -> & Hl & _).
      apply sem_lit_inv in Hl as [-> _].
      rewrite !append_assoc in E. cbn [String.append] in E.
      destruct b as [|x b]; [discriminate E|].
      injection E as <- _. simpl in Hb. discriminate Hb.
    + apply sem_cls_inv in H1 as (x & -> & Hx & ->).
      rewrite !append_assoc in E. cbn [chr String.append] in E.
      destruct b as [|x' b].
      * injection E as -> _. discriminate Hx.
      * injection E as <- E. simpl in Hq, Hb.
        apply orb_false_elim in Hq as [_ Hq]. apply orb_false_elim in Hb as [_ Hb].
        destruct (IH2 b y z E Hq Hb) as (-> & -> & ->). now repeat split.
Qed.

(** An item in front of a separator, or at the end, is found as it is. *)
Lemma findall_item (w t : string) :
  list_item w ->
  (t = "" \/ exists x t', t = String x t' /\ sep_char x = true) ->
  findall LIST_ITEM_RE (w +:+ t) = w :: findall LIST_ITEM_RE t.
Proof.
  intros [[Hne Hw]|(b & -> & Hq & Hb)] Ht; apply sep_run_ends in Ht.
  - apply (findall_matched LIST_ITEM_RE w t [] Hne).
    apply (match_here_run item_char DQUOTE); [exact Hne | exact Hw | | exact Ht].
    now apply item_char_no_quote.
  - apply (findall_matched LIST_ITEM_RE _ t []); [discriminate|].
    rewrite LIST_ITEM_RE_eq. apply match_here_prefix_determined.
    + rewrite <- (append_nil_r (chr DQUOTE +:+ b +:+ chr DQUOTE)).
      apply sem_cat with (c1 := []); [|apply sem_star_nil].
      apply sem_alt_r. apply sem_cat with (c1 := []); [apply sem_lit|].
      apply sem_cat with (c1 := []); [now apply quoted_inner_intro | apply sem_lit].
    + intros a' u c' H E. unfold Plus in H.
      apply sem_cat_inv in H as (a1 & a2 & c1 & -> & H1 & H2).
      unfold class_or_quoted in H1 at 1. apply sem_alt_inv in H1 as [H1|H1].
      * exfalso. apply sem_cls_inv in H1 as (x & -> & Hx & _).
        rewrite !append_assoc in E. cbn [chr String.append] in E.
        injection E as <- _. discriminate Hx.
      * apply sem_cat_inv in H1 as (l1 & l2 & c3 & -> & Hl & H1).
        apply sem_lit_inv in Hl as [-> ->].
        apply sem_cat_inv in H1 as (i & l3 & c4 & -> & Hi & Hl).
        apply sem_lit_inv in Hl as [-> ->].
        rewrite !append_assoc in E. cbn [chr String.append] in E.
        injection E as E. symmetry in E.
        destruct (quoted_inner_stops i [] c4 Hi b _ _ E Hq Hb) as (-> & Et & ->).
        rewrite <- Et in Ht.
        destruct (star_at_run_end item_char DQUOTE _ true a2 [] c' H2 u Ht) as [-> ->].
        split; [|reflexivity]. now rewrite !append_nil_r.
Qed.

(** Separators are passed over. *)
Lemma findall_separators (s t : string) :
  all_chars sep_char s = true ->
  findall LIST_ITEM_RE (s +:+ t) = findall LIST_ITEM_RE t.
Proof.
  induction s as [|x s IH]; intros H; [reflexivity|].
  simpl in H. apply andb_prop in H as [Hx Hs].
  change (String x s +:+ t) with (String x (s +:+ t)).
  unfold findall. cbn [scan].
  assert (Hm : match_here false LIST_ITEM_RE (String x (s +:+ t)) = None)
    by (apply (match_here_run_ends item_char DQUOTE); now apply sep_char_ends).
  rewrite Hm. apply (IH Hs).
Qed.

Lemma findall_join_items (sep : string) (words : list string) :
  sep <> "" -> all_chars sep_char sep = true -> Forall list_item words ->
  findall LIST_ITEM_RE (join sep words) = words.
Proof.
  intros Hne Hsep Hw. induction Hw as [|w words Hw1 Hrest IH]; [reflexivity|].
  destruct words as [|w2 words].
  - change (join sep [w]) with w. rewrite <- (append_nil_r w) at 1.
    rewrite (findall_item w "" Hw1) by now left. reflexivity.
  - rewrite join_cons by discriminate.
    rewrite (findall_item w _ Hw1).
    + now rewrite (findall_separators sep _ Hsep), IH.
    + right. destruct sep as [|x sep]; [contradiction|].
      simpl in Hsep. apply andb_prop in Hsep as [Hx _].
      exists x, (sep +:+ join (String x sep) (w2 :: words)). now split.
Qed.

(** X12: A bracketed list of plain and of quoted items, set apart by commas or
    white space, is read as the list of its items, the quoted ones with
    their quotes and with the separators inside them. *)
Theorem maybeSplitList_bracketed_items (sep : string) (words : list string) :
  sep <> "" -> all_chars sep_char sep = true -> Forall list_item words ->
  maybeSplitList ("[" +:+ join sep words +:+ "]") = VList words.
Proof.
  intros Hne Hsep Hw. unfold maybeSplitList.
  change ("[" +:+ join sep words +:+ "]") with (String "[" (join sep words +:+ chr "]")).
  rewrite startswith_cons, startswith_nil.
  cbn [String.length Nat.ltb Nat.leb andb orb Ascii.eqb Bool.eqb].
  unfold slice_1_m1. cbn [drop]. rewrite drop_last_snoc.
  now rewrite (findall_join_items sep words Hne Hsep Hw).
Qed.

(** X13: Without brackets a value is cut into its items once it holds a comma,
    also one inside quotes. *)
Theorem maybeSplitList_comma_items (sep : string) (words : list string) :
  sep <> "" -> all_chars sep_char sep = true -> Forall list_item words ->
  startswith "[" (join sep words) = false ->
  contains "," (join sep words) = true ->
  maybeSplitList (join sep words) = VList words.
Proof.
  intros Hne Hsep Hw Hb Hc. unfold maybeSplitList. rewrite Hb, Hc.
  destruct (join sep words) as [|a t] eqn:E; [discriminate Hc|].
  cbn [String.length Nat.ltb Nat.leb andb orb]. rewrite <- E.
  now rewrite (findall_join_items sep words Hne Hsep Hw).
Qed.

End ListItems.

Lemma maybeSplitList_bracketed_items_witness :
  maybeSplitList
    ("[" +:+ join " " [chr DQUOTE +:+ "foo bar" +:+ chr DQUOTE; "bar"] +:+ "]")
  = VList [chr DQUOTE +:+ "foo bar" +:+ chr DQUOTE; "bar"].
Proof.
  apply (maybeSplitList_bracketed_items " " [chr DQUOTE +:+ "foo bar" +:+ chr DQUOTE; "bar"]);
    [discriminate | reflexivity |].
  constructor; [right; exists "foo bar"; repeat split|].
  constructor; [left; split; [discriminate | reflexivity]|]. constructor.
Defined.

Lemma maybeSplitList_comma_items_witness :
  maybeSplitList (join "," ["a1"; "a2"]) = VList ["a1"; "a2"].
Proof.
  apply (maybeSplitList_comma_items "," ["a1"; "a2"]);
    [discriminate | reflexivity | | reflexivity | reflexivity].
  repeat constructor; discriminate.
Defined.

(** ** Code blocks *)

Section CodeBlocks.

(** A greedy repetition of single characters takes the whole run first. *)
Lemma iter_greedy_class (p : ascii -> bool) (w : string) :
  all_chars p w = true ->
  forall fuel t c,
    (t = "" \/ exists x t', t = String x t' /\ p x = false) ->
    String.length (w +:+ t) <= fuel ->
    exists rest, iter true (run (Cls p)) fuel (w +:+ t) c = (t, c) :: rest.
Proof.
  induction w as [|a w IH]; intros Hw fuel t c Ht Hf.
  - change ("" +:+ t) with t in *. destruct Ht as [->|(x & t' & -> & Hx)].
    + rewrite iter_empty. now exists [].
    + destruct fuel as [|f]; [simpl in Hf; lia|].
      cbn [iter].
      change (run (Cls p) (String x t') c) with (if p x then [(t', c)] else []).
      rewrite Hx. now exists [].
  - simpl in Hw. apply andb_prop in Hw as [Ha Hw].
    change (String a w +:+ t) with (String a (w +:+ t)) in *.
    destruct fuel as [|f]; [simpl in Hf; lia|].
    cbn [iter].
    change (run (Cls p) (String a (w +:+ t)) c) with (if p a then [(w +:+ t, c)] else []).
    rewrite Ha. cbn [flat_map fst snd]. unfold shorter at 1. cbn [fst String.length].
    replace (String.length (w +:+ t) <? S (String.length (w +:+ t))) with true
      by (symmetry; apply Nat.ltb_lt; lia).
    destruct (IH Hw f t c Ht) as [rest Hr]; [simpl in Hf; lia|].
    rewrite Hr. rewrite List.app_nil_r. now exists (rest ++ [(String a (w +:+ t), c)]).
Qed.

(** Text in front of the first character a pattern can start with is kept. *)
Lemma sub_skip_prefix (x : ascii) (l : string) (r : regex) (tpl : list piece)
    (pre s : string) :
  has_char x pre = false ->
  sub (Cat (Lit (String x l)) r) tpl (pre +:+ s)
  = pre +:+ sub (Cat (Lit (String x l)) r) tpl s.
Proof.
  induction pre as [|a pre IH]; intros H; [reflexivity|].
  simpl in H. apply orb_false_elim in H as [Ha Hp].
  change (String a pre +:+ s) with (String a (pre +:+ s)).
  rewrite sub_cons_none.
  - now rewrite (IH Hp).
  - apply match_here_none, run_lit_cat_none.
    now rewrite startswith_cons, Ascii.eqb_sym, Ha.
Qed.

(** A match at the start of the text is replaced, and the scan goes on
    behind it. *)
Lemma sub_matched (r : regex) (tpl : list piece) (w t : string) (c : caps) :
  w <> "" -> match_here false r (w +:+ t) = Some (String.length w, c) ->
  sub r tpl (w +:+ t) = expand tpl ((0, w) :: c) +:+ sub r tpl t.
Proof.
  intros Hne Hm. unfold sub.
  destruct w as [|a w]; [contradiction|].
  change (String a w +:+ t) with (String a (w +:+ t)) in *.
  cbn [scan]. rewrite Hm. cbn [String.length]. f_equal.
  - cbn [take]. now rewrite take_app_length.
  - replace (S (String.length w) - 1) with (String.length w) by lia.
    apply scan_skip_prefix.
Qed.

Lemma run_grp (n : nat) (r : regex) (s : string) (c : caps) :
  run (Grp n r) s c = map (fun x => (fst x, (n, consumed s (fst x)) :: snd x)) (run r s c).
Proof. reflexivity. Qed.

Lemma run_star (g : bool) (r : regex) (s : string) (c : caps) :
  run (Star g r) s c = iter g (run r) (String.length s) s c.
Proof. reflexivity. Qed.

Lemma match_here_run_block (lang rest : string) :
  all_chars dot lang = true -> (rest = "" \/ exists t, rest = String LF t) ->
  match_here false RUN_BLOCK_RE (("```run-" +:+ lang) +:+ rest)
  = Some (String.length ("```run-" +:+ lang), [(1, lang)]).
Proof.
  intros Hl Hr. rewrite append_assoc. unfold match_here, RUN_BLOCK_RE.
  rewrite run_cat. change (run (Lit "```run-") ("```run-" +:+ lang +:+ rest) [])
    with (if startswith "```run-" ("```run-" +:+ lang +:+ rest)
          then [(drop (String.length "```run-") ("```run-" +:+ lang +:+ rest), @nil (nat * string))]
          else []).
  rewrite startswith_app, drop_app_length. cbn [flat_map fst snd].
  rewrite run_grp, run_star.
  destruct (iter_greedy_class dot lang Hl (String.length (lang +:+ rest)) rest [])
    as [more Hm]; [|lia|].
  - destruct Hr as [->|[t ->]]; [now left|]. right. exists LF, t. now split.
  - rewrite Hm. cbn [List.map List.app fst snd]. f_equal. f_equal.
    + rewrite !length_append. cbn [String.length]. lia.
    + f_equal. f_equal. unfold consumed. rewrite length_append.
      replace (String.length lang + String.length rest - String.length rest)
        with (String.length lang) by lia.
      apply take_app_length.
Qed.

Lemma run_block_absent (tpl : list piece) (s : string) :
  contains "```run-" s = false -> sub RUN_BLOCK_RE tpl s = s.
Proof.
  apply (sub_absent _ tpl "```run-"). intros u Hu.
  apply run_lit_cat_none. now apply contains_startswith.
Qed.

Lemma replace_go_skip (old new w t : string) :
  replace_go old new (String.length w) (w +:+ t) = replace_go old new 0 t.
Proof.
  induction w as [|a w IH]; [|exact IH].
  change ("" +:+ t) with t. now destruct t.
Qed.

(** An occurrence at the start of the text is replaced, and the search
    goes on behind it. *)
Lemma replace_prefix (x : ascii) (old' new t : string) :
  replace (String x old') new (String x old' +:+ t)
  = new +:+ replace (String x old') new t.
Proof.
  unfold replace. change (String x old' +:+ t) with (String x (old' +:+ t)).
  cbn [replace_go].
  change (String x (old' +:+ t)) with (String x old' +:+ t).
  rewrite startswith_app. f_equal.
  cbn [String.length].
  replace (S (String.length old') - 1) with (String.length old') by lia.
  apply replace_go_skip.
Qed.

Lemma startswith_after_line (p lang rest : string) (x : ascii) :
  has_char x lang = false -> Ascii.eqb x LF = false ->
  (rest = "" \/ exists t, rest = String LF t) ->
  startswith (String x p) (lang +:+ rest) = false.
Proof.
  intros Hl Hx Hr. destruct lang as [|a lang].
  - change ("" +:+ rest) with rest. destruct Hr as [->|[t ->]]; [reflexivity|].
    now rewrite startswith_cons, Hx.
  - simpl in Hl. apply orb_false_elim in Hl as [Ha _].
    change (String a lang +:+ rest) with (String a (lang +:+ rest)).
    now rewrite startswith_cons, Ascii.eqb_sym, Ha.
Qed.

Lemma startswith_sh_line (lang rest : string) :
  startswith "sh" lang = false ->
  (rest = "" \/ exists t, rest = String LF t) ->
  startswith "sh" (lang +:+ rest) = false.
Proof.
  intros Hl Hr.
  assert (Hrest : forall p c, Ascii.eqb c LF = false -> startswith (String c p) rest = false).
  { intros p c Hc. destruct Hr as [->|[t ->]]; [reflexivity|].
    now rewrite startswith_cons, Hc. }
  destruct lang as [|a [|b lang]].
  - now apply Hrest.
  - change ("s" +:+ rest)%string with rest. cbn [String.append].
    rewrite startswith_cons in *. destruct (Ascii.eqb "s" a); [|reflexivity].
    cbn [andb]. now apply Hrest.
  - cbn [String.append]. rewrite !startswith_cons in *. rewrite !startswith_nil in *.
    exact Hl.
Qed.

(** X14: A block opened with [run-] and a language loses the [run-]; after that
    a language that starts with [sh] gets [shell] for the [sh]. *)
Theorem fix_markdown_code_blocks_run_block (pre lang rest : string) :
  has_char "`" pre = false ->
  all_chars dot lang = true -> has_char "`" lang = false ->
  (rest = "" \/ exists t, rest = String LF t) ->
  contains "```run-" rest = false -> contains "```sh" rest = false ->
  fix_markdown_code_blocks (pre +:+ "```run-" +:+ lang +:+ rest)
  = pre +:+ "```"
    +:+ (if startswith "sh" lang then "shell" +:+ drop 2 lang else lang) +:+ rest.
Proof.
  intros Hpre Hdot Hlang Hrest Hrun Hsh. unfold fix_markdown_code_blocks.
  unfold RUN_BLOCK_RE at 1. rewrite (sub_skip_prefix "`" "``run-" _ _ pre _ Hpre).
  fold RUN_BLOCK_RE. rewrite <- (append_assoc "```run-" lang rest).
  rewrite (sub_matched RUN_BLOCK_RE _ _ rest [(1, lang)])
    by (try discriminate; now apply match_here_run_block).
  rewrite (run_block_absent _ rest Hrun).
  cbn [expand group Nat.eqb]. rewrite append_nil_r.
  rewrite (replace_skip_prefix "`" "``sh" "```shell" pre _ Hpre). f_equal.
  rewrite (append_assoc "```" lang rest).
  destruct (startswith "sh" lang) eqn:E.
  - apply startswith_inv in E. cbn [String.length] in E. rewrite E at 1.
    change ("```" +:+ ("sh" +:+ drop 2 lang) +:+ rest)
      with ("```sh" +:+ (drop 2 lang +:+ rest)).
    rewrite replace_prefix.
    assert (Hd : has_char "`" (drop 2 lang) = false).
    { rewrite E in Hlang. change ("sh" +:+ drop 2 lang) with (String "s" (String "h" (drop 2 lang))) in Hlang.
      simpl in Hlang. exact Hlang. }
    rewrite (replace_skip_prefix "`" "``sh" "```shell" _ _ Hd).
    rewrite (replace_absent _ _ rest Hsh). reflexivity.
  - change ("```" +:+ lang +:+ rest)
      with (String "`" (String "`" (String "`" (lang +:+ rest)))).
    unfold replace. cbn [replace_go].
    rewrite !startswith_cons. cbn [Ascii.eqb Bool.eqb andb].
    rewrite (startswith_sh_line lang rest E Hrest).
    rewrite (startswith_after_line "sh" lang rest "`" Hlang eq_refl Hrest).
    rewrite (startswith_after_line "`sh" lang rest "`" Hlang eq_refl Hrest).
    do 3 f_equal.
    pose proof (replace_skip_prefix "`" "``sh" "```shell" lang rest Hlang) as Hs.
    unfold replace in Hs. rewrite Hs.
    pose proof (replace_absent "```sh" "```shell" rest Hsh) as Ha.
    unfold replace in Ha. now rewrite Ha.
Qed.

(** X15: A block whose language starts with [sh] gets [shell] for the [sh],
    also when the language is [shell] already. *)
Theorem fix_markdown_code_blocks_sh_block (pre rest : string) :
  has_char "`" pre = false ->
  contains "```run-" rest = false -> contains "```sh" rest = false ->
  fix_markdown_code_blocks (pre +:+ "```sh" +:+ rest) = pre +:+ "```shell" +:+ rest.
Proof.
  intros Hpre Hrun Hsh. unfold fix_markdown_code_blocks.
  unfold RUN_BLOCK_RE at 1. rewrite (sub_skip_prefix "`" "``run-" _ _ pre _ Hpre).
  fold RUN_BLOCK_RE.
  assert (Hsub : sub RUN_BLOCK_RE [TLit "```"; TRef 1] ("```sh" +:+ rest) = "```sh" +:+ rest).
  { change ("```sh" +:+ rest)
      with (String "`" (String "`" (String "`" (String "s" (String "h" rest))))).
    unfold RUN_BLOCK_RE.
    rewrite !sub_cons_none
      by (apply match_here_none, run_lit_cat_none;
          rewrite !startswith_cons; reflexivity).
    fold RUN_BLOCK_RE. now rewrite (run_block_absent _ rest Hrun). }
  rewrite Hsub.
  rewrite (replace_skip_prefix "`" "``sh" "```shell" pre _ Hpre). f_equal.
  rewrite replace_prefix. now rewrite (replace_absent _ _ rest Hsh).
Qed.

End CodeBlocks.

Lemma fix_markdown_code_blocks_run_block_witness :
  fix_markdown_code_blocks ("text" +:+ nl +:+ "```run-" +:+ "python" +:+ (nl +:+ "pass" +:+ nl +:+ "```" +:+ nl))
  = ("text" +:+ nl) +:+ "```"
    +:+ (if startswith "sh" "python" then "shell" +:+ drop 2 "python" else "python")
    +:+ (nl +:+ "pass" +:+ nl +:+ "```" +:+ nl).
Proof.
  apply (fix_markdown_code_blocks_run_block ("text" +:+ nl) "python"
           (nl +:+ "pass" +:+ nl +:+ "```" +:+ nl));
    try reflexivity.
  right. eexists. reflexivity.
Defined.

Lemma fix_markdown_code_blocks_sh_block_witness :
  fix_markdown_code_blocks ("" +:+ "```sh" +:+ ("ell" +:+ nl +:+ "ls" +:+ nl +:+ "```" +:+ nl))
  = "" +:+ "```shell" +:+ ("ell" +:+ nl +:+ "ls" +:+ nl +:+ "```" +:+ nl).
Proof.
  apply (fix_markdown_code_blocks_sh_block "" ("ell" +:+ nl +:+ "ls" +:+ nl +:+ "```" +:+ nl));
    reflexivity.
Defined.

(** ** Links *)

Section Links.

Lemma prefix_before_char (c : ascii) (x u w z : string) :
  has_char c x = false -> x +:+ u = w +:+ String c z -> exists m, w = x +:+ m.
Proof.
  intros Hx E. apply append_eq_append in E as [(m & Hw & _)|(m & Hx' & Hz)].
  - now exists m.
  - destruct m as [|a m].
    + exists "". rewrite Hx'. now rewrite !append_nil_r.
    + injection Hz as <- _. rewrite Hx', has_char_app in Hx.
      cbn [has_char] in Hx. rewrite Ascii.eqb_refl, orb_true_r in Hx. discriminate Hx.
Qed.

Lemma append_cancel (x a b : string) : x +:+ a = x +:+ b -> a = b.
Proof.
  induction x as [|c x IH]; intros H; [exact H|]. injection H as H. now apply IH.
Qed.

Lemma app_char_assoc (a : string) (c : ascii) (x : string) :
  a +:+ String c x = (a +:+ String c "") +:+ x.
Proof. now rewrite append_assoc. Qed.

(** Behind a text without closing bracket, the closing pair is where the
    text ends, when no closing bracket follows the pair. *)
Lemma close_unique (x g post u : string) :
  has_char "]" x = false -> has_char "]" post = false ->
  x +:+ String "]" (String "]" post) = g +:+ String "]" (String "]" u) ->
  g = x /\ u = post.
Proof.
  intros Hx Hp E. apply append_eq_append in E as [(m & Hg & Hm)|(m & Hx' & Hm)].
  - destruct m as [|a m].
    + injection Hm as <-. rewrite Hg. now rewrite append_nil_r.
    + exfalso. injection Hm as _ Hm. destruct m as [|b m].
      * injection Hm as ->. simpl in Hp. discriminate Hp.
      * injection Hm as _ ->. rewrite has_char_app in Hp. cbn [has_char] in Hp.
        rewrite Ascii.eqb_refl, orb_true_r in Hp. discriminate Hp.
  - destruct m as [|a m].
    + injection Hm as <-. rewrite Hx'. now rewrite append_nil_r.
    + exfalso. injection Hm as <- _. rewrite Hx', has_char_app in Hx.
      cbn [has_char] in Hx. rewrite Ascii.eqb_refl, orb_true_r in Hx. discriminate Hx.
Qed.

(** A closing and an opening bracket do not make a closing pair. *)
Lemma no_close_pair (a g z u : string) :
  has_char "]" a = false -> has_char "[" g = false ->
  a +:+ String "]" (String "[" z) = g +:+ String "]" (String "]" u) -> False.
Proof.
  intros Ha Hg E. apply append_eq_append in E as [(m & Hg' & Hm)|(m & Ha' & Hm)].
  - destruct m as [|x m]; cbn [String.append] in Hm; [discriminate Hm|].
    injection Hm as _ Hm. destruct m as [|y m]; cbn [String.append] in Hm; [discriminate Hm|].
    injection Hm as <- _. rewrite Hg', !has_char_app in Hg.
    cbn [has_char] in Hg. rewrite Ascii.eqb_refl in Hg.
    rewrite !orb_true_r in Hg. discriminate Hg.
  - destruct m as [|x m]; cbn [String.append] in Hm; [discriminate Hm|].
    injection Hm as <- _. rewrite Ha', has_char_app in Ha.
    cbn [has_char] in Ha. rewrite Ascii.eqb_refl, orb_true_r in Ha. discriminate Ha.
Qed.

Lemma startswith_app_other (x : ascii) (p a : string) (c : ascii) (z : string) :
  has_char x a = false -> Ascii.eqb x c = false ->
  startswith (String x p) (a +:+ String c z) = false.
Proof.
  intros Ha Hc. destruct a as [|b a].
  - change ("" +:+ String c z) with (String c z). now rewrite startswith_cons, Hc.
  - simpl in Ha. apply orb_false_elim in Ha as [Hb _].
    change (String b a +:+ String c z) with (String b (a +:+ String c z)).
    now rewrite startswith_cons, Ascii.eqb_sym, Hb.
Qed.

Lemma org_link_app (a b post : string) :
  org_link a b +:+ post
  = String "[" (String "[" (a +:+ String "]" (String "[" (b +:+ String "]" (String "]" post))))).
Proof. unfold org_link. now rewrite !append_assoc. Qed.

(** A pattern that needs the opening brackets, whose matches hold a
    closing bracket and which does not match at an org link with a
    description, leaves such a link alone. *)
Section SkippingOrgLinks.

Variable r : regex.
Variable tpl : list piece.

Hypothesis needs_open :
  forall s, startswith "[[" s = false -> startswith "![[" s = false -> run r s [] = [].
Hypothesis closes : forall a c', sem r a [] c' -> has_char "]" a = true.
Hypothesis not_at_org_link :
  forall e a b post, e = "" \/ e = "!" ->
    all_chars (none_of "|[]") a = true -> all_chars (none_of "|[]") b = true ->
    has_char "]" post = false ->
    run r (e +:+ org_link a b +:+ post) [] = [].

Lemma run_no_close (s : string) : has_char "]" s = false -> run r s [] = [].
Proof.
  intros H. apply run_none. intros a u c' Hs E.
  apply closes in Hs. rewrite E, has_char_app, Hs in H. discriminate H.
Qed.

Lemma sub_no_close (s : string) : has_char "]" s = false -> sub r tpl s = s.
Proof.
  induction s as [|a s IH]; intros H.
  - apply sub_nil_none, match_here_none, run_no_close, H.
  - rewrite sub_cons_none by (apply match_here_none, run_no_close, H).
    simpl in H. apply orb_false_elim in H as [_ H]. now rewrite IH.
Qed.

Lemma sub_skip_open (w t : string) :
  has_char "[" w = false -> run r (String "!" t) [] = [] ->
  sub r tpl (w +:+ t) = w +:+ sub r tpl t.
Proof.
  induction w as [|a w IH]; intros H Ht; [reflexivity|].
  simpl in H. apply orb_false_elim in H as [Ha Hw].
  change (String a w +:+ t) with (String a (w +:+ t)).
  rewrite sub_cons_none; [now rewrite (IH Hw Ht)|].
  apply match_here_none.
  destruct w as [|b w].
  - change ("" +:+ t) with t. destruct (Ascii.eqb a "!") eqn:E.
    + apply Ascii.eqb_eq in E. subst a. exact Ht.
    + apply needs_open; rewrite startswith_cons.
      * now rewrite Ascii.eqb_sym, Ha.
      * now rewrite Ascii.eqb_sym, E.
  - simpl in Hw. apply orb_false_elim in Hw as [Hb _].
    change (String b w +:+ t) with (String b (w +:+ t)).
    apply needs_open; rewrite !startswith_cons.
    + now rewrite Ascii.eqb_sym, Ha.
    + rewrite (Ascii.eqb_sym "[" b), Hb. cbn [andb]. apply andb_false_r.
Qed.

Lemma run_at_bracket (a : string) (c : ascii) (z : string) :
  has_char "[" a = false -> Ascii.eqb "[" c = false ->
  run r (String "[" (a +:+ String c z)) [] = []
  /\ run r (String "!" (String "[" (a +:+ String c z))) [] = [].
Proof.
  intros Ha Hc. split; apply needs_open; rewrite !startswith_cons;
    rewrite ?(startswith_app_other "[" "" a c z Ha Hc); reflexivity.
Qed.

Lemma sub_org_link (pre a b post : string) :
  has_char "[" pre = false ->
  all_chars (none_of "|[]") a = true -> all_chars (none_of "|[]") b = true ->
  has_char "]" post = false ->
  sub r tpl (pre +:+ org_link a b +:+ post) = pre +:+ org_link a b +:+ post.
Proof.
  intros Hpre Ha Hb Hpost.
  assert (Hao : has_char "[" a = false) by exact (all_chars_has_char _ "[" a Ha eq_refl).
  assert (Hbo : has_char "[" b = false) by exact (all_chars_has_char _ "[" b Hb eq_refl).
  rewrite sub_skip_open;
    [f_equal | exact Hpre
     | exact (not_at_org_link "!" a b post (or_intror eq_refl) Ha Hb Hpost)].
  rewrite org_link_app.
  rewrite sub_cons_none.
  2:{ apply match_here_none. rewrite <- org_link_app.
      exact (not_at_org_link "" a b post (or_introl eq_refl) Ha Hb Hpost). }
  f_equal.
  rewrite sub_cons_none
    by (apply match_here_none; now apply (run_at_bracket a "]")).
  f_equal.
  rewrite (app_char_assoc a "]").
  rewrite sub_skip_open.
  2:{ rewrite has_char_app, Hao. reflexivity. }
  2:{ now apply (run_at_bracket b "]"). }
  f_equal.
  rewrite sub_cons_none
    by (apply match_here_none; now apply (run_at_bracket b "]")).
  f_equal.
  rewrite (app_char_assoc b "]"), (app_char_assoc (b +:+ "]") "]").
  rewrite sub_skip_open.
  2:{ rewrite !has_char_app, Hbo. reflexivity. }
  2:{ apply run_no_close. exact Hpost. }
  now rewrite (sub_no_close post Hpost).
Qed.

End SkippingOrgLinks.

(** The shape of a match of each link pattern. *)
Lemma link_re_inv (a : string) (c c' : caps) :
  sem LINK_RE a c c' ->
  exists g, a = "[[" +:+ g +:+ "]]" /\ all_chars (none_of "|[.") g = true
            /\ c' = (1, g) :: c.
Proof.
  unfold LINK_RE. intros H.
  apply sem_cat_inv in H as (b & a1 & cb & -> & Hb & H).
  apply sem_lit_inv in Hb as [-> ->].
  apply sem_cat_inv in H as (g & b2 & cg & -> & Hg & Hb2).
  apply sem_lit_inv in Hb2 as [-> ->].
  apply sem_grp_inv in Hg as (cg' & Hg & ->).
  apply sem_star_cls_inv in Hg as [Hg ->].
  now exists g.
Qed.

Lemma link_description_re_inv (a : string) (c c' : caps) :
  sem LINK_DESCRIPTION_RE a c c' ->
  exists g1 g2, a = "[[" +:+ g1 +:+ "|" +:+ g2 +:+ "]]"
                /\ all_chars (none_of ".") g1 = true /\ all_chars dot g2 = true
                /\ c' = (2, g2) :: (1, g1) :: c.
Proof.
  unfold LINK_DESCRIPTION_RE. intros H.
  apply sem_cat_inv in H as (b & a1 & cb & -> & Hb & H).
  apply sem_lit_inv in Hb as [-> ->].
  apply sem_cat_inv in H as (g1 & a2 & c1 & -> & Hg1 & H).
  apply sem_grp_inv in Hg1 as (c1' & Hg1 & ->).
  apply sem_star_cls_inv in Hg1 as [Hg1 ->].
  apply sem_cat_inv in H as (bar & a3 & c2 & -> & Hbar & H).
  apply sem_lit_inv in Hbar as [-> ->].
  apply sem_cat_inv in H as (g2 & b2 & c3 & -> & Hg2 & Hb2).
  apply sem_lit_inv in Hb2 as [-> ->].
  apply sem_grp_inv in Hg2 as (c3' & Hg2 & ->).
  apply sem_star_cls_inv in Hg2 as [Hg2 ->].
  now exists g1, g2.
Qed.

Lemma link_re_needs_open (s : string) :
  startswith "[[" s = false -> startswith "![[" s = false -> run LINK_RE s [] = [].
Proof. intros H _. now apply run_lit_cat_none. Qed.

Lemma link_description_re_needs_open (s : string) :
  startswith "[[" s = false -> startswith "![[" s = false ->
  run LINK_DESCRIPTION_RE s [] = [].
Proof. intros H _. now apply run_lit_cat_none. Qed.

Lemma embed_re_needs_open (ext : regex) (s : string) :
  startswith "[[" s = false -> startswith "![[" s = false -> run (embed_re ext) s [] = [].
Proof.
  intros H1 H2. unfold embed_re. rewrite run_cat.
  change (run (Opt (Lit "!")) s [])
    with ((if startswith "!" s then [(drop 1 s, @nil (nat * string))] else []) ++ [(s, [])]).
  rewrite flat_map_app. cbn [flat_map fst snd]. rewrite List.app_nil_r.
  rewrite (run_lit_cat_none "[[" _ s) by exact H1.
  rewrite List.app_nil_r.
  destruct (startswith "!" s) eqn:E; [|reflexivity].
  cbn [flat_map fst snd]. rewrite List.app_nil_r.
  apply run_lit_cat_none.
  destruct s as [|a t]; [discriminate E|].
  rewrite startswith_cons in E, H2. apply andb_prop in E as [Ea _].
  rewrite Ea in H2. cbn [andb] in H2. cbn [drop]. rewrite ?drop_0. exact H2.
Qed.

Lemma link_re_closes (a : string) (c' : caps) :
  sem LINK_RE a [] c' -> has_char "]" a = true.
Proof.
  intros H. apply link_re_inv in H as (g & -> & _). rewrite !has_char_app.
  cbn. now rewrite !orb_true_r.
Qed.

Lemma link_description_re_closes (a : string) (c' : caps) :
  sem LINK_DESCRIPTION_RE a [] c' -> has_char "]" a = true.
Proof.
  intros H. apply link_description_re_inv in H as (g1 & g2 & -> & _).
  rewrite !has_char_app. cbn. now rewrite !orb_true_r.
Qed.

Lemma embed_re_closes (ext : regex) (a : string) (c' : caps) :
  sem (embed_re ext) a [] c' -> has_char "]" a = true.
Proof.
  intros H. apply sem_embed_inv in H as (e & dir & nm & ex & c1 & -> & _).
  rewrite !has_char_app. cbn. now rewrite !orb_true_r.
Qed.

Lemma plain_chars (a : string) :
  all_chars (none_of "|[]") a = true ->
  has_char "|" a = false /\ has_char "[" a = false /\ has_char "]" a = false.
Proof.
  intros H. repeat split; now apply (all_chars_has_char (none_of "|[]")).
Qed.

Lemma link_re_not_at_org_link (e a b post : string) :
  e = "" \/ e = "!" ->
  all_chars (none_of "|[]") a = true -> all_chars (none_of "|[]") b = true ->
  has_char "]" post = false ->
  run LINK_RE (e +:+ org_link a b +:+ post) [] = [].
Proof.
  intros [->| ->] Ha _ _; [|now apply run_lit_cat_none].
  destruct (plain_chars a Ha) as (_ & _ & Hac).
  change ("" +:+ org_link a b +:+ post) with (org_link a b +:+ post).
  rewrite org_link_app. apply run_none. intros x u c' H E.
  apply link_re_inv in H as (g & -> & Hg & _).
  rewrite !append_assoc in E. cbn [String.append] in E. injection E as E.
  apply (no_close_pair _ _ _ _ Hac (all_chars_has_char _ "[" g Hg eq_refl) E).
Qed.

Lemma link_description_re_not_at_org_link (e a b post : string) :
  e = "" \/ e = "!" ->
  all_chars (none_of "|[]") a = true -> all_chars (none_of "|[]") b = true ->
  has_char "]" post = false ->
  run LINK_DESCRIPTION_RE (e +:+ org_link a b +:+ post) [] = [].
Proof.
  intros [->| ->] Ha Hb Hpost; [|now apply run_lit_cat_none].
  destruct (plain_chars a Ha) as (Hab & _ & _).
  destruct (plain_chars b Hb) as (Hbb & _ & _).
  change ("" +:+ org_link a b +:+ post) with (org_link a b +:+ post).
  apply run_none. intros x u c' H E.
  apply link_description_re_inv in H as (g1 & g2 & -> & _).
  unfold org_link in E. rewrite !append_assoc in E. cbn [String.append] in E.
  injection E as E.
  assert (E' : (a +:+ "][" +:+ b +:+ "]]") +:+ post
               = g1 +:+ String "|" (g2 +:+ String "]" (String "]" u)))
    by (rewrite !append_assoc; exact E).
  assert (Hw : has_char "|" (a +:+ "][" +:+ b +:+ "]]") = false)
    by (rewrite !has_char_app, Hab, Hbb; reflexivity).
  destruct (prefix_before_char "|" _ _ _ _ Hw E') as [m Hm].
  rewrite Hm, !append_assoc in E'. apply append_cancel in E'.
  cbn [String.append] in E'. injection E' as E'. apply append_cancel in E'.
  injection E' as E'.
  rewrite E', !has_char_app in Hpost. cbn [has_char] in Hpost.
  rewrite has_char_app in Hpost. cbn [has_char] in Hpost.
  rewrite Ascii.eqb_refl, !orb_true_r in Hpost. discriminate Hpost.
Qed.

Lemma embed_re_not_at_org_link (ext : regex) :
  (forall ex c c', sem ext ex c c' -> has_char "]" ex = false) ->
  forall e a b post, e = "" \/ e = "!" ->
    all_chars (none_of "|[]") a = true -> all_chars (none_of "|[]") b = true ->
    has_char "]" post = false ->
    run (embed_re ext) (e +:+ org_link a b +:+ post) [] = [].
Proof.
  intros Hext e a b post He Ha _ _.
  destruct (plain_chars a Ha) as (_ & _ & Hac).
  apply run_none. intros x u c' H E.
  apply sem_embed_inv in H as (e' & dir & nm & ex & c1 & -> & He' & Hdir & _ & Hnm & Hex & _).
  apply Hext in Hex. destruct (dir_part_chars dir Hdir) as (Hdc & _).
  rewrite org_link_app in E. rewrite !append_assoc in E.
  assert (E' : a +:+ String "]" (String "[" (b +:+ String "]" (String "]" post)))
               = (dir +:+ nm +:+ String "." ex) +:+ String "]" (String "]" u)).
  { rewrite !append_assoc.
    destruct He as [->| ->], He' as [->| ->]; cbn [String.append] in E |- *;
      try discriminate E; now injection E. }
  apply split_first_unique in E' as [_ E']; [discriminate E' | exact Hac |].
  rewrite !has_char_app. cbn [has_char].
  now rewrite Hdc, (all_chars_has_char _ "]" nm Hnm eq_refl), Hex.
Qed.

Lemma image_ext_no_close (ex : string) (c c' : caps) :
  sem image_ext ex c c' -> has_char "]" ex = false.
Proof.
  intros H. apply sem_image_ext_inv in H as [H _].
  now apply in_image_extensions_chars in H as (_ & H & _).
Qed.

Lemma pdf_ext_no_close (ex : string) (c c' : caps) :
  sem (Alt (Lit "pdf") (Lit "PDF")) ex c c' -> has_char "]" ex = false.
Proof. intros H. apply sem_pdf_ext_inv in H as [[->| ->] _]; reflexivity. Qed.

(** The image and the PDF step of [fix_links] on an org link with a
    description. *)
Lemma embed_steps_org_link (pre a b post : string) :
  has_char "[" pre = false ->
  all_chars (none_of "|[]") a = true -> all_chars (none_of "|[]") b = true ->
  has_char "]" post = false ->
  sub PDF_RE [TLit "[[org-roam-attachments:"; TRef 1; TLit "]]"]
    (sub IMAGE_RE [TLit "[[org-roam-images:"; TRef 1; TLit "]]"]
       (pre +:+ org_link a b +:+ post))
  = pre +:+ org_link a b +:+ post.
Proof.
  intros Hpre Ha Hb Hpost.
  rewrite (sub_org_link IMAGE_RE _ (embed_re_needs_open image_ext)
             (embed_re_closes image_ext)
             (embed_re_not_at_org_link image_ext image_ext_no_close)
             pre a b post Hpre Ha Hb Hpost).
  apply (sub_org_link PDF_RE _ (embed_re_needs_open _) (embed_re_closes _)
           (embed_re_not_at_org_link _ pdf_ext_no_close)
           pre a b post Hpre Ha Hb Hpost).
Qed.

Lemma name_chars (name : string) :
  all_chars (none_of "|[].") name = true ->
  all_chars (none_of "|[]") ("file:" +:+ name +:+ ".org") = true
  /\ all_chars (none_of "|[]") name = true
  /\ all_chars (none_of "|[.") name = true
  /\ all_chars (none_of ".") name = true
  /\ has_char "]" name = false /\ has_char "|" name = false /\ has_char "[" name = false.
Proof.
  intros H.
  assert (Hw : forall cs, (forall x, none_of "|[]." x = true -> none_of cs x = true) ->
                          all_chars (none_of cs) name = true)
    by (intros cs Hcs; now apply (all_chars_weaken (none_of "|[]."))).
  assert (Hx : forall x, none_of "|[]." x = true ->
                         Ascii.eqb "|" x = false /\ Ascii.eqb "[" x = false
                         /\ Ascii.eqb "]" x = false /\ Ascii.eqb "." x = false).
  { intros x. unfold none_of. cbn [has_char]. rewrite negb_true_iff. intros Hx.
    apply orb_false_elim in Hx as [H1 Hx]. apply orb_false_elim in Hx as [H2 Hx].
    apply orb_false_elim in Hx as [H3 Hx]. apply orb_false_elim in Hx as [H4 _].
    now repeat split. }
  assert (H1 : all_chars (none_of "|[]") name = true).
  { apply Hw. intros x Hn. destruct (Hx x Hn) as (E1 & E2 & E3 & _).
    unfold none_of. cbn [has_char]. now rewrite E1, E2, E3. }
  assert (H2 : all_chars (none_of "|[.") name = true).
  { apply Hw. intros x Hn. destruct (Hx x Hn) as (E1 & E2 & _ & E4).
    unfold none_of. cbn [has_char]. now rewrite E1, E2, E4. }
  assert (H3 : all_chars (none_of ".") name = true).
  { apply Hw. intros x Hn. destruct (Hx x Hn) as (_ & _ & _ & E4).
    unfold none_of. cbn [has_char]. now rewrite E4. }
  repeat split; try assumption.
  - rewrite !all_chars_app, H1. reflexivity.
  - exact (all_chars_has_char _ "]" name H eq_refl).
  - exact (all_chars_has_char _ "|" name H eq_refl).
  - exact (all_chars_has_char _ "[" name H eq_refl).
Qed.

(** X16: An org link with a description, in a text without opening bracket
    before it and without closing bracket behind it, is left as it is;
    only [%20] is read as a space. *)
Theorem fix_links_keeps_org_link (pre target description post : string) :
  has_char "[" pre = false ->
  all_chars (none_of "|[]") target = true ->
  all_chars (none_of "|[]") description = true ->
  has_char "]" post = false ->
  fix_links (pre +:+ org_link target description +:+ post)
  = replace "%20" " " (pre +:+ org_link target description +:+ post).
Proof.
  intros Hpre Ha Hb Hpost. unfold fix_links.
  rewrite (sub_org_link LINK_RE _ link_re_needs_open link_re_closes
             link_re_not_at_org_link pre target description post Hpre Ha Hb Hpost).
  rewrite (sub_org_link LINK_DESCRIPTION_RE _ link_description_re_needs_open
             link_description_re_closes link_description_re_not_at_org_link
             pre target description post Hpre Ha Hb Hpost).
  now rewrite embed_steps_org_link.
Qed.

(** X17: A wiki link to a note becomes the link to the org file of that name,
    with the name as description. *)
Theorem fix_links_wiki_link (pre name post : string) :
  has_char "[" pre = false ->
  all_chars (none_of "|[].") name = true ->
  has_char "]" post = false ->
  fix_links (pre +:+ "[[" +:+ name +:+ "]]" +:+ post)
  = replace "%20" " " (pre +:+ org_link ("file:" +:+ name +:+ ".org") name +:+ post).
Proof.
  intros Hpre Hname Hpost.
  destruct (name_chars name Hname) as (Ht & Hn & Hcls & _ & Hnc & _).
  unfold fix_links.
  assert (H1 : sub LINK_RE [TLit "[[file:"; TRef 1; TLit ".org]["; TRef 1; TLit "]]"]
                 (pre +:+ "[[" +:+ name +:+ "]]" +:+ post)
               = pre +:+ org_link ("file:" +:+ name +:+ ".org") name +:+ post).
  { unfold LINK_RE at 1. rewrite (sub_skip_prefix "[" "[" _ _ pre _ Hpre).
    fold LINK_RE. f_equal.
    replace ("[[" +:+ name +:+ "]]" +:+ post) with (("[[" +:+ name +:+ "]]") +:+ post)
      by now rewrite !append_assoc.
    rewrite (sub_matched LINK_RE _ _ post [(1, name)]); [|discriminate|].
    - rewrite (sub_no_close LINK_RE _ link_re_closes post Hpost).
      cbn [expand group Nat.eqb]. unfold org_link. rewrite !append_assoc. reflexivity.
    - apply match_here_prefix_determined.
      + unfold LINK_RE. apply sem_cat with (c1 := []); [apply sem_lit|].
        apply sem_cat with (c1 := [(1, name)]); [|apply sem_lit].
        apply sem_grp. now apply sem_star_cls_intro.
      + intros a' u c' H E. apply link_re_inv in H as (g & -> & _ & ->).
        rewrite !append_assoc in E. cbn [String.append] in E. injection E as E.
        apply close_unique in E as [-> _]; [now split | exact Hnc | exact Hpost]. }
  rewrite H1.
  rewrite (sub_org_link LINK_DESCRIPTION_RE _ link_description_re_needs_open
             link_description_re_closes link_description_re_not_at_org_link
             pre _ name post Hpre Ht Hn Hpost).
  now rewrite embed_steps_org_link.
Qed.

(** The two groups of the pattern for links with a label are settled by
    the text, when neither the name nor the label holds a bar and no
    closing bracket follows the link. *)
Lemma label_groups_unique (name label post g1 g2 u : string) :
  has_char "|" name = false -> has_char "|" label = false ->
  has_char "]" label = false -> has_char "]" post = false ->
  name +:+ String "|" (label +:+ String "]" (String "]" post))
  = g1 +:+ String "|" (g2 +:+ String "]" (String "]" u)) ->
  g1 = name /\ g2 = label.
Proof.
  intros Hnb Hlb Hlc Hpost E.
  apply append_eq_append in E as [(m & Hg1 & Hm)|(m & Hn1 & Hm)].
  - destruct m as [|x m]; cbn [String.append] in Hm.
    + injection Hm as Hm. apply close_unique in Hm as [-> _]; try assumption.
      rewrite Hg1. now rewrite append_nil_r.
    + exfalso. injection Hm as _ Hm.
      rewrite (app_char_assoc label "]"), (app_char_assoc (label +:+ "]") "]") in Hm.
      assert (Hw : has_char "|" ((label +:+ "]") +:+ "]") = false)
        by (rewrite !has_char_app, Hlb; reflexivity).
      destruct (prefix_before_char "|" _ _ _ _ Hw Hm) as [m2 Hm2].
      rewrite Hm2, !append_assoc in Hm. apply append_cancel in Hm.
      cbn [String.append] in Hm. injection Hm as Hm.
      rewrite Hm, !has_char_app in Hpost. cbn [has_char] in Hpost.
      rewrite has_char_app in Hpost. cbn [has_char] in Hpost.
      rewrite Ascii.eqb_refl, !orb_true_r in Hpost. discriminate Hpost.
  - destruct m as [|x m]; cbn [String.append] in Hm.
    + injection Hm as Hm. symmetry in Hm.
      apply close_unique in Hm as [-> _]; try assumption.
      rewrite Hn1. now rewrite append_nil_r.
    + exfalso. injection Hm as <- _. rewrite Hn1, has_char_app in Hnb.
      cbn [has_char] in Hnb. rewrite Ascii.eqb_refl, orb_true_r in Hnb.
      discriminate Hnb.
Qed.

(** X18: A wiki link with a label becomes the link to the org file of the
    name, with the label as description. *)
Theorem fix_links_wiki_link_label (pre name label post : string) :
  has_char "[" pre = false ->
  all_chars (none_of "|[].") name = true ->
  all_chars dot label = true -> all_chars (none_of "|[]") label = true ->
  has_char "]" post = false ->
  fix_links (pre +:+ "[[" +:+ name +:+ "|" +:+ label +:+ "]]" +:+ post)
  = replace "%20" " " (pre +:+ org_link ("file:" +:+ name +:+ ".org") label +:+ post).
Proof.
  intros Hpre Hname Hdot Hlabel Hpost.
  destruct (name_chars name Hname) as (Ht & Hn & Hcls & Hnd & Hnc & Hnb & Hno).
  destruct (plain_chars label Hlabel) as (Hlb & Hlo & Hlc).
  unfold fix_links.
  assert (H1 : sub LINK_RE [TLit "[[file:"; TRef 1; TLit ".org]["; TRef 1; TLit "]]"]
                 (pre +:+ "[[" +:+ name +:+ "|" +:+ label +:+ "]]" +:+ post)
               = pre +:+ "[[" +:+ name +:+ "|" +:+ label +:+ "]]" +:+ post).
  { unfold LINK_RE at 1. rewrite (sub_skip_prefix "[" "[" _ _ pre _ Hpre).
    fold LINK_RE. f_equal.
    change ("[[" +:+ name +:+ "|" +:+ label +:+ "]]" +:+ post)
      with (String "[" (String "[" (name +:+ String "|" (label +:+ String "]" (String "]" post))))).
    rewrite sub_cons_none.
    2:{ apply match_here_none, run_none. intros a' u c' H E.
        apply link_re_inv in H as (g & -> & Hg & _).
        rewrite !append_assoc in E. cbn [String.append] in E. injection E as E.
        rewrite (app_char_assoc name "|") in E. symmetry in E.
        apply (class_run_stops (none_of "|[.") g (name +:+ "|") _ _ "]" "|" Hg eq_refl) in E;
          [exact E | |].
        - rewrite has_char_app. cbn. apply orb_true_r.
        - rewrite has_char_app, Hnc. reflexivity. }
    f_equal.
    rewrite sub_cons_none
      by (apply match_here_none, run_lit_cat_none; rewrite startswith_cons;
          now rewrite (startswith_app_other "[" "" name "|" _ Hno eq_refl)).
    f_equal.
    replace (name +:+ String "|" (label +:+ String "]" (String "]" post)))
      with ((name +:+ "|" +:+ label +:+ "]]") +:+ post) by now rewrite !append_assoc.
    unfold LINK_RE at 1. rewrite (sub_skip_prefix "[" "[").
    - fold LINK_RE. now rewrite (sub_no_close LINK_RE _ link_re_closes post Hpost).
    - rewrite !has_char_app, Hno, Hlo. reflexivity. }
  rewrite H1.
  assert (H2 : sub LINK_DESCRIPTION_RE
                 [TLit "[[file:"; TRef 1; TLit ".org]["; TRef 2; TLit "]]"]
                 (pre +:+ "[[" +:+ name +:+ "|" +:+ label +:+ "]]" +:+ post)
               = pre +:+ org_link ("file:" +:+ name +:+ ".org") label +:+ post).
  { unfold LINK_DESCRIPTION_RE at 1. rewrite (sub_skip_prefix "[" "[" _ _ pre _ Hpre).
    fold LINK_DESCRIPTION_RE. f_equal.
    replace ("[[" +:+ name +:+ "|" +:+ label +:+ "]]" +:+ post)
      with (("[[" +:+ name +:+ "|" +:+ label +:+ "]]") +:+ post)
      by now rewrite !append_assoc.
    rewrite (sub_matched LINK_DESCRIPTION_RE _ _ post [(2, label); (1, name)]);
      [|discriminate|].
    - rewrite (sub_no_close LINK_DESCRIPTION_RE _ link_description_re_closes post Hpost).
      cbn [expand group Nat.eqb]. unfold org_link. rewrite !append_assoc. reflexivity.
    - apply match_here_prefix_determined.
      + unfold LINK_DESCRIPTION_RE. apply sem_cat with (c1 := []); [apply sem_lit|].
        apply sem_cat with (c1 := [(1, name)]);
          [apply sem_grp; now apply sem_star_cls_intro|].
        apply sem_cat with (c1 := [(1, name)]); [apply sem_lit|].
        apply sem_cat with (c1 := [(2, label); (1, name)]); [|apply sem_lit].
        apply sem_grp. now apply sem_star_cls_intro.
      + intros a' u c' H E.
        apply link_description_re_inv in H as (g1 & g2 & -> & _ & _ & ->).
        rewrite !append_assoc in E. cbn [String.append] in E. injection E as E.
        destruct (label_groups_unique name label post g1 g2 u Hnb Hlb Hlc Hpost E)
          as [-> ->].
        now split. }
  rewrite H2. now rewrite embed_steps_org_link.
Qed.

End Links.

Lemma fix_links_keeps_org_link_witness :
  fix_links ("see " +:+ org_link "http://example.com" "This is an example" +:+ ".")
  = replace "%20" " "
      ("see " +:+ org_link "http://example.com" "This is an example" +:+ ".").
Proof.
  apply (fix_links_keeps_org_link "see " "http://example.com" "This is an example" ".");
    reflexivity.
Defined.

Lemma fix_links_wiki_link_witness :
  fix_links ("see " +:+ "[[" +:+ "This is a file" +:+ "]]" +:+ "!")
  = replace "%20" " "
      ("see " +:+ org_link ("file:" +:+ "This is a file" +:+ ".org") "This is a file" +:+ "!").
Proof. apply (fix_links_wiki_link "see " "This is a file" "!"); reflexivity. Defined.

Lemma fix_links_wiki_link_label_witness :
  fix_links ("" +:+ "[[" +:+ "This is a file" +:+ "|" +:+ "This is a description" +:+ "]]" +:+ "")
  = replace "%20" " "
      ("" +:+ org_link ("file:" +:+ "This is a file" +:+ ".org") "This is a description" +:+ "").
Proof.
  apply (fix_links_wiki_link_label "" "This is a file" "This is a description" "");
    reflexivity.
Defined.

(** ** Tags in the text *)

Section Tags.

(** What the scan hands on comes from a match of the pattern. *)
Lemma match_here_sem (advance : bool) (r : regex) (s : string) (n : nat) (c : caps) :
  match_here advance r s = Some (n, c) -> exists a, sem r a [] c.
Proof.
  unfold match_here. intros H.
  assert (Hin : forall l : list result,
             match l with
             | [] => None
             | x :: _ => Some (String.length s - String.length (fst x), snd x)
             end = Some (n, c) -> exists x, In x l /\ snd x = c).
  { intros [|x l] Hl; [discriminate Hl|]. injection Hl as _ <-. exists x. split; [now left | reflexivity]. }
  apply Hin in H as (x & Hx & <-).
  assert (Hr : In x (run r s [])).
  { destruct advance; [|exact Hx].
    apply list_elem_of_In in Hx. apply list_elem_of_filter in Hx as [_ Hx].
    now apply list_elem_of_In. }
  apply run_sound in Hr as (a & _ & Hs). now exists a.
Qed.

(** Every text [findall] gives for a pattern with a group is group 1 of a
    match. *)
Lemma findall_group_sem (r : regex) (P : string -> Prop) :
  (forall a c, sem r a [] c -> P (group 1 c)) ->
  forall s skip,
    Forall P (scan r (fun _ c out => group 1 c :: out) (fun _ out => out) [] skip s).
Proof.
  intros HP. induction s as [|x s IH]; intros skip.
  - destruct skip as [|k]; [|constructor]. cbn [scan].
    destruct (match_here false r "") as [[[|n] c]|] eqn:E; [| |constructor].
    + apply match_here_sem in E as [a Ha]. constructor; [now apply (HP a)|].
      destruct (match_here true r "") as [[n c']|] eqn:E'; [|constructor].
      apply match_here_sem in E' as [a' Ha']. constructor; [now apply (HP a')|constructor].
    + apply match_here_sem in E as [a Ha]. constructor; [now apply (HP a)|constructor].
  - destruct skip as [|k]; [|apply IH]. cbn [scan].
    destruct (match_here false r (String x s)) as [[[|n] c]|] eqn:E; [| |apply IH].
    + apply match_here_sem in E as [a Ha]. constructor; [now apply (HP a)|].
      destruct (match_here true r (String x s)) as [[n c']|] eqn:E'; [|apply IH].
      apply match_here_sem in E' as [a' Ha']. constructor; [now apply (HP a')|apply IH].
    + apply match_here_sem in E as [a Ha]. constructor; [now apply (HP a)|apply IH].
Qed.

Lemma tags_re_inv (a : string) (c c' : caps) :
  sem TAGS_RE a c c' ->
  exists x w, a = String "#" (String x w) /\ is_letter x = true
              /\ all_chars is_tag_char w = true /\ c' = (1, String x w) :: c.
Proof.
  unfold TAGS_RE. intros H.
  apply sem_cat_inv in H as (h & g & ch & -> & Hh & Hg).
  apply sem_lit_inv in Hh as [-> ->].
  apply sem_grp_inv in Hg as (c1 & Hg & ->).
  apply sem_cat_inv in Hg as (l & w & cl & -> & Hl & Hw).
  apply sem_cls_inv in Hl as (x & -> & Hx & ->).
  apply sem_star_cls_inv in Hw as [Hw ->].
  now exists x, w.
Qed.

(** X19: Every tag found starts with a letter and goes on with letters,
    digits, slashes, underscores and hyphens only. *)
Theorem find_tags_in_markdown_well_formed (contents : string) :
  Forall (fun tag => exists x w, tag = String x w /\ is_letter x = true
                                 /\ all_chars is_tag_char w = true)
         (find_tags_in_markdown contents).
Proof.
  unfold find_tags_in_markdown, findall_group. apply findall_group_sem.
  intros a c H. apply tags_re_inv in H as (x & w & _ & Hx & Hw & ->).
  cbn [group Nat.eqb]. now exists x, w.
Qed.

Lemma match_here_tag (x : ascii) (w rest : string) :
  is_letter x = true -> all_chars is_tag_char w = true ->
  (rest = "" \/ exists y t, rest = String y t /\ is_tag_char y = false) ->
  match_here false TAGS_RE (String "#" (String x w) +:+ rest)
  = Some (String.length (String "#" (String x w)), [(1, String x w)]).
Proof.
  intros Hx Hw Hr. unfold match_here, TAGS_RE.
  change (String "#" (String x w) +:+ rest) with (String "#" (String x (w +:+ rest))).
  rewrite run_cat.
  change (run (Lit "#") (String "#" (String x (w +:+ rest))) [])
    with (if startswith "#" (String "#" (String x (w +:+ rest)))
          then [(drop 1 (String "#" (String x (w +:+ rest))), @nil (nat * string))] else []).
  rewrite startswith_cons, startswith_nil. cbn [Ascii.eqb Bool.eqb andb drop flat_map fst snd].
  rewrite ?drop_0. rewrite run_grp, run_cat.
  change (run (Cls is_letter) (String x (w +:+ rest)) [])
    with (if is_letter x then [(w +:+ rest, @nil (nat * string))] else []).
  rewrite Hx. cbn [flat_map fst snd]. rewrite run_star.
  destruct (iter_greedy_class is_tag_char w Hw (String.length (w +:+ rest)) rest [] Hr)
    as [more Hm]; [lia|].
  rewrite Hm. cbn [List.app List.map fst snd]. f_equal. f_equal.
  - cbn [String.length]. rewrite length_append. lia.
  - f_equal. f_equal. unfold consumed. cbn [String.length].
    rewrite length_append.
    replace (S (String.length w + String.length rest) - String.length rest)
      with (S (String.length w)) by lia.
    cbn [take]. f_equal. apply take_app_length.
Qed.

(** X20: A hash followed by a tag that ends at the end of the text, or before
    a character a tag cannot hold, is found as that tag, and the search
    goes on behind it. *)
Theorem find_tags_in_markdown_finds_tag (x : ascii) (w rest : string) :
  is_letter x = true -> all_chars is_tag_char w = true ->
  (rest = "" \/ exists y t, rest = String y t /\ is_tag_char y = false) ->
  find_tags_in_markdown ("#" +:+ String x w +:+ rest)
  = String x w :: find_tags_in_markdown rest.
Proof.
  intros Hx Hw Hr. unfold find_tags_in_markdown, findall_group.
  pose proof (match_here_tag x w rest Hx Hw Hr) as Hm.
  change ("#" +:+ String x w +:+ rest) with (String "#" (String x (w +:+ rest))).
  change (String "#" (String x w) +:+ rest) with (String "#" (String x (w +:+ rest))) in Hm.
  cbn [scan]. rewrite Hm. cbn [String.length group Nat.eqb]. f_equal.
  replace (S (S (String.length w)) - 1) with (String.length (String x w))
    by (cbn [String.length]; lia).
  change (String x (w +:+ rest)) with (String x w +:+ rest).
  apply scan_skip_prefix.
Qed.

(** X21: Text without a hash holds no tag. *)
Theorem find_tags_in_markdown_without_hash (contents : string) :
  has_char "#" contents = false -> find_tags_in_markdown contents = [].
Proof.
  unfold find_tags_in_markdown, findall_group.
  induction contents as [|a s IH]; intros H.
  - reflexivity.
  - simpl in H. apply orb_false_elim in H as [Ha Hs]. cbn [scan].
    assert (Hm : match_here false TAGS_RE (String a s) = None).
    { apply match_here_none, run_lit_cat_none.
      now rewrite startswith_cons, Ascii.eqb_sym, Ha. }
    rewrite Hm. now apply IH.
Qed.

End Tags.

Lemma find_tags_in_markdown_finds_tag_witness :
  find_tags_in_markdown ("#" +:+ String "l" "iterature/2024" +:+ " and more")
  = String "l" "iterature/2024" :: find_tags_in_markdown " and more".
Proof.
  apply (find_tags_in_markdown_finds_tag "l" "iterature/2024" " and more");
    [reflexivity | reflexivity |].
  right. exists " "%char, "and more". split; reflexivity.
Defined.

Lemma find_tags_in_markdown_without_hash_witness :
  find_tags_in_markdown "no tags here" = [].
Proof. apply (find_tags_in_markdown_without_hash "no tags here"). reflexivity. Defined.

(** ** PDF embeds *)

Section PdfEmbeds.

Lemma in_pdf_extensions_chars (ext : string) :
  In ext pdf_extensions ->
  has_char "/" ext = false /\ has_char "]" ext = false /\ has_char "." ext = false
  /\ has_char "[" ext = false /\ has_char "|" ext = false
  /\ ~ In ext image_extensions.
Proof.
  unfold pdf_extensions, image_extensions. cbn [In].
  intros [<-|[<-|[]]]; repeat split; try reflexivity;
    intros [H|[H|[H|[H|[H|[]]]]]]; discriminate H.
Qed.

Lemma sem_pdf_ext_intro (a : string) (c : caps) :
  In a pdf_extensions -> sem (Alt (Lit "pdf") (Lit "PDF")) a c c.
Proof.
  unfold pdf_extensions. cbn [In]. intros [<-|[<-|[]]].
  - apply sem_alt_l, sem_lit.
  - apply sem_alt_r, sem_lit.
Qed.

Variables stem ext : string.
Hypothesis stem_not_empty : stem <> "".
Hypothesis stem_chars : all_chars (none_of "/]|[") stem = true.
Hypothesis ext_pdf : In ext pdf_extensions.

Lemma stem_wide : all_chars (none_of "/]|") stem = true.
Proof.
  apply (all_chars_weaken (none_of "/]|[")); [|exact stem_chars].
  intros a. unfold none_of. cbn [has_char].
  destruct (Ascii.eqb "/" a), (Ascii.eqb "]" a), (Ascii.eqb "|" a); cbn; congruence.
Qed.

(** The image pattern finds nothing at a PDF embed. *)
Lemma image_re_none_at_pdf (e dirpart : string) :
  e = "" \/ e = "!" ->
  dirpart = "" \/ (exists d, dirpart = d +:+ "/" /\ all_chars (none_of "|[].") d = true) ->
  run IMAGE_RE (e +:+ "[[" +:+ (dirpart +:+ stem +:+ "." +:+ ext) +:+ "]]") [] = [].
Proof.
  intros He Hdp.
  destruct (in_pdf_extensions_chars ext ext_pdf) as (Hes & Heb & Hed & Heo & Hep & Hni).
  destruct (dir_part_chars dirpart Hdp) as (Hdb & _).
  apply run_none. intros a u c' Hsem E. unfold IMAGE_RE in Hsem.
  apply sem_embed_inv in Hsem as (e' & dir & nm & ex & c1 & -> & He' & Hdir & _ & Hnm & Hex & ->).
  apply sem_image_ext_inv in Hex as [Hex ->].
  destruct (in_image_extensions_chars ex Hex) as (_ & Hxb & Hxd & _).
  destruct (dir_part_chars dir Hdir) as (Hrb & _).
  rewrite !append_assoc in E.
  assert (E' : (dirpart +:+ stem +:+ String "." ext) +:+ String "]" "]"
               = (dir +:+ nm +:+ String "." ex) +:+ String "]" (String "]" u)).
  { rewrite !append_assoc.
    destruct He as [->| ->], He' as [->| ->]; cbn [String.append] in E |- *;
      try discriminate E; now injection E. }
  clear E. apply split_first_unique in E' as [E _].
  - rewrite <- !append_assoc in E.
    apply split_last_unique in E as [_ E]; [|exact Hed|exact Hxd].
    subst ex. contradiction.
  - rewrite !has_char_app. cbn [has_char].
    rewrite Hdb, (all_chars_has_char _ "]" stem stem_chars eq_refl), Heb. reflexivity.
  - rewrite !has_char_app. cbn [has_char].
    rewrite Hrb, (all_chars_has_char _ "]" nm Hnm eq_refl), Hxb. reflexivity.
Qed.

(** The PDF pattern covers the embed, and group 1 is the file name. *)
Lemma pdf_re_match (bang : bool) (dirpart : string) :
  dirpart = "" \/ (exists d, dirpart = d +:+ "/" /\ all_chars (none_of "|[].") d = true) ->
  let s := (if bang then "!" else "") +:+ "[[" +:+ dirpart +:+ (stem +:+ "." +:+ ext) +:+ "]]" in
  exists c', match_here false PDF_RE s = Some (String.length s, c')
             /\ group 1 c' = stem +:+ "." +:+ ext.
Proof.
  intros Hdp s.
  destruct (in_pdf_extensions_chars ext ext_pdf) as (Hes & Heb & Hed & Heo & Hep & _).
  destruct (dir_part_chars dirpart Hdp) as (Hdb & _).
  apply (match_here_determined PDF_RE s s
           [(1, stem +:+ "." +:+ ext); (2, ext)]
           (fun c' => group 1 c' = stem +:+ "." +:+ ext)); [|reflexivity|].
  - apply sem_embed_intro; try assumption.
    + destruct bang; [now right | now left].
    + apply stem_name_chars, stem_wide.
    + now apply sem_pdf_ext_intro.
  - intros a' u c' Hsem E. unfold PDF_RE in Hsem.
    apply sem_embed_inv in Hsem as (e' & dir & nm & ex & c1 & -> & He' & Hdir & _ & Hnm & Hex & ->).
    apply sem_pdf_ext_inv in Hex as [Hex ->].
    assert (Hxp : In ex pdf_extensions) by (destruct Hex as [->| ->]; cbn; auto).
    destruct (in_pdf_extensions_chars ex Hxp) as (Hxs & Hxb & _).
    destruct (dir_part_chars dir Hdir) as (Hrb & _).
    unfold s in E. rewrite !append_assoc in E.
    assert (E' : (dirpart +:+ stem +:+ String "." ext) +:+ String "]" "]"
                 = (dir +:+ nm +:+ String "." ex) +:+ String "]" (String "]" u)).
    { rewrite !append_assoc.
      destruct bang, He' as [->| ->]; cbn [String.append] in E |- *;
        try discriminate E; now injection E. }
    clear E. apply split_first_unique in E' as [E Eu].
    + injection Eu as <-. split; [reflexivity|]. cbn [group Nat.eqb].
      cbn [String.append].
      assert (Hl : has_char "/" (stem +:+ String "." ext) = false)
        by (apply (name_has_no stem ext stem_wide); [reflexivity | assumption | discriminate]).
      assert (Hr : has_char "/" (nm +:+ String "." ex) = false).
      { rewrite has_char_app. cbn [has_char].
        now rewrite (all_chars_has_char _ "/" nm Hnm eq_refl), Hxs. }
      destruct Hdp as [->|(d & -> & _)], Hdir as [->|(x & -> & _)].
      * now symmetry.
      * cbn [String.append] in E. rewrite E, append_assoc, has_char_app in Hl.
        cbn [String.append has_char Ascii.eqb Bool.eqb] in Hl.
        rewrite orb_true_r in Hl. discriminate Hl.
      * cbn [String.append] in E. rewrite <- E, append_assoc, has_char_app in Hr.
        cbn [String.append has_char Ascii.eqb Bool.eqb] in Hr.
        rewrite orb_true_r in Hr. discriminate Hr.
      * rewrite !append_assoc in E. cbn [String.append] in E.
        apply split_last_unique in E as [_ E]; [now symmetry | assumption | assumption].
    + rewrite !has_char_app. cbn [has_char].
      rewrite Hdb, (all_chars_has_char _ "]" stem stem_chars eq_refl), Heb. reflexivity.
    + rewrite !has_char_app. cbn [has_char].
      rewrite Hrb, (all_chars_has_char _ "]" nm Hnm eq_refl), Hxb. reflexivity.
Qed.

(** X22: An embed of a PDF file, with or without an exclamation mark and a
    directory part in front of the file name, becomes the link to the file
    name under [org-roam-attachments:]; the image step leaves it alone. *)
Theorem fix_links_pdf_embed (bang : bool) (dirpart : string) :
  dirpart = "" \/ (exists d, dirpart = d +:+ "/" /\ all_chars (none_of "|[].") d = true) ->
  fix_links ((if bang then "!" else "") +:+ "[[" +:+ dirpart +:+ (stem +:+ "." +:+ ext) +:+ "]]")
  = "[[org-roam-attachments:" +:+ replace "%20" " " (stem +:+ "." +:+ ext) +:+ "]]".
Proof.
  intros Hdp.
  destruct (in_pdf_extensions_chars ext ext_pdf) as (Hes & Heb & Hed & Heo & Hep & _).
  destruct (dir_part_chars dirpart Hdp) as (Hdb & Hdo & Hdq & Hdd).
  set (name := stem +:+ "." +:+ ext).
  set (s := (if bang then "!" else "") +:+ "[[" +:+ dirpart +:+ name +:+ "]]").
  assert (Hno : has_char "[" name = false /\ has_char "]" name = false
                /\ has_char "|" name = false /\ has_char "." name = true).
  { unfold name. cbn [String.append]. repeat split.
    - rewrite has_char_app. cbn [has_char].
      now rewrite (all_chars_has_char _ "[" stem stem_chars eq_refl), Heo.
    - apply (name_has_no stem ext stem_wide); [reflexivity | assumption | discriminate].
    - apply (name_has_no stem ext stem_wide); [reflexivity | assumption | discriminate].
    - rewrite has_char_app. cbn [has_char Ascii.eqb Bool.eqb]. cbn. apply orb_true_r. }
  destruct Hno as (Hno & Hnb & Hnq & Hnd).
  assert (Es : s = (if bang then "!" else "") +:+ "[[" +:+ (dirpart +:+ name) +:+ "]]")
    by (unfold s; now rewrite append_assoc).
  assert (H1 : sub LINK_RE [TLit "[[file:"; TRef 1; TLit ".org]["; TRef 1; TLit "]]"] s = s).
  { rewrite Es. unfold LINK_RE. apply sub_brackets_none.
    - now rewrite has_char_app, Hdo, Hno.
    - apply link_re_none; rewrite has_char_app.
      + rewrite Hnd. apply orb_true_r.
      + now rewrite Hdb, Hnb. }
  assert (H2 : sub LINK_DESCRIPTION_RE
                 [TLit "[[file:"; TRef 1; TLit ".org]["; TRef 2; TLit "]]"] s = s).
  { rewrite Es. unfold LINK_DESCRIPTION_RE. apply sub_brackets_none.
    - now rewrite has_char_app, Hdo, Hno.
    - apply link_description_re_none; rewrite has_char_app.
      + rewrite Hnd. apply orb_true_r.
      + now rewrite Hdq, Hnq. }
  assert (H3 : sub IMAGE_RE [TLit "[[org-roam-images:"; TRef 1; TLit "]]"] s = s).
  { rewrite Es.
    assert (Hin : sub IMAGE_RE [TLit "[[org-roam-images:"; TRef 1; TLit "]]"]
                    ("[[" +:+ (dirpart +:+ name) +:+ "]]")
                  = "[[" +:+ (dirpart +:+ name) +:+ "]]").
    { unfold IMAGE_RE. apply sub_embed_brackets_none.
      - now rewrite has_char_app, Hdo, Hno.
      - apply (image_re_none_at_pdf "" dirpart); [now left | exact Hdp]. }
    destruct bang; [|exact Hin].
    change ("!" +:+ "[[" +:+ (dirpart +:+ name) +:+ "]]")
      with (String "!" ("[[" +:+ (dirpart +:+ name) +:+ "]]")).
    rewrite sub_cons_none; [now rewrite Hin|].
    apply match_here_none.
    apply (image_re_none_at_pdf "!" dirpart); [now right | exact Hdp]. }
  assert (H4 : sub PDF_RE [TLit "[[org-roam-attachments:"; TRef 1; TLit "]]"] s
               = "[[" +:+ ("org-roam-attachments:" +:+ name) +:+ "]]").
  { destruct (pdf_re_match bang dirpart Hdp) as (c' & Hm & Hg).
    fold name s in Hm, Hg.
    rewrite (sub_whole_match PDF_RE _ s c') by
      (try exact Hm; try reflexivity; unfold s; destruct bang; discriminate).
    cbn [expand group Nat.eqb]. rewrite Hg. reflexivity. }
  unfold fix_links. fold name s. rewrite H1, H2, H3, H4.
  change ("[[" +:+ ("org-roam-attachments:" +:+ name) +:+ "]]")
    with ("[[org-roam-attachments:" +:+ name +:+ String "]" "]").
  rewrite (replace_skip_prefix "%" "20" " " "[[org-roam-attachments:") by reflexivity.
  now rewrite (replace_app_char "%" "20" " " name "]" "]") by reflexivity.
Qed.

End PdfEmbeds.

Lemma fix_links_pdf_embed_witness :
  fix_links ((if true then "!" else "") +:+ "[[" +:+ "papers/" +:+ ("my%20paper" +:+ "." +:+ "pdf") +:+ "]]")
  = "[[org-roam-attachments:" +:+ replace "%20" " " ("my%20paper" +:+ "." +:+ "pdf") +:+ "]]".
Proof.
  apply (fix_links_pdf_embed "my%20paper" "pdf"); [discriminate | reflexivity | now left |].
  right. exists "papers". split; reflexivity.
Defined.

(** * Image embeds with any file name *)

Section ImageEmbedsAnywhere.

(** A pattern that matches at no position leaves the text alone. *)
Lemma sub_none_anywhere (r : regex) (tpl : list piece) (s : string) :
  (forall p t, s = p +:+ t -> run r t [] = []) -> sub r tpl s = s.
Proof.
  induction s as [|a s IH]; intros H.
  - apply sub_nil_none, match_here_none, (H "" ""). reflexivity.
  - rewrite sub_cons_none by (apply match_here_none, (H "" (String a s)); reflexivity).
    f_equal. apply IH. intros p t ->. apply (H (String a p) t). reflexivity.
Qed.

(** The last character of a text lies in every suffix that is not empty. *)
Lemma last_in_suffix (a : ascii) (x y w : string) :
  x +:+ chr a = y +:+ w -> w <> "" -> has_char a w = true.
Proof.
  intros E Hw. apply append_eq_append in E as [(m & Hy & Hm)|(m & Hx & Hm)].
  - destruct m as [|b m]; cbn [String.append] in Hm.
    + subst w. cbn [chr has_char]. now rewrite Ascii.eqb_refl.
    + unfold chr in Hm. injection Hm as _ Hm. destruct m; destruct w; try discriminate Hm.
      contradiction.
  - rewrite Hm, has_char_app. cbn [chr has_char]. rewrite Ascii.eqb_refl. apply orb_true_r.
Qed.

(** A tail without a character lies behind the last occurrence of it. *)
Lemma tail_after_char (c : ascii) (p g x y : string) :
  has_char c g = false -> p +:+ g = x +:+ String c y ->
  exists m, y = m +:+ g /\ p = x +:+ String c m.
Proof.
  intros Hg E. apply append_eq_append in E as [(m & Hx & Hm)|(m & Hp & Hm)].
  - exfalso. rewrite Hm, has_char_app in Hg. cbn [has_char] in Hg.
    rewrite Ascii.eqb_refl, orb_true_r in Hg. discriminate Hg.
  - destruct m as [|b m]; cbn [String.append] in Hm.
    + exfalso. rewrite <- Hm in Hg. cbn [has_char] in Hg.
      rewrite Ascii.eqb_refl in Hg. discriminate Hg.
    + injection Hm as <- ->. now exists m.
Qed.

(** In a text that ends with a dot, an extension and the closing brackets
    and holds no other closing bracket, the pattern for plain links finds
    nothing. *)
Lemma link_re_none_in_name (x ext : string) :
  has_char "]" x = false -> has_char "]" ext = false -> has_char "[" ext = false ->
  forall p t, x +:+ String "." ext +:+ "]]" = p +:+ t -> run LINK_RE t [] = [].
Proof.
  intros Hx Hec Heo p t E. apply run_none. intros a u c' H ->.
  apply link_re_inv in H as (g & -> & Hg & _).
  assert (E' : (x +:+ String "." ext) +:+ String "]" (String "]" "")
               = (p +:+ "[[" +:+ g) +:+ String "]" (String "]" u))
    by (rewrite !append_assoc in E |- *; exact E).
  apply close_unique in E' as [E' _];
    [|rewrite has_char_app; cbn [has_char]; now rewrite Hx, Hec | reflexivity].
  rewrite <- append_assoc in E'.
  destruct (tail_after_char "." _ g x ext (all_chars_has_char _ "." g Hg eq_refl) E')
    as (m & Hext & Hp).
  assert (Hm : has_char "[" (String "." m) = true).
  { apply (last_in_suffix "[" (p +:+ "[") x); [|discriminate].
    rewrite append_assoc. exact Hp. }
  cbn [has_char] in Hm. rewrite Hext, has_char_app in Heo.
  apply orb_false_elim in Heo as [Heo _]. cbn in Hm. congruence.
Qed.

(** The pattern for links with a label finds nothing in a text without a
    bar. *)
Lemma link_description_re_none_without_bar (s : string) :
  has_char "|" s = false ->
  forall p t, s = p +:+ t -> run LINK_DESCRIPTION_RE t [] = [].
Proof.
  intros Hs p t E. apply run_none. intros a u c' H ->.
  apply link_description_re_inv in H as (g1 & g2 & -> & _).
  rewrite E, !has_char_app in Hs. cbn [has_char] in Hs.
  rewrite (Ascii.eqb_refl "|") in Hs. cbn [orb] in Hs.
  rewrite !orb_true_r in Hs. discriminate Hs.
Qed.

Variables stem ext : string.
Hypothesis stem_not_empty : stem <> "".
Hypothesis stem_chars : all_chars (none_of "/]|") stem = true.
Hypothesis ext_image : In ext image_extensions.

(** The PDF pattern finds nothing in the link to the image. *)
Lemma pdf_re_none_in_image_link (p t : string) :
  ("[[org-roam-images:" +:+ stem) +:+ String "." ext +:+ "]]" = p +:+ t ->
  run PDF_RE t [] = [].
Proof.
  intros E.
  destruct (in_image_extensions_chars ext ext_image)
    as (Hes & Heb & Hed & Heo & Hep & Hec & Hn1 & Hn2).
  apply run_none. intros a u c' Hsem ->. unfold PDF_RE in Hsem.
  apply sem_embed_inv in Hsem as (e' & dir & nm & ex & c1 & -> & _ & _ & _ & _ & Hex & _).
  apply sem_pdf_ext_inv in Hex as [Hex _].
  assert (E' : (("[[org-roam-images:" +:+ stem) +:+ String "." ext) +:+ String "]" (String "]" "")
               = ((p +:+ e' +:+ "[[" +:+ dir +:+ nm) +:+ String "." ex)
                 +:+ String "]" (String "]" u))
    by (rewrite !append_assoc in E |- *; exact E).
  apply close_unique in E' as [E' _]; [| |reflexivity].
  - apply split_last_unique in E' as [_ E'].
    + subst ex. now destruct Hex.
    + now destruct Hex as [->| ->].
    + exact Hed.
  - rewrite !has_char_app. cbn [has_char].
    now rewrite (all_chars_has_char _ "]" stem stem_chars eq_refl), Heb.
Qed.

(** What [fix_links] makes of an image embed, with or without a directory
    part in front of the file name. *)
Lemma fix_links_embed (bang : bool) (dirpart : string) :
  dirpart = "" \/ (exists d, dirpart = d +:+ "/" /\ all_chars (none_of "|[].") d = true) ->
  fix_links ((if bang then "!" else "") +:+ "[[" +:+ dirpart +:+ (stem +:+ "." +:+ ext) +:+ "]]")
  = "[[org-roam-images:" +:+ replace "%20" " " (stem +:+ "." +:+ ext) +:+ "]]".
Proof.
  intros Hdp.
  destruct (in_image_extensions_chars ext ext_image) as (Hes & Heb & Hed & Heo & Hep & _).
  destruct (dir_part_chars dirpart Hdp) as (Hdb & Hdo & Hdq & Hdd).
  set (name := stem +:+ "." +:+ ext).
  set (s := (if bang then "!" else "") +:+ "[[" +:+ dirpart +:+ name +:+ "]]").
  assert (Hsb : has_char "]" stem = false)
    by exact (all_chars_has_char _ "]" stem stem_chars eq_refl).
  assert (Hsq : has_char "|" stem = false)
    by exact (all_chars_has_char _ "|" stem stem_chars eq_refl).
  assert (Es : s = (((if bang then "!" else "") +:+ "[[" +:+ dirpart) +:+ stem)
                   +:+ String "." ext +:+ "]]")
    by (unfold s, name; rewrite !append_assoc; reflexivity).
  assert (H1 : sub LINK_RE [TLit "[[file:"; TRef 1; TLit ".org]["; TRef 1; TLit "]]"] s = s).
  { apply sub_none_anywhere. intros p t E. rewrite Es in E.
    apply (link_re_none_in_name
             (((if bang then "!" else "") +:+ "[[" +:+ dirpart) +:+ stem) ext)
      with (p := p) (t := t); try assumption.
    rewrite !has_char_app, Hdb, Hsb. now destruct bang. }
  assert (H2 : sub LINK_DESCRIPTION_RE
                 [TLit "[[file:"; TRef 1; TLit ".org]["; TRef 2; TLit "]]"] s = s).
  { apply sub_none_anywhere. apply link_description_re_none_without_bar.
    rewrite Es, !has_char_app. cbn [has_char]. rewrite ?has_char_app, Hdq, Hsq, Hep.
    now destruct bang. }
  assert (H3 : sub IMAGE_RE [TLit "[[org-roam-images:"; TRef 1; TLit "]]"] s
               = "[[" +:+ ("org-roam-images:" +:+ name) +:+ "]]").
  { destruct (image_re_match stem ext stem_not_empty stem_chars ext_image bang dirpart Hdp)
      as (c' & Hm & Hg).
    fold name s in Hm, Hg.
    rewrite (sub_whole_match IMAGE_RE _ s c') by
      (try exact Hm; try reflexivity; unfold s; destruct bang; discriminate).
    cbn [expand group Nat.eqb]. rewrite Hg. reflexivity. }
  assert (H4 : sub PDF_RE [TLit "[[org-roam-attachments:"; TRef 1; TLit "]]"]
                 ("[[" +:+ ("org-roam-images:" +:+ name) +:+ "]]")
               = "[[" +:+ ("org-roam-images:" +:+ name) +:+ "]]").
  { apply sub_none_anywhere. intros p t E.
    apply (pdf_re_none_in_image_link p t). rewrite <- E. unfold name.
    rewrite !append_assoc. reflexivity. }
  unfold fix_links. fold name s. rewrite H1, H2, H3, H4.
  change ("[[" +:+ ("org-roam-images:" +:+ name) +:+ "]]")
    with ("[[org-roam-images:" +:+ name +:+ String "]" "]").
  rewrite (replace_skip_prefix "%" "20" " " "[[org-roam-images:") by reflexivity.
  now rewrite (replace_app_char "%" "20" " " name "]" "]") by reflexivity.
Qed.

End ImageEmbedsAnywhere.

(** C6, as the code has it: an image embed with a directory part in front of
    the file name gives the same link as the embed of the file name alone,
    the link to the file name under [org-roam-images:] with [%20] read as
    a space, provided the directory part holds none of the characters bar,
    bracket and dot, and the file name is a stem that is not empty and holds
    no slash, closing bracket or bar, then a dot and one of the image
    extensions. *)
Theorem fix_links_image_directory_discarded (bang : bool) (d stem ext : string) :
  all_chars (none_of "|[].") d = true ->
  stem <> "" ->
  all_chars (none_of "/]|") stem = true ->
  In ext image_extensions ->
  fix_links ((if bang then "!" else "") +:+ "[[" +:+ d +:+ "/" +:+ stem +:+ "." +:+ ext +:+ "]]")
  = fix_links ((if bang then "!" else "") +:+ "[[" +:+ stem +:+ "." +:+ ext +:+ "]]")
  /\ fix_links ((if bang then "!" else "") +:+ "[[" +:+ stem +:+ "." +:+ ext +:+ "]]")
     = "[[org-roam-images:" +:+ replace "%20" " " (stem +:+ "." +:+ ext) +:+ "]]".
Proof.
  intros Hd Hne Hstem Hext.
  pose proof (fix_links_embed stem ext Hne Hstem Hext bang "" (or_introl eq_refl)) as Hbare.
  pose proof (fix_links_embed stem ext Hne Hstem Hext bang (d +:+ "/")
                (or_intror (ex_intro _ d (conj eq_refl Hd)))) as Hdir.
  assert (Tbare : (if bang then "!" else "") +:+ "[[" +:+ stem +:+ "." +:+ ext +:+ "]]"
                  = (if bang then "!" else "") +:+ "[[" +:+ "" +:+ (stem +:+ "." +:+ ext) +:+ "]]")
    by (rewrite !append_assoc; reflexivity).
  assert (Tdir : (if bang then "!" else "") +:+ "[[" +:+ d +:+ "/" +:+ stem +:+ "." +:+ ext +:+ "]]"
                 = (if bang then "!" else "") +:+ "[[" +:+ (d +:+ "/")
                   +:+ (stem +:+ "." +:+ ext) +:+ "]]")
    by (rewrite !append_assoc; reflexivity).
  rewrite Tbare, Tdir, Hbare, Hdir. now split.
Qed.

(** The embed of the repository's test, and a file name with an opening
    bracket. *)
Lemma fix_links_image_directory_discarded_witness :
  (fix_links "[[attachments/example.png]]" = fix_links "[[example.png]]"
   /\ fix_links "[[example.png]]" = "[[org-roam-images:example.png]]")
  /\ (fix_links "![[dir/a[b.png]]" = fix_links "![[a[b.png]]"
      /\ fix_links "![[a[b.png]]" = "[[org-roam-images:a[b.png]]").
Proof.
  assert (Hext : In "png" image_extensions) by now left.
  assert (Hne : "example" <> "") by discriminate.
  assert (Hne' : "a[b" <> "") by discriminate.
  split.
  - exact (fix_links_image_directory_discarded false "attachments" "example" "png"
             eq_refl Hne eq_refl Hext).
  - exact (fix_links_image_directory_discarded true "dir" "a[b" "png"
             eq_refl Hne' eq_refl Hext).
Defined.

(** C6 as stated fails: with a directory part that holds a dot, as in a
    path that goes up one directory, the embed is left as it is and does not
    become the link the embed of the file name alone becomes. *)
Lemma fix_links_keeps_dotted_directory :
  fix_links "[[../attachments/example.png]]" = "[[../attachments/example.png]]"
  /\ fix_links "[[example.png]]" = "[[org-roam-images:example.png]]"
  /\ fix_links "[[../attachments/example.png]]" <> fix_links "[[example.png]]".
Proof.
  assert (H1 : fix_links "[[../attachments/example.png]]" = "[[../attachments/example.png]]")
    by (vm_compute; reflexivity).
  assert (H2 : fix_links "[[example.png]]" = "[[org-roam-images:example.png]]")
    by (vm_compute; reflexivity).
  split; [exact H1|]. split; [exact H2|]. rewrite H1, H2. discriminate.
Qed.
